(** * Garment fitting and fit analysis: a shallow embedding

    The TypeScript sources [garmentMeasurements.ts], [hybridGarmentFitting.ts],
    [fabricPhysics.ts] and [garmentFitting.ts] are embedded as Rocq functions.

    Numbers.  A JavaScript number is modelled by a rational [Q]: every finite
    double is a rational, and the arithmetic of the sources is read exactly
    (no rounding, no NaN, no infinities).  Where the sources divide, the
    theorems below assume the divisor is not zero whenever the quotient
    matters.  Equality of numbers is [Qeq] ([==]). *)

From Stdlib Require Import QArith Qminmax Qabs Qround Lqa ZArith Lia.
From Stdlib Require Import List String Ascii Bool DecimalString.
Import ListNotations.

Set Implicit Arguments.

(* ================================================================== *)
(** ** JavaScript helpers *)
(* ================================================================== *)

Module JS.

Local Open Scope Q_scope.

(** [x < y], [x <= y], [x > y], [x >= y] as the booleans JavaScript computes. *)
Definition ltb (x y : Q) : bool := negb (Qle_bool y x).
Definition leb (x y : Q) : bool := Qle_bool x y.
Definition gtb (x y : Q) : bool := ltb y x.
Definition geb (x y : Q) : bool := leb y x.

(** Truthiness of an optional numeric field: [undefined] and [0] are falsy. *)
Definition truthy (o : option Q) : bool :=
  match o with
  | Some q => negb (Qeq_bool q 0)
  | None => false
  end.

(** [o ?? d] *)
Definition nullish (o : option Q) (d : Q) : Q :=
  match o with Some q => q | None => d end.

(** [Math.sign] *)
Definition sign (x : Q) : Q :=
  if ltb 0 x then 1 else if ltb x 0 then -1 else 0.

(** Decimal digits of a non-negative number rounded to the nearest integer,
    ties upwards. *)
Definition roundDigits (a : Q) : string :=
  NilZero.string_of_uint (N.to_uint (Z.to_N (Qfloor (a + (1 # 2))))).

(** [x.toFixed(0)] (for magnitudes below 1e21): the sign is split off first,
    so [(-0.4).toFixed(0)] is ["-0"]. *)
Definition toFixed0 (x : Q) : string :=
  if ltb x 0 then ("-" ++ roundDigits (- x))%string else roundDigits x.

(** [xs.join(sep)] *)
Fixpoint join (sep : string) (xs : list string) : string :=
  match xs with
  | [] => EmptyString
  | [x] => x
  | x :: rest => (x ++ sep ++ join sep rest)%string
  end.

(** How a call ends: it returns a value or throws. *)
Inductive JsError := TypeError.

Inductive Outcome (A : Type) : Type :=
| Returned (a : A)
| Thrown (e : JsError).

Arguments Returned {A} a.
Arguments Thrown {A} e.

Definition bind {A B} (m : Outcome A) (k : A -> Outcome B) : Outcome B :=
  match m with
  | Returned a => k a
  | Thrown e => Thrown e
  end.

End JS.

Notation "x <- m ;; k" := (JS.bind m (fun x => k))
  (at level 61, m at next level, right associativity).

(* ================================================================== *)
(** ** garmentMeasurements.ts *)
(* ================================================================== *)

Module Garment.
(** [GarmentMeasurements] (cm). *)
Record t := mk {
  chest : Q;
  waist : option Q;
  length : Q;
  shoulderWidth : option Q;
  sleeveLength : option Q;
  hemWidth : option Q;
  neckWidth : option Q;
  armholeDepth : option Q
}.
End Garment.

Module Body.
(** [BodyMeasurements] (cm). *)
Record t := mk {
  chest : Q;
  waist : Q;
  hips : option Q;
  shoulderWidth : Q;
  torsoLength : option Q
}.
End Body.

Inductive FitStatus := too_tight | tight | perfect | loose | too_loose.

Record FitMetric := {
  garmentMeasurement : Q;
  bodyMeasurement : Q;
  difference : Q;
  status : FitStatus;
  percentage : Q
}.

Record FitAnalysis := {
  overall : FitStatus;
  chestFit : FitMetric;
  waistFit : option FitMetric;
  shoulderFit : option FitMetric;
  lengthFit : option FitMetric;
  recommendation : string
}.

Section FitAnalyzer.

Local Open Scope Q_scope.

Definition classifyFit (percentage : Q) : FitStatus :=
  if JS.ltb percentage (-5) then too_tight
  else if JS.ltb percentage 2 then tight
  else if JS.ltb percentage 10 then perfect
  else if JS.ltb percentage 20 then loose
  else too_loose.

(** The object literal both [analyzeFit] branches build for one region. *)
Definition fitMetric (garment body : Q) : FitMetric :=
  let diff := garment - body in
  let pct := (diff / body) * 100 in
  {| garmentMeasurement := garment;
     bodyMeasurement := body;
     difference := diff;
     status := classifyFit pct;
     percentage := pct |}.

Definition generateRecommendation
    (chestFit : FitMetric) (waistFit shoulderFit lengthFit : option FitMetric)
    : string :=
  let issues0 : list string :=
    match status chestFit with
    | too_tight =>
        [("chest will be very tight ("
            ++ JS.toFixed0 (Qabs (difference chestFit)) ++ "cm too small)")%string]
    | tight => ["chest will be snug"%string]
    | too_loose =>
        [("chest will be very loose ("
            ++ JS.toFixed0 (difference chestFit) ++ "cm extra)")%string]
    | _ => []
    end in
  let issues1 : list string :=
    match waistFit with
    | Some w =>
        match status w with
        | too_tight =>
            issues0 ++ [("waist will be very tight ("
               ++ JS.toFixed0 (Qabs (difference w)) ++ "cm too small)")%string]
        | too_loose =>
            issues0 ++ [("waist will be very loose ("
               ++ JS.toFixed0 (difference w) ++ "cm extra)")%string]
        | _ => issues0
        end
    | None => issues0
    end in
  let issues2 : list string :=
    match shoulderFit with
    | Some s =>
        match status s with
        | too_tight => issues1 ++ ["shoulders will be too narrow"%string]
        | too_loose => issues1 ++ ["shoulders will be too wide"%string]
        | _ => issues1
        end
    | None => issues1
    end in
  let issues : list string :=
    match lengthFit with
    | Some l =>
        if JS.ltb (difference l) (-5) then issues2 ++ ["garment will be too short"%string]
        else if JS.gtb (difference l) 15 then issues2 ++ ["garment will be very long"%string]
        else issues2
    | None => issues2
    end in
  match issues with
  | [] => "✓ Perfect fit - this size should fit well"%string
  | [i] => ("⚠ " ++ i)%string
  | _ => ("⚠ " ++ JS.join ", " issues)%string
  end.

(** [statusPriority]: lower is worse. *)
Definition statusPriority (s : FitStatus) : nat :=
  match s with
  | too_tight => 0
  | tight => 1
  | perfect => 2
  | loose => 1
  | too_loose => 0
  end%nat.

(** The callback of [allStatuses.reduce]. *)
Definition worse (worst current : FitStatus) : FitStatus :=
  if (statusPriority current <? statusPriority worst)%nat then current else worst.

(** [[chestFit.status, waistFit?.status, shoulderFit?.status].filter(Boolean)]:
    the first entry is always there. *)
Definition allStatuses (chestFit : FitMetric) (waistFit shoulderFit : option FitMetric)
    : FitStatus * list FitStatus :=
  (status chestFit,
   (match waistFit with Some w => [status w] | None => [] end)
     ++ (match shoulderFit with Some s => [status s] | None => [] end)).

Definition analyzeFit (garmentMeasurements : Garment.t) (bodyMeasurements : Body.t)
    : FitAnalysis :=
  let chestFit := fitMetric (Garment.chest garmentMeasurements) (Body.chest bodyMeasurements) in
  let waistFit :=
    if JS.truthy (Garment.waist garmentMeasurements)
    then option_map (fun w => fitMetric w (Body.waist bodyMeasurements))
                    (Garment.waist garmentMeasurements)
    else None in
  let shoulderFit :=
    if JS.truthy (Garment.shoulderWidth garmentMeasurements)
    then option_map (fun s => fitMetric s (Body.shoulderWidth bodyMeasurements))
                    (Garment.shoulderWidth garmentMeasurements)
    else None in
  let lengthFit :=
    if JS.truthy (Body.torsoLength bodyMeasurements)
    then option_map (fun t => fitMetric (Garment.length garmentMeasurements) t)
                    (Body.torsoLength bodyMeasurements)
    else None in
  let '(first, rest) := allStatuses chestFit waistFit shoulderFit in
  let overall := fold_left worse rest first in
  {| overall := overall;
     chestFit := chestFit;
     waistFit := waistFit;
     shoulderFit := shoulderFit;
     lengthFit := lengthFit;
     recommendation := generateRecommendation chestFit waistFit shoulderFit lengthFit |}.

Record Ease := { chestEase : Q; waistEase : Q; shoulderEase : Q }.

Definition calculateActualEase (garmentMeasurements : Garment.t) (bodyMeasurements : Body.t)
    : Ease :=
  let chestEase := Garment.chest garmentMeasurements - Body.chest bodyMeasurements in
  let waistEase :=
    if JS.truthy (Garment.waist garmentMeasurements)
    then JS.nullish (Garment.waist garmentMeasurements) 0 - Body.waist bodyMeasurements
    else chestEase * 0.75 in
  let shoulderEase :=
    if JS.truthy (Garment.shoulderWidth garmentMeasurements)
    then JS.nullish (Garment.shoulderWidth garmentMeasurements) 0
         - Body.shoulderWidth bodyMeasurements
    else Qmin (chestEase * 0.4) 3 in
  {| chestEase := Qmax 0 chestEase;
     waistEase := Qmax 0 waistEase;
     shoulderEase := Qmax 0 shoulderEase |}.

End FitAnalyzer.

(* ================================================================== *)
(** ** recommendSize *)
(* ================================================================== *)

Record SizeOption := { size : string; measurements : Garment.t }.

Record Alternative := { alt_size : string; reason : string }.

Record Recommendation := {
  recommendedSize : string;
  analysis : FitAnalysis;
  alternativeSizes : list Alternative
}.

Section SizeRecommender.

Local Open Scope Z_scope.

Definition statusScores (s : FitStatus) : Z :=
  match s with
  | too_tight => -10
  | tight => 3
  | perfect => 10
  | loose => 5
  | too_loose => -5
  end.

Definition calculateFitScore (analysis : FitAnalysis) : Z :=
  let score := statusScores (overall analysis) * 2 in
  let score := score + statusScores (status (chestFit analysis)) in
  let score :=
    match waistFit analysis with
    | Some w => score + statusScores (status w)
    | None => score
    end in
  match shoulderFit analysis with
  | Some s => score + statusScores (status s)
  | None => score
  end.

(** [overall !== 'too_tight' && overall !== 'too_loose'] *)
Definition notExtreme (s : FitStatus) : bool :=
  match s with
  | too_tight | too_loose => false
  | _ => true
  end.

(** The variables the scan loop of [recommendSize] updates. *)
Record Scan := {
  bestSize : SizeOption;
  bestAnalysis : FitAnalysis;
  bestScore : Z;
  alternatives : list Alternative
}.

(** One iteration of [for (const sizeOption of availableSizes)]. *)
Definition scanStep (bodyMeasurements : Body.t) (st : Scan) (sizeOption : SizeOption)
    : Scan :=
  let analysis := analyzeFit (measurements sizeOption) bodyMeasurements in
  let score := calculateFitScore analysis in
  if bestScore st <? score then
    {| bestSize := sizeOption;
       bestAnalysis := analysis;
       bestScore := score;
       alternatives :=
         if notExtreme (overall (bestAnalysis st))
         then alternatives st
                ++ [{| alt_size := size (bestSize st);
                       reason := ("Alternative: "
                                    ++ recommendation (bestAnalysis st))%string |}]
         else alternatives st |}
  else if (0 <? score) && notExtreme (overall analysis) then
    {| bestSize := bestSize st;
       bestAnalysis := bestAnalysis st;
       bestScore := bestScore st;
       alternatives :=
         alternatives st
           ++ [{| alt_size := size sizeOption; reason := recommendation analysis |}] |}
  else st.

(** [availableSizes[0]] is [undefined] on the empty array, and reading
    [.measurements] of it throws a [TypeError]. *)
Definition recommendSize (availableSizes : list SizeOption) (bodyMeasurements : Body.t)
    : JS.Outcome Recommendation :=
  match availableSizes with
  | [] => JS.Thrown JS.TypeError
  | first :: _ =>
      let bestAnalysis0 := analyzeFit (measurements first) bodyMeasurements in
      let st0 := {| bestSize := first;
                    bestAnalysis := bestAnalysis0;
                    bestScore := calculateFitScore bestAnalysis0;
                    alternatives := [] |} in
      let st := fold_left (scanStep bodyMeasurements) availableSizes st0 in
      JS.Returned {| recommendedSize := size (bestSize st);
                     analysis := bestAnalysis st;
                     alternativeSizes := firstn 2 (alternatives st) |}
  end.

End SizeRecommender.

(* ================================================================== *)
(** ** Meshes and the three.js interface *)
(* ================================================================== *)

Module Vector3.

Local Open Scope Q_scope.

Record t := mk { x : Q; y : Q; z : Q }.

Definition zero : t := mk 0 0 0.
Definition add (a b : t) : t := mk (x a + x b) (y a + y b) (z a + z b).
Definition sub (a b : t) : t := mk (x a - x b) (y a - y b) (z a - z b).
Definition multiplyScalar (a : t) (s : Q) : t := mk (x a * s) (y a * s) (z a * s).
Definition negate (a : t) : t := mk (- x a) (- y a) (- z a).

(** Componentwise [==]. *)
Definition equiv (a b : t) : Prop := x a == x b /\ y a == y b /\ z a == z b.

End Vector3.

(** [THREE.BufferGeometry]: the position attribute (always there), the normal
    attribute (may be missing) and the triangle index (missing on a
    non-indexed geometry; its length is a multiple of three, so it is kept
    as a list of triangles). *)
Record BufferGeometry := {
  position : list Vector3.t;
  normal : option (list Vector3.t);
  index : option (list (nat * nat * nat))
}.

(** [THREE.Mesh]: its geometry and what its (updated) world matrix does.
    [applyWorld] is [v.applyMatrix4(matrixWorld)], [applyNormalWorld] is
    [n.applyMatrix3(normalMatrix).normalize()], [directionWorld] is
    [n.transformDirection(matrixWorld).normalize()] and [applyWorldInverse]
    is [v.applyMatrix4(matrixWorld.clone().invert())].  Materials and shadow
    flags are not modelled. *)
Record Mesh := {
  geometry : BufferGeometry;
  applyWorld : Vector3.t -> Vector3.t;
  applyNormalWorld : Vector3.t -> Vector3.t;
  directionWorld : Vector3.t -> Vector3.t;
  applyWorldInverse : Vector3.t -> Vector3.t
}.

(** What the sources take from [Math] and from three.js.
    [intersectObject m origin direction] lists the distances of the hits of
    the ray on [m], nearest first ([Raycaster.intersectObject] sorts them),
    for a raycaster with the default [near] and [far]. *)
Record Three := {
  Math_sqrt : Q -> Q;
  Math_sin : Q -> Q;
  Math_cos : Q -> Q;
  Math_atan2 : Q -> Q -> Q;
  Math_PI : Q;
  computeVertexNormals : list Vector3.t -> option (list (nat * nat * nat)) -> list Vector3.t;
  intersectObject : Mesh -> Vector3.t -> Vector3.t -> list Q
}.

Section Buffers.

Local Open Scope Q_scope.

Fixpoint mapi_from {A B : Type} (f : nat -> A -> B) (i : nat) (l : list A) : list B :=
  match l with
  | [] => []
  | a :: rest => f i a :: mapi_from f (S i) rest
  end.

(** [for (let i = 0; i < positions.count; i++)] writing entry [i] only. *)
Definition mapi {A B : Type} (f : nat -> A -> B) (l : list A) : list B :=
  mapi_from f 0 l.

(** [v.fromBufferAttribute(attribute, i)] *)
Definition fromBufferAttribute (attribute : list Vector3.t) (i : nat) : Vector3.t :=
  nth i attribute Vector3.zero.

(** Reading [geometry.attributes.normal] inside a loop over the vertices:
    with no normal attribute the first read throws. *)
Definition normalAttribute (g : BufferGeometry) : JS.Outcome (list Vector3.t) :=
  match normal g, position g with
  | Some ns, _ => JS.Returned ns
  | None, [] => JS.Returned []
  | None, _ :: _ => JS.Thrown JS.TypeError
  end.

Definition setPosition (g : BufferGeometry) (ps : list Vector3.t) : BufferGeometry :=
  {| position := ps; normal := normal g; index := index g |}.

(** [geometry.computeVertexNormals()] *)
Definition withVertexNormals (env : Three) (g : BufferGeometry) : BufferGeometry :=
  {| position := position g;
     normal := Some (computeVertexNormals env (position g) (index g));
     index := index g |}.

(** Smallest and largest value of a coordinate; on no vertex at all the
    value is never read by the sources and is taken to be [0]. *)
Definition minOf (f : Vector3.t -> Q) (ps : list Vector3.t) : Q :=
  match ps with
  | [] => 0
  | p :: rest => fold_left (fun m q => Qmin m (f q)) rest (f p)
  end.

Definition maxOf (f : Vector3.t -> Q) (ps : list Vector3.t) : Q :=
  match ps with
  | [] => 0
  | p :: rest => fold_left (fun m q => Qmax m (f q)) rest (f p)
  end.

End Buffers.

(* ================================================================== *)
(** ** fabricPhysics.ts *)
(* ================================================================== *)

Inductive FabricType := light | medium | heavy.

Record PhysicsOptions := {
  fabricType : option FabricType;
  enableStretch : option bool;
  enableCollision : option bool;
  enableWeight : option bool;
  enableSeams : option bool;
  enableDynamicWrinkles : option bool
}.

Section FabricPhysics.

Variable env : Three.

Local Open Scope Q_scope.

(** The inward ray of a garment vertex against the avatar. *)
Definition inwardHits (avatarMesh : Mesh) (vertex normal : Vector3.t) : list Q :=
  intersectObject env avatarMesh vertex (Vector3.negate normal).

(** Body of the loop of [applyStretchZones]. *)
Definition stretchVertex (avatarMesh : Mesh) (bboxMinY height : Q)
    (vertex normal : Vector3.t) : Vector3.t :=
  match inwardHits avatarMesh vertex normal with
  | distanceToBody :: _ =>
      if JS.ltb distanceToBody 0.02 then
        let normalizedY := (Vector3.y vertex - bboxMinY) / height in
        let stretchFactor :=
          if JS.gtb normalizedY 0.5 && JS.ltb normalizedY 0.85 then 0.7
          else if JS.geb normalizedY 0.85 then 0.5
          else 1.0 in
        let pullAmount := distanceToBody * (1 - stretchFactor) in
        Vector3.sub vertex (Vector3.multiplyScalar normal pullAmount)
      else vertex
  | [] => vertex
  end.

Definition applyStretchZones (geometry : BufferGeometry) (avatarMesh : Mesh)
    : JS.Outcome BufferGeometry :=
  let bboxMinY := minOf Vector3.y (position geometry) in
  let height := maxOf Vector3.y (position geometry) - bboxMinY in
  normals <- normalAttribute geometry ;;
  let positions :=
    mapi (fun i vertex =>
            stretchVertex avatarMesh bboxMinY height vertex (fromBufferAttribute normals i))
         (position geometry) in
  JS.Returned (withVertexNormals env (setPosition geometry positions)).

(** Body of the loop of [applyCollisionResponse]: [Some] the pushed vertex
    when the vertex collides, [None] when it is left alone. *)
Definition collisionVertex (avatarMesh : Mesh) (minDistance : Q)
    (vertex normal : Vector3.t) : option Vector3.t :=
  match inwardHits avatarMesh vertex normal with
  | distance :: _ =>
      if JS.ltb distance minDistance then
        let pushDistance := minDistance - distance in
        let elasticFactor := 1.2 in
        let actualPush := pushDistance * elasticFactor in
        Some (Vector3.add vertex (Vector3.multiplyScalar normal actualPush))
      else None
  | [] => None
  end.

Definition applyCollisionResponse (geometry : BufferGeometry) (avatarMesh : Mesh)
    (minDistance : Q) : JS.Outcome BufferGeometry :=
  normals <- normalAttribute geometry ;;
  let pushed :=
    mapi (fun i vertex =>
            collisionVertex avatarMesh minDistance vertex (fromBufferAttribute normals i))
         (position geometry) in
  let positions :=
    mapi (fun i vertex =>
            match collisionVertex avatarMesh minDistance vertex
                    (fromBufferAttribute normals i) with
            | Some moved => moved
            | None => vertex
            end)
         (position geometry) in
  let collisionCount :=
    List.length (filter (fun p => match p with Some _ => true | None => false end) pushed) in
  let moved := setPosition geometry positions in
  JS.Returned (if (0 <? collisionCount)%nat then withVertexNormals env moved else moved).

Definition weightFactors (fabricType : FabricType) : Q :=
  match fabricType with
  | light => 0.008
  | medium => 0.015
  | heavy => 0.025
  end.

Definition weightVertex (weightFactor bboxMinY height : Q) (p : Vector3.t) : Vector3.t :=
  let y := Vector3.y p in
  let normalizedY := (y - bboxMinY) / height in
  let x := Vector3.x p in
  let z := Vector3.z p in
  let distanceFromCenter := Math_sqrt env (x * x + z * z) in
  let verticalWeight := (1 - normalizedY) * weightFactor in
  let lateralWeight := distanceFromCenter * 0.3 in
  let totalDrop := verticalWeight * (1 + lateralWeight) in
  Vector3.mk x (y - totalDrop) z.

Definition applyFabricWeight (geometry : BufferGeometry) (fabricType : FabricType)
    : BufferGeometry :=
  let bboxMinY := minOf Vector3.y (position geometry) in
  let height := maxOf Vector3.y (position geometry) - bboxMinY in
  let weightFactor := weightFactors fabricType in
  withVertexNormals env
    (setPosition geometry (map (weightVertex weightFactor bboxMinY height) (position geometry))).

(** Body of the loop of [applySeamTension].  The side-seam branch writes
    [x + pullX] from the [x] read at the top of the iteration. *)
Definition seamVertex (shoulderY : Q) (p : Vector3.t) : Vector3.t :=
  let seamTolerance := 0.05 in
  let x := Vector3.x p in
  let y := Vector3.y p in
  let z := Vector3.z p in
  let p1 :=
    if JS.ltb (Qabs (y - shoulderY)) seamTolerance then
      let pullFactor := 0.95 in
      Vector3.mk (x * pullFactor) y (z * pullFactor)
    else p in
  let angle := Math_atan2 env z x in
  if JS.ltb (Qabs (Qabs angle - Math_PI env / 2)) 0.3 then
    let inwardPull := 0.003 in
    let pullX := - JS.sign x * inwardPull in
    Vector3.mk (x + pullX) (Vector3.y p1) (Vector3.z p1)
  else p1.

Definition applySeamTension (geometry : BufferGeometry) : BufferGeometry :=
  let bboxMinY := minOf Vector3.y (position geometry) in
  let height := maxOf Vector3.y (position geometry) - bboxMinY in
  let shoulderY := bboxMinY + height * 0.82 in
  withVertexNormals env (setPosition geometry (map (seamVertex shoulderY) (position geometry))).

(** Body of the loop of [applyDynamicWrinkles]. *)
Definition wrinkleVertex (avatarMesh : Mesh) (intensity : Q)
    (vertex normal : Vector3.t) : Vector3.t :=
  match inwardHits avatarMesh vertex normal with
  | distanceToBody :: _ =>
      let wrinkleFactor :=
        if JS.ltb distanceToBody 0.03 then 1.0
        else if JS.ltb distanceToBody 0.06 then 0.5
        else 0 in
      if JS.gtb wrinkleFactor 0 then
        let wrinklePattern :=
          Math_sin env (Vector3.x vertex * 40 + Vector3.z vertex * 30)
          * Math_cos env (Vector3.y vertex * 35)
          * Math_sin env (Vector3.x vertex * 60) in
        let wrinkleDisplacement := wrinklePattern * intensity * wrinkleFactor in
        let perpX := - Vector3.z normal in
        let perpZ := Vector3.x normal in
        Vector3.mk (Vector3.x vertex + perpX * wrinkleDisplacement)
                   (Vector3.y vertex)
                   (Vector3.z vertex + perpZ * wrinkleDisplacement)
      else vertex
  | [] => vertex
  end.

Definition applyDynamicWrinkles (geometry : BufferGeometry) (avatarMesh : Mesh)
    (intensity : Q) : JS.Outcome BufferGeometry :=
  normals <- normalAttribute geometry ;;
  let positions :=
    mapi (fun i vertex =>
            wrinkleVertex avatarMesh intensity vertex (fromBufferAttribute normals i))
         (position geometry) in
  JS.Returned (withVertexNormals env (setPosition geometry positions)).

Definition flag (o : option bool) : bool :=
  match o with Some b => b | None => true end.

Definition applyRealisticFabricPhysics (geometry : BufferGeometry) (avatarMesh : Mesh)
    (options : PhysicsOptions) : JS.Outcome BufferGeometry :=
  let fabric := match fabricType options with Some f => f | None => medium end in
  g1 <- (if flag (enableStretch options)
         then applyStretchZones geometry avatarMesh else JS.Returned geometry) ;;
  let g2 := if flag (enableWeight options) then applyFabricWeight g1 fabric else g1 in
  let g3 := if flag (enableSeams options) then applySeamTension g2 else g2 in
  g4 <- (if flag (enableCollision options)
         then applyCollisionResponse g3 avatarMesh 0.015 else JS.Returned g3) ;;
  (if flag (enableDynamicWrinkles options)
   then applyDynamicWrinkles g4 avatarMesh 0.004 else JS.Returned g4).

End FabricPhysics.

(* ================================================================== *)
(** ** hybridGarmentFitting.ts *)
(* ================================================================== *)

Record HybridGarmentOptions := {
  opt_chestEase : option Q;
  opt_waistEase : option Q;
  opt_shoulderEase : option Q;
  garmentMeasurements : option Garment.t;
  bodyMeasurements : option Body.t;
  gravity : option bool;
  smoothing : option bool;
  wrinkles : option bool;
  (** whether an [onFitAnalysis] callback is supplied *)
  onFitAnalysis : bool
}.

(** [THREE.Group]: the geometries of the meshes added to it. *)
Definition Group := list BufferGeometry.

(** What a call of [createHybridTShirt] leaves behind: the avatar mesh as it
    is afterwards, the messages sent to [console.error], the analyses handed
    to the [onFitAnalysis] callback, and how the call ended. *)
Record HybridRun := {
  avatarAfter : Mesh;
  consoleError : list string;
  fitAnalysisCalls : list FitAnalysis;
  completion : JS.Outcome Group
}.

Section HybridGarmentFitting.

Variable env : Three.

Local Open Scope Q_scope.

(** [Set.add]: insertion order, no duplicate. *)
Definition setAdd (s : list nat) (b : nat) : list nat :=
  if existsb (Nat.eqb b) s then s else s ++ [b].

Fixpoint updateNth {A : Type} (l : list A) (i : nat) (a : A) : list A :=
  match l, i with
  | [], _ => []
  | _ :: rest, O => a :: rest
  | h :: rest, S j => h :: updateNth rest j a
  end.

(** [adjacency.get(a)!.add(b)]: the map has the keys [0 .. vertexCount-1],
    so it is kept as the list of its values; a missing key throws. *)
Definition addNeighbor (adjacency : list (list nat)) (a b : nat)
    : JS.Outcome (list (list nat)) :=
  match nth_error adjacency a with
  | Some s => JS.Returned (updateNth adjacency a (setAdd s b))
  | None => JS.Thrown JS.TypeError
  end.

Definition addTriangle (adjacency : list (list nat)) (t : nat * nat * nat)
    : JS.Outcome (list (list nat)) :=
  let '(a, b, c) := t in
  m1 <- addNeighbor adjacency a b ;;
  m2 <- addNeighbor m1 a c ;;
  m3 <- addNeighbor m2 b a ;;
  m4 <- addNeighbor m3 b c ;;
  m5 <- addNeighbor m4 c a ;;
  addNeighbor m5 c b.

Fixpoint addTriangles (adjacency : list (list nat)) (ts : list (nat * nat * nat))
    : JS.Outcome (list (list nat)) :=
  match ts with
  | [] => JS.Returned adjacency
  | t :: rest => m <- addTriangle adjacency t ;; addTriangles m rest
  end.

(** [buildAdjacencyMap]; the empty map of a non-indexed geometry is [[]]. *)
Definition buildAdjacencyMap (geometry : BufferGeometry) : JS.Outcome (list (list nat)) :=
  match index geometry with
  | None => JS.Returned []
  | Some ts => addTriangles (map (fun _ => []) (position geometry)) ts
  end.

Definition sumOver (f : Vector3.t -> Q) (temp : list Vector3.t) (neighbors : list nat) : Q :=
  fold_left (fun acc neighborIdx => acc + f (fromBufferAttribute temp neighborIdx))
            neighbors 0.

(** One vertex of one smoothing pass, from the snapshot [tempPositions]. *)
Definition smoothVertex (adjacency : list (list nat)) (lambda : Q)
    (tempPositions : list Vector3.t) (i : nat) (current : Vector3.t) : Vector3.t :=
  match nth_error adjacency i with
  | None | Some [] => current
  | Some neighbors =>
      let n := inject_Z (Z.of_nat (List.length neighbors)) in
      let avgX := sumOver Vector3.x tempPositions neighbors / n in
      let avgY := sumOver Vector3.y tempPositions neighbors / n in
      let avgZ := sumOver Vector3.z tempPositions neighbors / n in
      Vector3.mk (Vector3.x current + (avgX - Vector3.x current) * lambda)
                 (Vector3.y current + (avgY - Vector3.y current) * lambda)
                 (Vector3.z current + (avgZ - Vector3.z current) * lambda)
  end.

Definition smoothPass (adjacency : list (list nat)) (lambda : Q)
    (positions : list Vector3.t) : list Vector3.t :=
  mapi (smoothVertex adjacency lambda positions) positions.

Definition applyLaplacianSmoothing (geometry : BufferGeometry) (iterations : nat)
    (lambda : Q) : JS.Outcome BufferGeometry :=
  adjacency <- buildAdjacencyMap geometry ;;
  JS.Returned
    (setPosition geometry
       (Nat.iter iterations (smoothPass adjacency lambda) (position geometry))).

Definition applyGravityDrape (geometry : BufferGeometry) (strength : Q) : BufferGeometry :=
  let bboxMinY := minOf Vector3.y (position geometry) in
  let height := maxOf Vector3.y (position geometry) - bboxMinY in
  setPosition geometry
    (map (fun p =>
            let y := Vector3.y p in
            let normalizedY := (y - bboxMinY) / height in
            let gravityWeight := 1 - normalizedY in
            Vector3.mk (Vector3.x p) (y - strength * gravityWeight * 0.05) (Vector3.z p))
         (position geometry)).

Definition addSubtleWrinkles (geometry : BufferGeometry) (intensity : Q)
    : JS.Outcome BufferGeometry :=
  normals <- normalAttribute geometry ;;
  JS.Returned
    (setPosition geometry
       (mapi (fun i p =>
                let n := fromBufferAttribute normals i in
                let noise :=
                  (Math_sin env (Vector3.x p * 30) * Math_cos env (Vector3.z p * 30)
                   + Math_sin env (Vector3.y p * 20)) * 0.5 in
                let displacement := noise * intensity in
                Vector3.add p (Vector3.multiplyScalar n displacement))
             (position geometry))).

(** *** The region of the shirt *)

(** The numbers [createHybridTShirt] derives from the bounding box of the
    avatar in world space. *)
Record Frame := {
  minY : Q;
  bodyHeight : Q;
  bodyWidth : Q;
  topY : Q;
  bottomY : Q;
  neckTopY : Q;
  neckRadius : Q;
  sleeveEndY : Q
}.

Definition frameOf (world : list Vector3.t) (garment : option Garment.t) : Frame :=
  let minY := minOf Vector3.y world in
  let maxY := maxOf Vector3.y world in
  let minX := minOf Vector3.x world in
  let maxX := maxOf Vector3.x world in
  let bodyHeight := maxY - minY in
  let bodyWidth := maxX - minX in
  let sleeveLength :=
    JS.nullish (match garment with Some g => Garment.sleeveLength g | None => None end) 20 in
  let sleeveLengthMeters := sleeveLength / 100 in
  let shoulderY := minY + bodyHeight * 0.82 in
  {| minY := minY;
     bodyHeight := bodyHeight;
     bodyWidth := bodyWidth;
     topY := minY + bodyHeight * 0.85;
     bottomY := minY + bodyHeight * 0.50;
     neckTopY := minY + bodyHeight * 0.92;
     neckRadius := 0.08;
     sleeveEndY := shoulderY - sleeveLengthMeters |}.

(** Body of the marking loop: is the world-space vertex in the shirt? *)
Definition inRegion (f : Frame) (tempVertex : Vector3.t) : bool :=
  let vx := Vector3.x tempVertex in
  let vy := Vector3.y tempVertex in
  let vz := Vector3.z tempVertex in
  let isInYRange := JS.geb vy (bottomY f) && JS.leb vy (topY f) in
  let distFromCenter := Math_sqrt env (vx * vx + vz * vz) in
  let isNeck := JS.geb vy (neckTopY f) && JS.ltb distFromCenter (neckRadius f) in
  let normalizedY := (vy - minY f) / bodyHeight f in
  let isAtShoulderHeight := JS.geb normalizedY 0.70 && JS.leb normalizedY 0.90 in
  let distanceFromBodyCenter := Qabs vx in
  let torsoHalfWidth := bodyWidth f * 0.15 in
  let isOnArm := isAtShoulderHeight && JS.gtb distanceFromBodyCenter torsoHalfWidth in
  let isBelowSleeveEnd := JS.ltb vy (sleeveEndY f) in
  let isSleeveCutoff := isOnArm && isBelowSleeveEnd in
  isInYRange && negb isNeck && negb isSleeveCutoff.

(** *** The fabric offset *)

(** The blend of the eases (cm) at height [normalizedY] of the shirt, in metres. *)
Definition blendedOffset (e : Ease) (normalizedY : Q) : Q :=
  if JS.gtb normalizedY 0.8 then shoulderEase e / 100
  else if JS.gtb normalizedY 0.5 then
    let t := (normalizedY - 0.5) / 0.3 in
    let chestOffset := chestEase e / 100 in
    let shoulderOffset := shoulderEase e / 100 in
    chestOffset + (shoulderOffset - chestOffset) * t
  else
    let t := normalizedY / 0.5 in
    let waistOffset := waistEase e / 100 in
    let chestOffset := chestEase e / 100 in
    waistOffset + (chestOffset - waistOffset) * t.

Definition minClearance : Q := 0.003.
Definition maxClearance : Q := 0.05.

Definition clampOffset (fabricOffset : Q) : Q :=
  if JS.ltb fabricOffset 0 then minClearance
  else if JS.ltb fabricOffset minClearance then minClearance
  else if JS.gtb fabricOffset maxClearance then maxClearance
  else fabricOffset.

Definition boxinessMultiplier (radialPosition : Q) : Q := 0.6 + radialPosition * 0.4.

Definition adjustOffset (actualOffset radialPosition : Q) : Q :=
  if JS.gtb actualOffset 0.01 then
    Qmax (actualOffset * boxinessMultiplier radialPosition) minClearance
  else actualOffset.

Definition radialPositionOf (f : Frame) (vertex : Vector3.t) : Q :=
  let distanceFromCenter :=
    Math_sqrt env (Vector3.x vertex * Vector3.x vertex + Vector3.z vertex * Vector3.z vertex) in
  let maxRadius := bodyWidth f / 2 in
  Qmin (distanceFromCenter / maxRadius) 1.

(** The offset by which a kept world-space vertex is inflated. *)
Definition adjustedOffsetOf (f : Frame) (e : Ease) (vertex : Vector3.t) : Q :=
  let normalizedY := (Vector3.y vertex - bottomY f) / (topY f - bottomY f) in
  adjustOffset (clampOffset (blendedOffset e normalizedY)) (radialPositionOf f vertex).

Definition inflateVertex (f : Frame) (e : Ease) (vertex normal : Vector3.t) : Vector3.t :=
  let adjustedOffset := adjustedOffsetOf f e vertex in
  Vector3.mk (Vector3.x vertex + Vector3.x normal * adjustedOffset)
             (Vector3.y vertex + Vector3.y normal * adjustedOffset)
             (Vector3.z vertex + Vector3.z normal * adjustedOffset).

(** *** Building the shirt geometry *)

(** [oldToNewVertexMap]: entry [i] is the new index of old vertex [i]. *)
Fixpoint oldToNewFrom (vertexInRegion : list bool) (newVertexCount : nat)
    : list (option nat) :=
  match vertexInRegion with
  | [] => []
  | true :: rest => Some newVertexCount :: oldToNewFrom rest (S newVertexCount)
  | false :: rest => None :: oldToNewFrom rest newVertexCount
  end.

Definition oldToNewVertexMap (vertexInRegion : list bool) : list (option nat) :=
  oldToNewFrom vertexInRegion 0.

Definition mapGet (m : list (option nat)) (a : nat) : option nat :=
  match nth_error m a with Some r => r | None => None end.

(** The triangles all of whose corners are kept, renumbered. *)
Definition newIndices (m : list (option nat)) (ts : list (nat * nat * nat))
    : list (nat * nat * nat) :=
  flat_map (fun '(a, b, c) =>
              match mapGet m a, mapGet m b, mapGet m c with
              | Some a', Some b', Some c' => [(a', b', c')]
              | _, _, _ => []
              end) ts.

(** The second loop over the avatar vertices: every marked vertex gives a
    new position (inflated, world space) and a new normal (world space). *)
Fixpoint buildVertices (avatarMesh : Mesh) (f : Frame) (e : Ease)
    (normals : list Vector3.t) (i : nat)
    (oldPositions : list Vector3.t) (vertexInRegion : list bool)
    : list (Vector3.t * Vector3.t) :=
  match oldPositions, vertexInRegion with
  | p :: ps, keep :: flags =>
      let rest := buildVertices avatarMesh f e normals (S i) ps flags in
      if keep then
        let vertex := applyWorld avatarMesh p in
        let normal := applyNormalWorld avatarMesh (fromBufferAttribute normals i) in
        (inflateVertex f e vertex normal, normal) :: rest
      else rest
  | _, _ => []
  end.

Definition shirtGeometry (avatarMesh : Mesh) (f : Frame) (e : Ease)
    (normals : list Vector3.t) (oldIndex : list (nat * nat * nat)) : BufferGeometry :=
  let oldPositions := position (geometry avatarMesh) in
  let vertexInRegion := map (fun p => inRegion f (applyWorld avatarMesh p)) oldPositions in
  let built := buildVertices avatarMesh f e normals 0 oldPositions vertexInRegion in
  {| position := map fst built;
     normal := Some (map snd built);
     index := Some (newIndices (oldToNewVertexMap vertexInRegion) oldIndex) |}.

(** *** The passes after the build *)

Definition hybridPhysics : PhysicsOptions :=
  {| fabricType := Some medium;
     enableStretch := Some true;
     enableCollision := Some true;
     enableWeight := Some true;
     enableSeams := Some true;
     enableDynamicWrinkles := Some true |}.

Definition drapeShirt (options : HybridGarmentOptions) (avatarMesh : Mesh)
    (shirt : BufferGeometry) : JS.Outcome BufferGeometry :=
  g1 <- (if flag (smoothing options)
         then applyLaplacianSmoothing shirt 3 0.4 else JS.Returned shirt) ;;
  let g2 := if flag (gravity options) then applyGravityDrape g1 0.01 else g1 in
  g3 <- (if flag (wrinkles options) then addSubtleWrinkles g2 0.002 else JS.Returned g2) ;;
  g4 <- applyRealisticFabricPhysics env g3 avatarMesh hybridPhysics ;;
  JS.Returned (withVertexNormals env g4).

Definition easeOf (options : HybridGarmentOptions) : Ease :=
  match garmentMeasurements options, bodyMeasurements options with
  | Some g, Some b => calculateActualEase g b
  | _, _ =>
      {| chestEase := JS.nullish (opt_chestEase options) 8;
         waistEase := JS.nullish (opt_waistEase options) 6;
         shoulderEase := JS.nullish (opt_shoulderEase options) 3 |}
  end.

Definition createHybridTShirt (avatarMesh : Mesh) (options : HybridGarmentOptions)
    : HybridRun :=
  let e := easeOf options in
  let calls :=
    match garmentMeasurements options, bodyMeasurements options with
    | Some g, Some b => if onFitAnalysis options then [analyzeFit g b] else []
    | _, _ => []
    end in
  (* if (!oldNormals) geometry.computeVertexNormals() *)
  let bodyGeometry :=
    match normal (geometry avatarMesh) with
    | Some _ => geometry avatarMesh
    | None => withVertexNormals env (geometry avatarMesh)
    end in
  let avatar :=
    {| geometry := bodyGeometry;
       applyWorld := applyWorld avatarMesh;
       applyNormalWorld := applyNormalWorld avatarMesh;
       directionWorld := directionWorld avatarMesh;
       applyWorldInverse := applyWorldInverse avatarMesh |} in
  match index bodyGeometry with
  | None =>
      {| avatarAfter := avatar;
         consoleError := ["[HybridGarment] Geometry must be indexed"%string];
         fitAnalysisCalls := calls;
         completion := JS.Returned [] |}
  | Some oldIndex =>
      let world := map (applyWorld avatar) (position bodyGeometry) in
      let f := frameOf world (garmentMeasurements options) in
      let normals := match normal bodyGeometry with Some ns => ns | None => [] end in
      let shirt := shirtGeometry avatar f e normals oldIndex in
      {| avatarAfter := avatar;
         consoleError := [];
         fitAnalysisCalls := calls;
         completion := g <- drapeShirt options avatar shirt ;; JS.Returned [g] |}
  end.

End HybridGarmentFitting.

(* ================================================================== *)
(** ** The passes of the pipeline, in order *)
(* ================================================================== *)

(** The passes a shirt geometry goes through, by name. *)
Inductive Stage :=
| LaplacianSmoothing
| GravityDrape
| SubtleWrinkles
| StretchZones
| FabricWeight
| SeamTension
| CollisionResponse
| DynamicWrinkles
| VertexNormals.

Section Stages.

Variable env : Three.

Local Open Scope Q_scope.

(** Each pass with the arguments [createHybridTShirt] and
    [applyRealisticFabricPhysics] give it. *)
Definition runStage (avatarMesh : Mesh) (s : Stage) (g : BufferGeometry)
    : JS.Outcome BufferGeometry :=
  match s with
  | LaplacianSmoothing => applyLaplacianSmoothing g 3 0.4
  | GravityDrape => JS.Returned (applyGravityDrape g 0.01)
  | SubtleWrinkles => addSubtleWrinkles env g 0.002
  | StretchZones => applyStretchZones env g avatarMesh
  | FabricWeight => JS.Returned (applyFabricWeight env g medium)
  | SeamTension => JS.Returned (applySeamTension env g)
  | CollisionResponse => applyCollisionResponse env g avatarMesh 0.015
  | DynamicWrinkles => applyDynamicWrinkles env g avatarMesh 0.004
  | VertexNormals => JS.Returned (withVertexNormals env g)
  end.

Fixpoint runStages (avatarMesh : Mesh) (stages : list Stage) (g : BufferGeometry)
    : JS.Outcome BufferGeometry :=
  match stages with
  | [] => JS.Returned g
  | s :: rest => g1 <- runStage avatarMesh s g ;; runStages avatarMesh rest g1
  end.

(** The order in which the sources run the passes. *)
Definition codeOrder (options : HybridGarmentOptions) : list Stage :=
  (if flag (smoothing options) then [LaplacianSmoothing] else [])
    ++ (if flag (gravity options) then [GravityDrape] else [])
    ++ (if flag (wrinkles options) then [SubtleWrinkles] else [])
    ++ [StretchZones; FabricWeight; SeamTension; CollisionResponse; DynamicWrinkles;
        VertexNormals].

(** The order the design document gives: the four draping passes, then the
    collision resolver, the smoother last. *)
Definition documentedOrder : list Stage :=
  [StretchZones; FabricWeight; SeamTension; DynamicWrinkles; CollisionResponse;
   LaplacianSmoothing].

(** The shirt geometry [createHybridTShirt] builds before any pass runs. *)
Definition builtShirt (avatarMesh : Mesh) (options : HybridGarmentOptions)
    (oldIndex : list (nat * nat * nat)) : BufferGeometry :=
  let world := map (applyWorld avatarMesh) (position (geometry avatarMesh)) in
  let f := frameOf world (garmentMeasurements options) in
  let normals := match normal (geometry avatarMesh) with Some ns => ns | None => [] end in
  shirtGeometry env avatarMesh f (easeOf options) normals oldIndex.

End Stages.

(* ================================================================== *)
(** ** garmentFitting.ts *)
(* ================================================================== *)

(** [Partial<FittingOptions>] *)
Record FittingOptions := {
  fabricOffset : option Q;
  smoothingIterations : option nat;
  collisionSamples : option nat
}.

(** What a call of [fitGarmentToBody] leaves behind: the geometry of the
    garment mesh and the messages sent to [console.error]. *)
Record FitRun := {
  garmentAfter : BufferGeometry;
  fitConsoleError : list string;
  fitCompletion : JS.Outcome unit
}.

Section GarmentFitting.

Variable env : Three.

Local Open Scope Q_scope.

(** Hits no farther than [raycaster.far]. *)
Definition hitsWithin (far : Q) (hits : list Q) : list Q :=
  filter (fun d => JS.leb d far) hits.

(** Body of the loop of [resolveCollisions]. *)
Definition resolveVertex (garmentMesh bodyMesh : Mesh) (offset : Q)
    (vertex normal : Vector3.t) : Vector3.t :=
  let worldVertex := applyWorld garmentMesh vertex in
  let worldNormal := directionWorld garmentMesh normal in
  match hitsWithin (offset * 2)
          (intersectObject env bodyMesh worldVertex (Vector3.negate worldNormal)) with
  | penetrationDepth :: _ =>
      if JS.ltb penetrationDepth offset then
        let pushDistance := offset - penetrationDepth in
        applyWorldInverse garmentMesh
          (Vector3.add worldVertex (Vector3.multiplyScalar worldNormal pushDistance))
      else vertex
  | [] => vertex
  end.

(** [resolveCollisions]: the geometry afterwards and what was logged. *)
Definition resolveCollisions (garmentMesh bodyMesh : Mesh) (offset : Q)
    : BufferGeometry * list string :=
  let g := geometry garmentMesh in
  match normal g with
  | None => (g, ["[GarmentFitting] Missing position or normal attributes"%string])
  | Some normals =>
      (setPosition g
         (mapi (fun i vertex =>
                  resolveVertex garmentMesh bodyMesh offset vertex
                                (fromBufferAttribute normals i))
               (position g)),
       [])
  end.

(** The pass of [laplacianSmoothing]: [avg.divideScalar(n)] then
    [current.lerp(avg, lambda)]. *)
Definition lerpVertex (neighbors : list (list nat)) (lambda : Q)
    (positions : list Vector3.t) (i : nat) (current : Vector3.t) : Vector3.t :=
  match nth_error neighbors i with
  | None | Some [] => current
  | Some neighborIndices =>
      let n := inject_Z (Z.of_nat (List.length neighborIndices)) in
      let avg :=
        Vector3.multiplyScalar
          (Vector3.mk (sumOver Vector3.x positions neighborIndices)
                      (sumOver Vector3.y positions neighborIndices)
                      (sumOver Vector3.z positions neighborIndices))
          (1 / n) in
      Vector3.add current (Vector3.multiplyScalar (Vector3.sub avg current) lambda)
  end.

Definition buildNeighborMap (geometry : BufferGeometry) : JS.Outcome (list (list nat)) :=
  match index geometry with
  | None => JS.Returned []
  | Some ts => addTriangles (map (fun _ => []) (position geometry)) ts
  end.

(** [laplacianSmoothing]: geometry afterwards, log, and how the call ended. *)
Definition laplacianSmoothing (g : BufferGeometry) (iterations : nat) (lambda : Q)
    : FitRun :=
  match index g with
  | None =>
      {| garmentAfter := g;
         fitConsoleError := ["[GarmentFitting] Missing position or index attributes"%string];
         fitCompletion := JS.Returned tt |}
  | Some _ =>
      match buildNeighborMap g with
      | JS.Thrown e =>
          {| garmentAfter := g; fitConsoleError := []; fitCompletion := JS.Thrown e |}
      | JS.Returned neighbors =>
          {| garmentAfter :=
               setPosition g
                 (Nat.iter iterations
                    (fun ps => mapi (lerpVertex neighbors lambda ps) ps) (position g));
             fitConsoleError := [];
             fitCompletion := JS.Returned tt |}
      end
  end.

Definition DEFAULT_fabricOffset : Q := 0.005.
Definition DEFAULT_smoothingIterations : nat := 3.

Definition fitGarmentToBody (garmentMesh bodyMesh : Mesh) (options : FittingOptions)
    : FitRun :=
  let offset := JS.nullish (fabricOffset options) DEFAULT_fabricOffset in
  let iterations :=
    match smoothingIterations options with
    | Some n => n
    | None => DEFAULT_smoothingIterations
    end in
  let '(g1, log1) := resolveCollisions garmentMesh bodyMesh offset in
  let run := laplacianSmoothing g1 iterations 0.5 in
  match fitCompletion run with
  | JS.Thrown e =>
      {| garmentAfter := garmentAfter run;
         fitConsoleError := log1 ++ fitConsoleError run;
         fitCompletion := JS.Thrown e |}
  | JS.Returned _ =>
      {| garmentAfter := withVertexNormals env (garmentAfter run);
         fitConsoleError := log1 ++ fitConsoleError run;
         fitCompletion := JS.Returned tt |}
  end.

(** [v.normalize()]: [divideScalar(length() || 1)], and [divideScalar(s)] is
    [multiplyScalar(1 / s)]. *)
Definition normalize (v : Vector3.t) : Vector3.t :=
  let length :=
    Math_sqrt env (Vector3.x v * Vector3.x v + Vector3.y v * Vector3.y v
                   + Vector3.z v * Vector3.z v) in
  let divisor := if Qeq_bool length 0 then 1 else length in
  Vector3.multiplyScalar v (1 / divisor).

(** [for (let i = 0; i < count; i += 10)]: the entries the loop visits,
    [skip] entries from now. *)
Fixpoint sampleFrom {A : Type} (skip : nat) (l : list A) : list A :=
  match l with
  | [] => []
  | a :: rest =>
      match skip with
      | O => a :: sampleFrom 9 rest
      | S s => sampleFrom s rest
      end
  end.

(** Body of the loop of [hasCollisions]: whether it returns [true] at this
    vertex. *)
Definition collidesAt (garmentMesh bodyMesh : Mesh) (tolerance : Q) (v : Vector3.t) : bool :=
  let vertex := applyWorld garmentMesh v in
  let direction := normalize (Vector3.sub Vector3.zero vertex) in
  match hitsWithin 0.1 (intersectObject env bodyMesh vertex direction) with
  | nearest :: _ => JS.ltb nearest tolerance
  | [] => false
  end.

Definition hasCollisions (garmentMesh bodyMesh : Mesh) (tolerance : option Q) : bool :=
  existsb (collidesAt garmentMesh bodyMesh (JS.nullish tolerance 0.001))
          (sampleFrom 0 (position (geometry garmentMesh))).

End GarmentFitting.

(* ================================================================== *)
(** ** A rational three.js, to run the sources on concrete meshes *)
(* ================================================================== *)

(** The functions of [Math] and of three.js that the sources call, worked
    out on rationals.  Arguments are first cut to fifteen decimals and
    results to twelve (a double carries fifteen to sixteen significant
    digits): square root, sine, cosine and arctangent by their series,
    vertex normals as [BufferGeometry.computeVertexNormals] accumulates
    them, and ray casting as [Mesh.raycast] does it for a front-sided
    material ([Ray.intersectTriangle] with back-face culling). *)
Module Rational3.

Local Open Scope Q_scope.

Definition roundTo (digits : positive) (q : Q) : Q :=
  Qred (Qfloor (q * inject_Z (Zpos (10 ^ digits)) + (1 # 2)) # (10 ^ digits)).

(** A number cut to fifteen decimals.  Of a long numerator and denominator
    only the leading 96 bits of the denominator are kept (and the numerator
    is shortened by as many bits) before the quotient is taken. *)
Definition snap (q : Q) : Q :=
  let k := (Z.log2 (Zpos (Qden q)) - 96)%Z in
  if (0 <? k)%Z
  then roundTo 15 (Z.shiftr (Qnum q) k # Z.to_pos (Z.shiftr (Zpos (Qden q)) k))
  else roundTo 15 q.

Definition snapV (a : Vector3.t) : Vector3.t :=
  Vector3.mk (snap (Vector3.x a)) (snap (Vector3.y a)) (snap (Vector3.z a)).

Definition sqrtQ (q : Q) : Q :=
  Qred (Z.sqrt (Qfloor (q * inject_Z (Zpos (10 ^ 24)))) # (10 ^ 12)).

Definition sqrt (q : Q) : Q := sqrtQ (snap q).

Definition PI : Q := 3.141592653589793.

(** [1 - r2/(k(k+1)) (1 - r2/((k+2)(k+3)) (1 - ...))]: the series of the
    sine over [r] (from [k = 2]) and of the cosine (from [k = 1]). *)
Fixpoint sinSeries (n : nat) (k : Z) (r2 : Q) : Q :=
  match n with
  | O => 1
  | S m => 1 - r2 / inject_Z (k * (k + 1)) * sinSeries m (k + 2) r2
  end.

(** The argument brought into [-PI, PI). *)
Definition reduce (a : Q) : Q :=
  a - inject_Z (Qfloor ((a + PI) / (2 * PI))) * (2 * PI).

Definition sin (a : Q) : Q :=
  let r := reduce (snap a) in
  roundTo 12 (r * sinSeries 12 2 (r * r)).

Definition cos (a : Q) : Q :=
  let r := reduce (snap a) in
  roundTo 12 (sinSeries 12 1 (r * r)).

(** [1/k - t2 (1/(k+2) - t2 (...))]: the series of the arctangent over [t]. *)
Fixpoint atanSeries (n : nat) (k : Z) (t2 : Q) : Q :=
  match n with
  | O => 1 / inject_Z k
  | S m => 1 / inject_Z k - t2 * atanSeries m (k + 2) t2
  end.

(** [tan (a/2)] from [tan a]. *)
Definition halve (t : Q) : Q := t / (1 + sqrtQ (1 + t * t)).

(** Arctangent of [t] with [-1 <= t <= 1]. *)
Definition atanUnit (t : Q) : Q :=
  let u := snap (halve (snap (halve t))) in
  roundTo 12 (4 * (u * atanSeries 12 1 (u * u))).

Definition atan (t : Q) : Q :=
  if JS.leb (Qabs t) 1 then atanUnit t
  else JS.sign t * (PI / 2) - atanUnit (1 / t).

Definition atan2 (b a : Q) : Q :=
  let b := snap b in
  let a := snap a in
  if JS.gtb a 0 then atan (snap (b / a))
  else if JS.ltb a 0 then
    (if JS.geb b 0 then atan (snap (b / a)) + PI else atan (snap (b / a)) - PI)
  else if JS.gtb b 0 then PI / 2
  else if JS.ltb b 0 then - (PI / 2)
  else 0.

Definition dot (a b : Vector3.t) : Q :=
  Vector3.x a * Vector3.x b + Vector3.y a * Vector3.y b + Vector3.z a * Vector3.z b.

Definition cross (a b : Vector3.t) : Vector3.t :=
  Vector3.mk (Vector3.y a * Vector3.z b - Vector3.z a * Vector3.y b)
             (Vector3.z a * Vector3.x b - Vector3.x a * Vector3.z b)
             (Vector3.x a * Vector3.y b - Vector3.y a * Vector3.x b).

Definition length (a : Vector3.t) : Q := sqrtQ (dot a a).

(** [v.normalize()]: [v.divideScalar(v.length() || 1)] *)
Definition normalize (a : Vector3.t) : Vector3.t :=
  let a := snapV a in
  let l := length a in
  let n := Vector3.multiplyScalar a (1 / (if Qeq_bool l 0 then 1 else l)) in
  Vector3.mk (roundTo 12 (Vector3.x n)) (roundTo 12 (Vector3.y n)) (roundTo 12 (Vector3.z n)).

Definition addAt (ns : list Vector3.t) (i : nat) (v : Vector3.t) : list Vector3.t :=
  match nth_error ns i with
  | Some n => updateNth ns i (Vector3.add n v)
  | None => ns
  end.

(** Face normals of an indexed geometry added up per vertex. *)
Definition accumulate (ps : list Vector3.t) (ns : list Vector3.t) (t : nat * nat * nat)
    : list Vector3.t :=
  let '(vA, vB, vC) := t in
  let pA := fromBufferAttribute ps vA in
  let pB := fromBufferAttribute ps vB in
  let pC := fromBufferAttribute ps vC in
  let cb := cross (Vector3.sub pC pB) (Vector3.sub pA pB) in
  addAt (addAt (addAt ns vA cb) vB cb) vC cb.

(** Face normals of a non-indexed geometry: three vertices per face. *)
Fixpoint faceNormals (ps : list Vector3.t) : list Vector3.t :=
  match ps with
  | pA :: pB :: pC :: rest =>
      let cb := cross (Vector3.sub pC pB) (Vector3.sub pA pB) in
      cb :: cb :: cb :: faceNormals rest
  | _ => map (fun _ => Vector3.zero) ps
  end.

Definition vertexNormals (positions : list Vector3.t)
    (index : option (list (nat * nat * nat))) : list Vector3.t :=
  let ps := map snapV positions in
  match index with
  | Some ts =>
      map normalize (fold_left (accumulate ps) ts (map (fun _ => Vector3.zero) ps))
  | None => map normalize (faceNormals ps)
  end.

(** [ray.intersectTriangle(a, b, c, true)]: the hit point, if any. *)
Definition intersectTriangle (origin direction a b c : Vector3.t) : option Vector3.t :=
  let edge1 := Vector3.sub b a in
  let edge2 := Vector3.sub c a in
  let normal := cross edge1 edge2 in
  let DdN := dot direction normal in
  if JS.gtb DdN 0 then None
  else if JS.ltb DdN 0 then
    let sign := -1 in
    let DdN := - DdN in
    let diff := Vector3.sub origin a in
    let DdQxE2 := sign * dot direction (cross diff edge2) in
    if JS.ltb DdQxE2 0 then None else
    let DdE1xQ := sign * dot direction (cross edge1 diff) in
    if JS.ltb DdE1xQ 0 then None else
    if JS.gtb (DdQxE2 + DdE1xQ) DdN then None else
    let QdN := - sign * dot diff normal in
    if JS.ltb QdN 0 then None else
    Some (Vector3.add origin (Vector3.multiplyScalar direction (QdN / DdN)))
  else None.

Fixpoint insertSorted (d : Q) (ds : list Q) : list Q :=
  match ds with
  | [] => [d]
  | h :: rest => if JS.leb d h then d :: ds else h :: insertSorted d rest
  end.

Definition triangles (g : BufferGeometry) : list (nat * nat * nat) :=
  match index g with
  | Some ts => ts
  | None => map (fun k => (3 * k, 3 * k + 1, 3 * k + 2)%nat)
                (seq 0 (List.length (position g) / 3))
  end.

(** [raycaster.intersectObject(mesh, true)] for a mesh without children:
    the distances from the origin to the hits, ascending. *)
Definition raycast (m : Mesh) (origin direction : Vector3.t) : list Q :=
  let origin := snapV origin in
  let direction := snapV direction in
  let ps := map (fun p => snapV (applyWorld m p)) (position (geometry m)) in
  fold_right
    (fun '(a, b, c) hits =>
       match intersectTriangle origin direction
               (fromBufferAttribute ps a) (fromBufferAttribute ps b)
               (fromBufferAttribute ps c) with
       | Some point => insertSorted (length (snapV (Vector3.sub origin point))) hits
       | None => hits
       end)
    [] (triangles (geometry m)).

Definition three : Three :=
  {| Math_sqrt := sqrt;
     Math_sin := sin;
     Math_cos := cos;
     Math_atan2 := atan2;
     Math_PI := PI;
     computeVertexNormals := vertexNormals;
     intersectObject := raycast |}.

(** A mesh that sits in the world untransformed. *)
Definition meshOf (g : BufferGeometry) : Mesh :=
  {| geometry := g;
     applyWorld := fun v => v;
     applyNormalWorld := normalize;
     directionWorld := normalize;
     applyWorldInverse := fun v => v |}.

End Rational3.

(* ================================================================== *)
(** ** Scenes used in the examples *)
(* ================================================================== *)

Module Scenes.

Local Open Scope Q_scope.

(** The size chart and the body of [demonstrateMultipleSizes]. *)
Definition chart (c w l s : Q) : Garment.t :=
  Garment.mk c (Some w) l (Some s) None None None None.

Definition availableSizes : list SizeOption :=
  [ {| size := "S"; measurements := chart 96 88 68 44 |};
    {| size := "M"; measurements := chart 102 94 70 46 |};
    {| size := "L"; measurements := chart 108 100 72 48 |};
    {| size := "XL"; measurements := chart 114 106 74 50 |} ].

Definition userBody : Body.t := Body.mk 95 80 None 45 (Some 68).

(** A shirt of the right chest that is far too short for the torso. *)
Definition cropped : Garment.t := Garment.mk 102 None 50 None None None None None.

(** The chart with the best size in front. *)
Definition sizeM : SizeOption := {| size := "M"; measurements := chart 102 94 70 46 |}.

Definition otherSizes : list SizeOption :=
  [ {| size := "S"; measurements := chart 96 88 68 44 |};
    {| size := "L"; measurements := chart 108 100 72 48 |};
    {| size := "XL"; measurements := chart 114 106 74 50 |} ].

(** A body 1.7 m tall and 0.5 m wide standing at the origin: a wall in the
    plane [z = 0] that faces [+z], with a small triangle of the wall in the
    band of the shirt. *)
Definition up : Vector3.t := Vector3.mk 0 0 1.

Definition wall (a b c : Vector3.t) : BufferGeometry :=
  {| position := [Vector3.mk (-0.25) 0 0; Vector3.mk 0.25 0 0;
                  Vector3.mk 0.25 1.7 0; Vector3.mk (-0.25) 1.7 0; a; b; c];
     normal := Some [up; up; up; up; up; up; up];
     index := Some [(0, 1, 2); (0, 2, 3); (4, 5, 6)]%nat |}.

Definition wallFrame : Frame :=
  frameOf (position (wall Vector3.zero Vector3.zero Vector3.zero)) None.

(** Manual eases, all the same, and the three optional passes on or off. *)
Definition manual (ease : Q) (smooth drape wrinkle : bool) : HybridGarmentOptions :=
  {| opt_chestEase := Some ease;
     opt_waistEase := Some ease;
     opt_shoulderEase := Some ease;
     garmentMeasurements := None;
     bodyMeasurements := None;
     gravity := Some drape;
     smoothing := Some smooth;
     wrinkles := Some wrinkle;
     onFitAnalysis := false |}.

(** A garment three centimetres smaller than the body all round. *)
Definition smaller : Ease := {| chestEase := -3; waistEase := -3; shoulderEase := -3 |}.

(** The wall as a mesh, and a one-vertex garment a millimetre in front of it. *)
Definition wallMesh : Mesh := Rational3.meshOf (wall Vector3.zero Vector3.zero Vector3.zero).

Definition nearWallVertex : Vector3.t := Vector3.mk 0.1 1.0 0.001.

Definition nearWall : BufferGeometry :=
  {| position := [nearWallVertex]; normal := Some [up]; index := None |}.

(** The wall with a thin triangle (a millimetre wide, four high) in the band
    of the shirt. *)
Definition sliverMesh : Mesh :=
  Rational3.meshOf
    (wall (Vector3.mk 0.1 1.0 0) (Vector3.mk 0.101 1.002 0) (Vector3.mk 0.1 1.004 0)).

(** The wall with a triangle of a centimetre at chest height. *)
Definition chestIndex : list (nat * nat * nat) := [(0, 1, 2); (0, 2, 3); (4, 5, 6)]%nat.

Definition chestMesh : Mesh :=
  Rational3.meshOf
    (wall (Vector3.mk 0.1 1.33 0) (Vector3.mk 0.11 1.33 0) (Vector3.mk 0.105 1.34 0)).

(** The wall without its triangle index, and without its normals. *)
Definition unindexedWall : Mesh :=
  Rational3.meshOf
    {| position := position (geometry wallMesh);
       normal := normal (geometry wallMesh);
       index := None |}.

Definition bareWall : Mesh :=
  Rational3.meshOf
    {| position := position (geometry wallMesh);
       normal := None;
       index := index (geometry wallMesh) |}.

(** A non-indexed garment: one triangle two millimetres in front of the wall. *)
Definition looseTriangle : BufferGeometry :=
  {| position := [Vector3.mk 0.1 1.0 0.002; Vector3.mk 0.11 1.0 0.002;
                  Vector3.mk 0.105 1.01 0.002];
     normal := Some [up; up; up];
     index := None |}.

Definition defaultFitting : FittingOptions :=
  {| fabricOffset := None; smoothingIterations := None; collisionSamples := None |}.

(** No option given: the defaults of [createHybridTShirt]. *)
Definition defaults : HybridGarmentOptions :=
  {| opt_chestEase := None;
     opt_waistEase := None;
     opt_shoulderEase := None;
     garmentMeasurements := None;
     bodyMeasurements := None;
     gravity := None;
     smoothing := None;
     wrinkles := None;
     onFitAnalysis := false |}.

(** A triangle whose index names a fourth vertex that is not there. *)
Definition brokenTriangle : BufferGeometry :=
  {| position := position looseTriangle;
     normal := normal looseTriangle;
     index := Some [(0, 1, 3)]%nat |}.

(** Size M of the chart for the body of the demonstration, with a callback. *)
Definition measured : HybridGarmentOptions :=
  {| opt_chestEase := None;
     opt_waistEase := None;
     opt_shoulderEase := None;
     garmentMeasurements := Some (chart 102 94 70 46);
     bodyMeasurements := Some userBody;
     gravity := None;
     smoothing := None;
     wrinkles := None;
     onFitAnalysis := true |}.

(* SCENES-END *)
End Scenes.

(* ================================================================== *)
(** ** Vocabulary of the statements *)
(* ================================================================== *)

Section Vocabulary.

Local Open Scope Q_scope.

(** Position of a status in (too_tight, tight, perfect, loose, too_loose). *)
Definition categoryIndex (s : FitStatus) : nat :=
  match s with
  | too_tight => 0
  | tight => 1
  | perfect => 2
  | loose => 3
  | too_loose => 4
  end%nat.

(** The band of percentages a status stands for. *)
Definition inBand (s : FitStatus) (p : Q) : Prop :=
  match s with
  | too_tight => p < -5
  | tight => -5 <= p /\ p < 2
  | perfect => 2 <= p /\ p < 10
  | loose => 10 <= p /\ p < 20
  | too_loose => 20 <= p
  end.

(** The statuses [analyzeFit] folds into the overall status. *)
Definition keyStatuses (a : FitAnalysis) : list FitStatus :=
  status (chestFit a)
    :: (match waistFit a with Some w => [status w] | None => [] end)
    ++ (match shoulderFit a with Some s => [status s] | None => [] end).

(** The score [recommendSize] gives a candidate. *)
Definition scoreOf (bodyMeasurements : Body.t) (s : SizeOption) : Z :=
  calculateFitScore (analyzeFit (measurements s) bodyMeasurements).

(** The positions of the geometry a pass returned (none if it threw). *)
Definition positionsOf (r : JS.Outcome BufferGeometry) : list Vector3.t :=
  match r with
  | JS.Returned g => position g
  | JS.Thrown _ => []
  end.

(** The geometry of the one mesh in the group [createHybridTShirt] returned. *)
Definition shirtOf (run : HybridRun) : JS.Outcome BufferGeometry :=
  g <- completion run ;;
  match g with
  | [shirt] => JS.Returned shirt
  | _ => JS.Thrown JS.TypeError
  end.

(** A status at the bad end of the scale. *)
Definition extreme (s : FitStatus) : bool := negb (notExtreme s).

(** Whether [generateRecommendation] finds nothing to report. *)
Definition nothingToReport (chestFit : FitMetric)
    (waistFit shoulderFit lengthFit : option FitMetric) : bool :=
  (match status chestFit with perfect | loose => true | _ => false end)
  && (match waistFit with Some w => notExtreme (status w) | None => true end)
  && (match shoulderFit with Some s => notExtreme (status s) | None => true end)
  && (match lengthFit with
      | Some l => JS.leb (-5) (difference l) && JS.leb (difference l) 15
      | None => true
      end).

(** A state of the scan of [recommendSize] whose best analysis and best score
    are those of its best size. *)
Definition coherent (b : Body.t) (st : Scan) : Prop :=
  bestAnalysis st = analyzeFit (measurements (bestSize st)) b
  /\ bestScore st = scoreOf b (bestSize st).

(** What the scan may list as an alternative: a size of the list whose
    overall status is not extreme. *)
Definition listed (b : Body.t) (sizes : list SizeOption) (a : Alternative) : Prop :=
  exists s, In s sizes /\ alt_size a = size s
            /\ notExtreme (overall (analyzeFit (measurements s) b)) = true.

(** All three corners of a triangle are vertices among the first [n]. *)
Definition inRange (n : nat) (t : nat * nat * nat) : Prop :=
  let '(a, b, c) := t in (a < n /\ b < n /\ c < n)%nat.

(** A geometry the passes accept: it has normals, and an index that names
    vertices of the geometry only. *)
Definition wellFormed (g : BufferGeometry) : Prop :=
  normal g <> None
  /\ exists ts, index g = Some ts /\ Forall (inRange (List.length (position g))) ts.

(** The world-space vertices of the avatar that [createHybridTShirt] keeps. *)
Definition keptVertices (env : Three) (avatarMesh : Mesh) (options : HybridGarmentOptions)
    : list Vector3.t :=
  let world := map (applyWorld avatarMesh) (position (geometry avatarMesh)) in
  filter (inRegion env (frameOf world (garmentMeasurements options))) world.

(** What every pass keeps of a well-formed geometry. *)
Definition kept (g g' : BufferGeometry) : Prop :=
  wellFormed g'
  /\ List.length (position g') = List.length (position g)
  /\ index g' = index g.

(** A frame with another neck radius. *)
Definition withNeckRadius (f : Frame) (r : Q) : Frame :=
  {| minY := minY f;
     bodyHeight := bodyHeight f;
     bodyWidth := bodyWidth f;
     topY := topY f;
     bottomY := bottomY f;
     neckTopY := neckTopY f;
     neckRadius := r;
     sleeveEndY := sleeveEndY f |}.

(** The test of the band alone: [bottomY <= y <= topY]. *)
Definition inBandY (f : Frame) (v : Vector3.t) : bool :=
  JS.geb (Vector3.y v) (bottomY f) && JS.leb (Vector3.y v) (topY f).

(** Two corners of the triangle [t]: [y] is a corner other than the corner
    [x] (by position in the triangle). *)
Definition corners (t : nat * nat * nat) (x y : nat) : Prop :=
  let '(a, b, c) := t in
  (x = a /\ (y = b \/ y = c)) \/ (x = b /\ (y = a \/ y = c)) \/ (x = c /\ (y = a \/ y = b)).

(** Some triangle of the index has [x] and [y] as two of its corners. *)
Definition shareTriangle (ts : list (nat * nat * nat)) (x y : nat) : Prop :=
  exists t, In t ts /\ corners t x y.

(** [adjacency.get(x)], empty for a missing key. *)
Definition neighboursOf (adjacency : list (list nat)) (x : nat) : list nat :=
  nth x adjacency [].

Inductive Axis := axisX | axisY | axisZ.

Definition coordinate (a : Axis) (p : Vector3.t) : Q :=
  match a with
  | axisX => Vector3.x p
  | axisY => Vector3.y p
  | axisZ => Vector3.z p
  end.

(** All vertices have their coordinate [a] between [lo] and [hi]. *)
Definition within (a : Axis) (lo hi : Q) (ps : list Vector3.t) : Prop :=
  Forall (fun p => lo <= coordinate a p <= hi) ps.

(** Vertex by vertex the same, up to [==] on the coordinates. *)
Definition sameVertices (ps qs : list Vector3.t) : Prop := Forall2 Vector3.equiv ps qs.

(** The nearest hit comes first. *)
Definition nearestFirst (hits : list Q) : Prop :=
  match hits with
  | [] => True
  | d :: rest => Forall (fun d' => d <= d') rest
  end.

(** The vertex is clear of the body: its inward ray hits nothing, or hits
    first at [minDistance] or farther. *)
Definition clearOf (env : Three) (avatarMesh : Mesh) (minDistance : Q)
    (vertex normal : Vector3.t) : Prop :=
  match inwardHits env avatarMesh vertex normal with
  | d :: _ => minDistance <= d
  | [] => True
  end.

(** The options with other manual eases. *)
Definition withManualEase (o : HybridGarmentOptions) (chest waist shoulder : option Q)
    : HybridGarmentOptions :=
  {| opt_chestEase := chest;
     opt_waistEase := waist;
     opt_shoulderEase := shoulder;
     garmentMeasurements := garmentMeasurements o;
     bodyMeasurements := bodyMeasurements o;
     gravity := gravity o;
     smoothing := smoothing o;
     wrinkles := wrinkles o;
     onFitAnalysis := onFitAnalysis o |}.

(** The mesh with another geometry. *)
Definition withGeometry (m : Mesh) (g : BufferGeometry) : Mesh :=
  {| geometry := g;
     applyWorld := applyWorld m;
     applyNormalWorld := applyNormalWorld m;
     directionWorld := directionWorld m;
     applyWorldInverse := applyWorldInverse m |}.

(** Reading the normals in a loop over the vertices does not throw: there
    are normals, or there is no vertex. *)
Definition readable (g : BufferGeometry) : bool :=
  match normal g, position g with
  | None, _ :: _ => false
  | _, _ => true
  end.

(** Whether [applyRealisticFabricPhysics] reads the normals the geometry
    came with: the stretch pass does; the collision and wrinkle passes do
    when neither the weight pass nor the seam pass ran before them. *)
Definition readsGivenNormals (options : PhysicsOptions) : bool :=
  flag (enableStretch options)
  || (negb (flag (enableWeight options)) && negb (flag (enableSeams options))
      && (flag (enableCollision options) || flag (enableDynamicWrinkles options))).

(** What every pass keeps: the number of vertices and the index. *)
Definition sameShape (g g' : BufferGeometry) : Prop :=
  List.length (position g') = List.length (position g) /\ index g' = index g.

(** [x*x + y*y + z*z] *)
Definition lengthSq (v : Vector3.t) : Q :=
  Vector3.x v * Vector3.x v + Vector3.y v * Vector3.y v + Vector3.z v * Vector3.z v.

(** The avatar vertices of the region with their normals, both in world
    space, in the order of the avatar's buffer. *)
Definition keptWithNormals (env : Three) (avatarMesh : Mesh) (f : Frame)
    (normals : list Vector3.t) : list (Vector3.t * Vector3.t) :=
  filter (fun wn => inRegion env f (fst wn))
    (mapi (fun i p => (applyWorld avatarMesh p,
                       applyNormalWorld avatarMesh (fromBufferAttribute normals i)))
          (position (geometry avatarMesh))).

(* VOCABULARY-END *)
End Vocabulary.

(* ================================================================== *)
(** ** Comparisons *)
(* ================================================================== *)

Section Comparisons.

Local Open Scope Q_scope.

Lemma ltb_lt (x y : Q) : JS.ltb x y = true <-> x < y.
Proof.
  unfold JS.ltb. rewrite negb_true_iff. split; intros H.
  - apply Qnot_le_lt. intros Hle. apply Qle_bool_iff in Hle. congruence.
  - destruct (Qle_bool y x) eqn:E; [|reflexivity].
    apply Qle_bool_iff in E. exfalso. apply (Qlt_not_le _ _ H E).
Qed.

Lemma ltb_ge (x y : Q) : JS.ltb x y = false <-> y <= x.
Proof.
  unfold JS.ltb. rewrite negb_false_iff. apply Qle_bool_iff.
Qed.

Lemma leb_le (x y : Q) : JS.leb x y = true <-> x <= y.
Proof. apply Qle_bool_iff. Qed.

Lemma leb_gt (x y : Q) : JS.leb x y = false <-> y < x.
Proof.
  unfold JS.leb. split; intros H.
  - apply Qnot_le_lt. intros Hle. apply Qle_bool_iff in Hle. congruence.
  - destruct (Qle_bool x y) eqn:E; [|reflexivity].
    apply Qle_bool_iff in E. exfalso. apply (Qlt_not_le _ _ H E).
Qed.

Lemma gtb_gt (x y : Q) : JS.gtb x y = true <-> y < x.
Proof. apply ltb_lt. Qed.

Lemma gtb_le (x y : Q) : JS.gtb x y = false <-> x <= y.
Proof. apply ltb_ge. Qed.

End Comparisons.

(** Case analysis on a comparison met in the goal, the fact going to the context. *)
Ltac split_ltb x y :=
  let E := fresh "E" in
  destruct (JS.ltb x y) eqn:E;
  [ apply ltb_lt in E | apply ltb_ge in E ].

Ltac split_gtb x y :=
  let E := fresh "E" in
  destruct (JS.gtb x y) eqn:E;
  [ apply gtb_gt in E | apply gtb_le in E ].

(* ================================================================== *)
(** ** classifyFit *)
(* ================================================================== *)

Section ClassifyFit.

Local Open Scope Q_scope.

Lemma classifyFit_too_tight (p : Q) : p < -5 -> classifyFit p = too_tight.
Proof.
  intros H. unfold classifyFit. split_ltb p (-5); [reflexivity | lra].
Qed.

Lemma classifyFit_tight (p : Q) : -5 <= p -> p < 2 -> classifyFit p = tight.
Proof.
  intros H1 H2. unfold classifyFit.
  split_ltb p (-5); [lra|]. split_ltb p 2; [reflexivity | lra].
Qed.

Lemma classifyFit_perfect (p : Q) : 2 <= p -> p < 10 -> classifyFit p = perfect.
Proof.
  intros H1 H2. unfold classifyFit.
  split_ltb p (-5); [lra|]. split_ltb p 2; [lra|].
  split_ltb p 10; [reflexivity | lra].
Qed.

Lemma classifyFit_loose (p : Q) : 10 <= p -> p < 20 -> classifyFit p = loose.
Proof.
  intros H1 H2. unfold classifyFit.
  split_ltb p (-5); [lra|]. split_ltb p 2; [lra|].
  split_ltb p 10; [lra|]. split_ltb p 20; [reflexivity | lra].
Qed.

Lemma classifyFit_too_loose (p : Q) : 20 <= p -> classifyFit p = too_loose.
Proof.
  intros H. unfold classifyFit.
  split_ltb p (-5); [lra|]. split_ltb p 2; [lra|].
  split_ltb p 10; [lra|]. split_ltb p 20; [lra | reflexivity].
Qed.

Lemma classifyFit_inBand (p : Q) : inBand (classifyFit p) p.
Proof.
  unfold classifyFit.
  split_ltb p (-5); [exact E|].
  split_ltb p 2; [split; assumption|].
  split_ltb p 10; [split; assumption|].
  split_ltb p 20; [split; assumption|].
  exact E2.
Qed.

Lemma inBand_unique (s : FitStatus) (p : Q) : inBand s p -> classifyFit p = s.
Proof.
  destruct s; simpl; intros H.
  - now apply classifyFit_too_tight.
  - now apply classifyFit_tight.
  - now apply classifyFit_perfect.
  - now apply classifyFit_loose.
  - now apply classifyFit_too_loose.
Qed.

Lemma classifyFit_monotone (p1 p2 : Q) :
  p1 < p2 -> (categoryIndex (classifyFit p1) <= categoryIndex (classifyFit p2))%nat.
Proof.
  intros Hlt.
  pose proof (classifyFit_inBand p1) as B1.
  pose proof (classifyFit_inBand p2) as B2.
  destruct (classifyFit p1), (classifyFit p2); simpl in *; try lia; exfalso; lra.
Qed.

(** C7.  [classifyFit] sends every percentage to the one status whose band
    holds it (below -5 too_tight, from -5 up to 2 tight, from 2 up to 10
    perfect, from 10 up to 20 loose, from 20 on too_loose), and it is a
    non-decreasing step function of the percentage. *)
Theorem classifyFit_bands_and_monotone :
  forall p : Q,
    (forall s, classifyFit p = s <-> inBand s p)
    /\ (forall p', p < p' ->
          (categoryIndex (classifyFit p) <= categoryIndex (classifyFit p'))%nat).
Proof.
  intros p. split.
  - intros s. split.
    + intros <-. apply classifyFit_inBand.
    + apply inBand_unique.
  - intros p'. apply classifyFit_monotone.
Qed.

End ClassifyFit.

(* ================================================================== *)
(** ** analyzeFit *)
(* ================================================================== *)

Section AnalyzeFit.

Local Open Scope Q_scope.

Lemma worse_priority (w c : FitStatus) :
  statusPriority (worse w c) = Nat.min (statusPriority w) (statusPriority c).
Proof.
  unfold worse. destruct (Nat.ltb_spec (statusPriority c) (statusPriority w)); lia.
Qed.

Lemma worse_choice (w c : FitStatus) : worse w c = w \/ worse w c = c.
Proof. unfold worse. destruct (_ <? _)%nat; auto. Qed.

Lemma fold_worse_in (rest : list FitStatus) (first : FitStatus) :
  In (fold_left worse rest first) (first :: rest).
Proof.
  revert first. induction rest as [|c rest IH]; intros first; simpl.
  - now left.
  - destruct (IH (worse first c)) as [H|H]; [|auto].
    destruct (worse_choice first c) as [E|E]; rewrite E in *; auto.
Qed.

Lemma fold_worse_least (rest : list FitStatus) (first s : FitStatus) :
  In s (first :: rest) ->
  (statusPriority (fold_left worse rest first) <= statusPriority s)%nat.
Proof.
  revert first s. induction rest as [|c rest IH]; intros first s Hin; simpl.
  - destruct Hin as [->|[]]. lia.
  - assert (Hw : (statusPriority (fold_left worse rest (worse first c))
                  <= statusPriority (worse first c))%nat)
      by (apply IH; now left).
    rewrite worse_priority in Hw.
    destruct Hin as [->|[->|Hin]]; try lia.
    apply IH. now right.
Qed.

Lemma analyzeFit_overall (g : Garment.t) (b : Body.t) :
  overall (analyzeFit g b)
  = fold_left worse (tl (keyStatuses (analyzeFit g b)))
                    (hd perfect (keyStatuses (analyzeFit g b))).
Proof. reflexivity. Qed.

Lemma fold_worse_first (rest : list FitStatus) (first : FitStatus) :
  exists pre post,
    first :: rest = pre ++ fold_left worse rest first :: post
    /\ (forall s, In s pre ->
          (statusPriority (fold_left worse rest first) < statusPriority s)%nat)
    /\ (forall s, In s post ->
          (statusPriority (fold_left worse rest first) <= statusPriority s)%nat).
Proof.
  revert first. induction rest as [|c rest IH]; intros first.
  - exists [], []. repeat split; intros s [].
  - cbn [fold_left].
    destruct (Nat.ltb_spec (statusPriority c) (statusPriority first)) as [Hlt|Hge].
    + assert (W : worse first c = c)
        by (unfold worse; apply Nat.ltb_lt in Hlt; now rewrite Hlt).
      rewrite W. destruct (IH c) as (pre & post & E & Hpre & Hpost).
      exists (first :: pre), post. split; [cbn [app]; now rewrite E|].
      split; [|exact Hpost].
      intros s [<-|Hs]; [|now apply Hpre].
      pose proof (@fold_worse_least rest c c (or_introl eq_refl)). lia.
    + assert (W : worse first c = first)
        by (unfold worse; apply Nat.ltb_ge in Hge; now rewrite Hge).
      rewrite W. destruct (IH first) as (pre & post & E & Hpre & Hpost).
      destruct pre as [|p pre].
      * cbn [app] in E. injection E as E1 E2.
        exists [], (c :: rest). split; [cbn [app]; now rewrite <- E1|].
        split; [intros s []|].
        intros s Hs. rewrite <- E1.
        destruct Hs as [<-|Hs]; [exact Hge|].
        rewrite E1. apply fold_worse_least. now right.
      * cbn [app] in E. injection E as E1 E2. subst p.
        exists (first :: c :: pre), post.
        split; [cbn [app]; do 2 f_equal; exact E2|].
        split; [|exact Hpost].
        pose proof (Hpre first (or_introl eq_refl)) as Hf.
        intros s [<-|[<-|Hs]]; [exact Hf | lia | apply Hpre; now right].
Qed.

(** C6, as the code has it.  The overall status of [analyzeFit] is the worst
    (lowest [statusPriority]) of the statuses of the chest, of the waist and
    of the shoulder, the last two when the garment gives a non-zero value;
    among equally bad statuses it is the first in this order (every status
    before it is strictly better).  The length metric is computed whenever
    the body has a non-zero torso length, with its own status, but takes no
    part: the overall status depends on the chest, waist and shoulder
    values only. *)
Theorem analyzeFit_overall_worst_of_key :
  forall (g : Garment.t) (b : Body.t),
    let a := analyzeFit g b in
    In (overall a) (keyStatuses a)
    /\ (forall s, In s (keyStatuses a) ->
          (statusPriority (overall a) <= statusPriority s)%nat)
    /\ (exists pre post,
          keyStatuses a = pre ++ overall a :: post
          /\ forall s, In s pre -> (statusPriority (overall a) < statusPriority s)%nat)
    /\ (waistFit a = None <-> JS.truthy (Garment.waist g) = false)
    /\ (shoulderFit a = None <-> JS.truthy (Garment.shoulderWidth g) = false)
    /\ (lengthFit a = None <-> JS.truthy (Body.torsoLength b) = false)
    /\ (forall t, Body.torsoLength b = Some t -> ~ t == 0 ->
          lengthFit a = Some (fitMetric (Garment.length g) t)
          /\ option_map status (lengthFit a)
             = Some (classifyFit ((Garment.length g - t) / t * 100)))
    /\ (forall g' b',
          Garment.chest g' = Garment.chest g ->
          Garment.waist g' = Garment.waist g ->
          Garment.shoulderWidth g' = Garment.shoulderWidth g ->
          Body.chest b' = Body.chest b ->
          Body.waist b' = Body.waist b ->
          Body.shoulderWidth b' = Body.shoulderWidth b ->
          overall (analyzeFit g' b') = overall a).
Proof.
  intros g b a.
  split; [unfold a; rewrite analyzeFit_overall; apply fold_worse_in|].
  split; [intros s Hs; unfold a; rewrite analyzeFit_overall;
          now apply fold_worse_least|].
  split.
  { unfold a. rewrite analyzeFit_overall.
    destruct (fold_worse_first (tl (keyStatuses (analyzeFit g b)))
                (hd perfect (keyStatuses (analyzeFit g b)))) as (pre & post & E & Hpre & _).
    exists pre, post. split; [|exact Hpre]. rewrite <- E. reflexivity. }
  split.
  { unfold a, analyzeFit; simpl.
    destruct (Garment.waist g) as [w|]; simpl; [|tauto].
    destruct (Qeq_bool w 0); simpl; split; intros; reflexivity || discriminate. }
  split.
  { unfold a, analyzeFit; simpl.
    destruct (Garment.shoulderWidth g) as [w|]; simpl; [|tauto].
    destruct (Qeq_bool w 0); simpl; split; intros; reflexivity || discriminate. }
  split.
  { unfold a, analyzeFit; simpl.
    destruct (Body.torsoLength b) as [w|]; simpl; [|tauto].
    destruct (Qeq_bool w 0); simpl; split; intros; reflexivity || discriminate. }
  split.
  { intros t Ht Hnz. unfold a, analyzeFit; cbn [lengthFit]. rewrite Ht.
    cbn [JS.truthy option_map].
    destruct (Qeq_bool t 0) eqn:E; [apply Qeq_bool_iff in E; contradiction|].
    cbn [negb option_map]. split; reflexivity. }
  intros g' b' H1 H2 H3 H4 H5 H6. unfold a. rewrite !analyzeFit_overall.
  unfold keyStatuses, analyzeFit.
  cbn [chestFit waistFit shoulderFit].
  now rewrite H1, H2, H3, H4, H5, H6.
Qed.

(** C6, as stated, fails: for a shirt of chest 102 and length 50 on a body of
    chest 95 and torso length 68 the length is computed and too_tight, the
    worst there is, yet the overall status is perfect. *)
Lemma analyzeFit_overall_ignores_length :
  let a := analyzeFit Scenes.cropped Scenes.userBody in
  option_map status (lengthFit a) = Some too_tight
  /\ overall a = perfect
  /\ (statusPriority too_tight < statusPriority (overall a))%nat.
Proof. vm_compute. repeat split; lia. Qed.

End AnalyzeFit.

(* ================================================================== *)
(** ** recommendSize *)
(* ================================================================== *)

Section RecommendSize.

Variable b : Body.t.

Local Open Scope Z_scope.

(** While no candidate beats the best score, the scan keeps its best size and
    only appends alternatives. *)
Lemma scan_keeps_best (l : list SizeOption) (st : Scan) :
  (forall s, In s l -> scoreOf b s <= bestScore st) ->
  let st' := fold_left (scanStep b) l st in
  bestSize st' = bestSize st
  /\ bestAnalysis st' = bestAnalysis st
  /\ bestScore st' = bestScore st
  /\ exists more, alternatives st' = alternatives st ++ more.
Proof.
  revert st. induction l as [|s l IH]; intros st Hmax; simpl.
  - repeat split. exists []. now rewrite app_nil_r.
  - assert (Hs : scoreOf b s <= bestScore st) by (apply Hmax; now left).
    assert (Hstep : bestSize (scanStep b st s) = bestSize st
                    /\ bestAnalysis (scanStep b st s) = bestAnalysis st
                    /\ bestScore (scanStep b st s) = bestScore st
                    /\ exists more, alternatives (scanStep b st s) = alternatives st ++ more).
    { unfold scanStep. fold (scoreOf b s).
      destruct (Z.ltb_spec (bestScore st) (scoreOf b s)) as [Hlt|_]; [lia|].
      destruct ((0 <? scoreOf b s) && notExtreme (overall (analyzeFit (measurements s) b)));
        cbn [bestSize bestAnalysis bestScore alternatives]; repeat split.
      - eexists. reflexivity.
      - exists []. now rewrite app_nil_r. }
    destruct Hstep as (E1 & E2 & E3 & more1 & E4).
    destruct (IH (scanStep b st s)) as (F1 & F2 & F3 & more2 & F4).
    { intros s' Hin. rewrite E3. apply Hmax. now right. }
    cbv zeta. rewrite F1, F2, F3, F4, E1, E2, E3, E4.
    repeat split. exists (more1 ++ more2). now rewrite app_assoc.
Qed.

(** Whatever the scores, the best size of the scan is the one it started
    with or one of the candidates scanned, and the best analysis is the
    analysis of that size. *)
Lemma scan_best_from_list (l : list SizeOption) (st : Scan) :
  bestAnalysis st = analyzeFit (measurements (bestSize st)) b ->
  let st' := fold_left (scanStep b) l st in
  In (bestSize st') (bestSize st :: l)
  /\ bestAnalysis st' = analyzeFit (measurements (bestSize st')) b.
Proof.
  revert st. induction l as [|s l IH]; intros st Hst; simpl.
  - split; [now left | exact Hst].
  - assert (Hstep : (bestSize (scanStep b st s) = bestSize st
                     \/ bestSize (scanStep b st s) = s)
                    /\ bestAnalysis (scanStep b st s)
                       = analyzeFit (measurements (bestSize (scanStep b st s))) b).
    { unfold scanStep.
      destruct (bestScore st <? calculateFitScore (analyzeFit (measurements s) b)).
      - cbn [bestSize bestAnalysis]. split; [now right | reflexivity].
      - destruct ((0 <? calculateFitScore (analyzeFit (measurements s) b))
                  && notExtreme (overall (analyzeFit (measurements s) b)));
          cbn [bestSize bestAnalysis]; (split; [now left | exact Hst]). }
    destruct Hstep as (Hb & Ha).
    destruct (IH (scanStep b st s) Ha) as (Hin & Hfin).
    cbv zeta. split; [|exact Hfin].
    destruct Hin as [Hin|Hin].
    + destruct Hb as [Hb|Hb]; rewrite Hb in Hin; rewrite <- Hin; simpl; auto.
    + simpl. auto.
Qed.

(** C9.  The scan looks at the first candidate again: when the first size
    of a non-empty list has the highest score, a score above zero and an
    overall status that is neither too_tight nor too_loose, it is the
    recommended size and it is also listed among the alternatives. *)
Theorem recommendSize_first_is_best_and_alternative :
  forall (first : SizeOption) (rest : list SizeOption),
    (forall s, In s (first :: rest) -> scoreOf b s <= scoreOf b first) ->
    0 < scoreOf b first ->
    notExtreme (overall (analyzeFit (measurements first) b)) = true ->
    exists r,
      recommendSize (first :: rest) b = JS.Returned r
      /\ recommendedSize r = size first
      /\ In (size first) (map alt_size (alternativeSizes r)).
Proof.
  intros first rest Hmax Hpos Hok.
  unfold recommendSize. eexists. split; [reflexivity|]. cbn [recommendedSize alternativeSizes].
  set (st0 := {| bestSize := first;
                 bestAnalysis := analyzeFit (measurements first) b;
                 bestScore := calculateFitScore (analyzeFit (measurements first) b);
                 alternatives := [] |}).
  cbn [fold_left].
  assert (Hfirst : scanStep b st0 first
                   = {| bestSize := first;
                        bestAnalysis := analyzeFit (measurements first) b;
                        bestScore := calculateFitScore (analyzeFit (measurements first) b);
                        alternatives :=
                          [{| alt_size := size first;
                              reason := recommendation (analyzeFit (measurements first) b) |}] |}).
  { unfold scanStep, st0; cbn [bestScore bestSize bestAnalysis alternatives].
    rewrite Z.ltb_irrefl. unfold scoreOf in Hpos.
    apply Z.ltb_lt in Hpos. rewrite Hpos, Hok. reflexivity. }
  rewrite Hfirst.
  match goal with |- context [fold_left _ rest ?st] => set (st1 := st) end.
  destruct (scan_keeps_best rest st1) as (E1 & _ & _ & more & E4).
  { intros s Hin. apply Hmax. now right. }
  rewrite E1, E4. split; [reflexivity|].
  simpl. now left.
Qed.

(** C10.  On the empty list [recommendSize] throws, reading
    [availableSizes[0].measurements]; on every non-empty list it returns, and
    the size it recommends is a size of the list, with its own analysis. *)
Theorem recommendSize_total_on_non_empty :
  recommendSize [] b = JS.Thrown JS.TypeError
  /\ forall (first : SizeOption) (rest : list SizeOption),
       exists r s,
         recommendSize (first :: rest) b = JS.Returned r
         /\ In s (first :: rest)
         /\ recommendedSize r = size s
         /\ analysis r = analyzeFit (measurements s) b.
Proof.
  split; [reflexivity|].
  intros first rest. unfold recommendSize.
  set (st0 := {| bestSize := first;
                 bestAnalysis := analyzeFit (measurements first) b;
                 bestScore := calculateFitScore (analyzeFit (measurements first) b);
                 alternatives := [] |}).
  destruct (scan_best_from_list (first :: rest) st0 eq_refl) as (Hin & Ha).
  eexists. exists (bestSize (fold_left (scanStep b) (first :: rest) st0)).
  split; [reflexivity|]. cbn [recommendedSize analysis].
  repeat split.
  - destruct Hin as [Hin|Hin]; [|exact Hin]. rewrite <- Hin. now left.
  - exact Ha.
Qed.

End RecommendSize.

(** The chart with M in front, on the body of the example: M is recommended
    and is its own first alternative. *)
Lemma recommendSize_first_is_best_witness :
  (forall s, In s (Scenes.sizeM :: Scenes.otherSizes) ->
     (scoreOf Scenes.userBody s <= scoreOf Scenes.userBody Scenes.sizeM)%Z)
  /\ exists r,
       recommendSize (Scenes.sizeM :: Scenes.otherSizes) Scenes.userBody = JS.Returned r
       /\ recommendedSize r = "M"%string
       /\ In "M"%string (map alt_size (alternativeSizes r)).
Proof.
  assert (H : forall s, In s (Scenes.sizeM :: Scenes.otherSizes) ->
     (scoreOf Scenes.userBody s <= scoreOf Scenes.userBody Scenes.sizeM)%Z).
  { intros s Hin. simpl in Hin.
    destruct Hin as [<-|[<-|[<-|[<-|[]]]]]; vm_compute; discriminate. }
  split; [exact H|].
  apply (recommendSize_first_is_best_and_alternative Scenes.userBody
           (first := Scenes.sizeM) (rest := Scenes.otherSizes)).
  - exact H.
  - vm_compute. reflexivity.
  - vm_compute. reflexivity.
Defined.

(* ================================================================== *)
(** ** Loops over the vertices *)
(* ================================================================== *)

Section Loops.

Context {A B : Type}.

Lemma mapi_from_nth_error (f : nat -> A -> B) (l : list A) (k i : nat) :
  nth_error (mapi_from f k l) i = option_map (f (k + i)%nat) (nth_error l i).
Proof.
  revert k i. induction l as [|a l IH]; intros k i; simpl.
  - now destruct i.
  - destruct i; simpl.
    + now rewrite Nat.add_0_r.
    + rewrite IH. now rewrite Nat.add_succ_r.
Qed.

Lemma mapi_nth_error (f : nat -> A -> B) (l : list A) (i : nat) :
  nth_error (mapi f l) i = option_map (f i) (nth_error l i).
Proof. unfold mapi. now rewrite mapi_from_nth_error. Qed.

Lemma mapi_from_length (f : nat -> A -> B) (l : list A) (k : nat) :
  List.length (mapi_from f k l) = List.length l.
Proof.
  revert k. induction l as [|a l IH]; intros k; simpl; [reflexivity|].
  now rewrite IH.
Qed.

Lemma mapi_length (f : nat -> A -> B) (l : list A) :
  List.length (mapi f l) = List.length l.
Proof. apply mapi_from_length. Qed.

End Loops.

Lemma fromBufferAttribute_nth_error (ns : list Vector3.t) (i : nat) (n : Vector3.t) :
  nth_error ns i = Some n -> fromBufferAttribute ns i = n.
Proof. intros H. unfold fromBufferAttribute. now apply nth_error_nth. Qed.

Lemma normalAttribute_some (g : BufferGeometry) (ns : list Vector3.t) :
  normal g = Some ns -> normalAttribute g = JS.Returned ns.
Proof. intros H. unfold normalAttribute. now rewrite H. Qed.

(* ================================================================== *)
(** ** The fabric offset *)
(* ================================================================== *)

Section FabricOffset.

Variable env : Three.

Local Open Scope Q_scope.

Lemma clampOffset_range (fabricOffset : Q) :
  minClearance <= clampOffset fabricOffset <= maxClearance.
Proof.
  unfold clampOffset, minClearance, maxClearance.
  split_ltb fabricOffset 0; [lra|].
  split_ltb fabricOffset 0.003; [lra|].
  split_gtb fabricOffset 0.05; lra.
Qed.

Lemma clampOffset_negative (fabricOffset : Q) :
  fabricOffset < 0 -> clampOffset fabricOffset = minClearance.
Proof.
  intros H. unfold clampOffset. apply ltb_lt in H. now rewrite H.
Qed.

Lemma clampOffset_clamps (fabricOffset : Q) :
  0 <= fabricOffset ->
  clampOffset fabricOffset == Qmax minClearance (Qmin fabricOffset maxClearance).
Proof.
  intros H. unfold clampOffset, minClearance, maxClearance.
  split_ltb fabricOffset 0; [lra|].
  split_ltb fabricOffset 0.003.
  - rewrite Q.max_l; [reflexivity|]. rewrite Q.min_l; lra.
  - split_gtb fabricOffset 0.05.
    + rewrite Q.min_r by lra. rewrite Q.max_r; lra.
    + rewrite Q.min_l by lra. rewrite Q.max_r; lra.
Qed.

Lemma adjustOffset_range (actualOffset radialPosition : Q) :
  minClearance <= actualOffset <= maxClearance ->
  0 <= radialPosition <= 1 ->
  minClearance <= adjustOffset actualOffset radialPosition <= maxClearance.
Proof.
  unfold adjustOffset, boxinessMultiplier, minClearance, maxClearance.
  intros [Hlo Hhi] [Hr0 Hr1].
  split_gtb actualOffset 0.01; [|lra].
  split.
  - apply Q.le_max_r.
  - apply Q.max_lub; [|lra]. nra.
Qed.

Lemma radialPositionOf_range (f : Frame) (vertex : Vector3.t) :
  (forall q, 0 <= Math_sqrt env q) ->
  0 < bodyWidth f ->
  0 <= radialPositionOf env f vertex <= 1.
Proof.
  intros Hsqrt Hw. unfold radialPositionOf. split.
  - apply Q.min_glb; [|lra].
    apply Qle_shift_div_l.
    + apply Qlt_shift_div_l; lra.
    + rewrite Qmult_0_l. apply Hsqrt.
  - apply Q.le_min_r.
Qed.

Lemma buildVertices_kept (avatarMesh : Mesh) (f : Frame) (e : Ease)
    (normals : list Vector3.t) (ps : list Vector3.t) (i : nat) :
  buildVertices env avatarMesh f e normals i ps
    (map (fun p => inRegion env f (applyWorld avatarMesh p)) ps)
  = map (fun wn => (inflateVertex env f e (fst wn) (snd wn), snd wn))
        (filter (fun wn => inRegion env f (fst wn))
           (mapi_from (fun i p => (applyWorld avatarMesh p,
                                   applyNormalWorld avatarMesh (fromBufferAttribute normals i)))
                      i ps)).
Proof.
  revert i. induction ps as [|p ps IH]; intros i; [reflexivity|].
  cbn [buildVertices map mapi_from filter fst].
  rewrite IH. now destruct (inRegion env f (applyWorld avatarMesh p)).
Qed.

Lemma shirtGeometry_kept (avatarMesh : Mesh) (f : Frame) (e : Ease)
    (normals : list Vector3.t) (oldIndex : list (nat * nat * nat)) :
  position (shirtGeometry env avatarMesh f e normals oldIndex)
  = map (fun wn => inflateVertex env f e (fst wn) (snd wn))
        (keptWithNormals env avatarMesh f normals)
  /\ normal (shirtGeometry env avatarMesh f e normals oldIndex)
     = Some (map snd (keptWithNormals env avatarMesh f normals)).
Proof.
  unfold shirtGeometry, keptWithNormals, mapi. cbn [position normal].
  rewrite buildVertices_kept, !map_map. cbn [fst snd]. split; reflexivity.
Qed.

Lemma adjustedOffsetOf_range (f : Frame) (e : Ease) (vertex : Vector3.t) :
  (forall q, 0 <= Math_sqrt env q) ->
  0 < bodyWidth f ->
  let blended :=
    blendedOffset e ((Vector3.y vertex - bottomY f) / (topY f - bottomY f)) in
  let clamped := clampOffset blended in
  let radialPosition := radialPositionOf env f vertex in
  let offset := adjustedOffsetOf env f e vertex in
  0.003 <= offset <= 0.05
  /\ (blended < 0 -> offset = 0.003)
  /\ (0 <= blended -> clamped == Qmax 0.003 (Qmin blended 0.05))
  /\ (clamped <= 0.01 -> offset = clamped)
  /\ (0.01 < clamped ->
        offset = Qmax (clamped * (0.6 + radialPosition * 0.4)) 0.003).
Proof.
  intros Hsqrt Hw blended clamped radialPosition offset.
  assert (Hr : 0 <= radialPosition <= 1) by (now apply radialPositionOf_range).
  assert (Hc : minClearance <= clamped <= maxClearance) by apply clampOffset_range.
  split; [apply (adjustOffset_range Hc Hr)|].
  split.
  { intros Hneg. unfold offset, adjustedOffsetOf. fold blended.
    rewrite (clampOffset_negative Hneg). reflexivity. }
  split; [intros Hpos; apply (clampOffset_clamps Hpos)|].
  split.
  - intros Hle. unfold offset, adjustedOffsetOf. fold blended. fold clamped.
    fold radialPosition. unfold adjustOffset.
    apply gtb_le in Hle. now rewrite Hle.
  - intros Hgt. unfold offset, adjustedOffsetOf. fold blended. fold clamped.
    fold radialPosition. unfold adjustOffset.
    apply gtb_gt in Hgt. now rewrite Hgt.
Qed.

Lemma displacement_length (vertex normal : Vector3.t) (offset : Q) :
  lengthSq (Vector3.sub (Vector3.add vertex (Vector3.multiplyScalar normal offset)) vertex)
  == offset * offset * lengthSq normal.
Proof.
  unfold lengthSq, Vector3.sub, Vector3.add, Vector3.multiplyScalar.
  cbn [Vector3.x Vector3.y Vector3.z]. ring.
Qed.

End FabricOffset.

Lemma Rational3_sqrt_nonneg (q : Q) : (0 <= Rational3.sqrt q)%Q.
Proof.
  unfold Rational3.sqrt, Rational3.sqrtQ. rewrite Qred_correct.
  unfold Qle. simpl. rewrite Z.mul_1_r. apply Z.sqrt_nonneg.
Qed.

(* ================================================================== *)
(** ** The collision resolver *)
(* ================================================================== *)

Section CollisionResponse.

Variable env : Three.

Local Open Scope Q_scope.

(** Where [applyCollisionResponse] puts a vertex. *)
Lemma applyCollisionResponse_vertex (g : BufferGeometry) (avatarMesh : Mesh)
    (minDistance : Q) (ns : list Vector3.t) (i : nat) (v n : Vector3.t) :
  normal g = Some ns ->
  nth_error (position g) i = Some v ->
  nth_error ns i = Some n ->
  exists g',
    applyCollisionResponse env g avatarMesh minDistance = JS.Returned g'
    /\ nth_error (position g') i
       = Some (match collisionVertex env avatarMesh minDistance v n with
               | Some moved => moved
               | None => v
               end).
Proof.
  intros Hns Hv Hn. unfold applyCollisionResponse.
  rewrite (normalAttribute_some g Hns). cbn [JS.bind].
  eexists. split; [reflexivity|].
  match goal with
  | |- context [if ?c then _ else _] => destruct c
  end; cbn [position withVertexNormals setPosition];
    rewrite mapi_nth_error, Hv; cbn [option_map];
    now rewrite (fromBufferAttribute_nth_error ns i Hn).
Qed.

(** C5.  In the collision resolver, a vertex whose inward ray hits the body
    at nearest distance [d < 0.015] is moved along its normal by
    [(0.015 - d) * 1.2] (0.0168 for [d = 0.001]); a vertex with [d >= 0.015]
    or with no hit stays where it is; and the call returns. *)
Theorem collision_response_push :
  forall (g : BufferGeometry) (avatarMesh : Mesh) (ns : list Vector3.t)
         (i : nat) (v n : Vector3.t),
    normal g = Some ns ->
    nth_error (position g) i = Some v ->
    nth_error ns i = Some n ->
    exists g' v',
      applyCollisionResponse env g avatarMesh 0.015 = JS.Returned g'
      /\ nth_error (position g') i = Some v'
      /\ (forall d rest,
            inwardHits env avatarMesh v n = d :: rest -> d < 0.015 ->
            v' = Vector3.add v (Vector3.multiplyScalar n ((0.015 - d) * 1.2))
            /\ (d == 0.001 -> (0.015 - d) * 1.2 == 0.0168))
      /\ (forall d rest,
            inwardHits env avatarMesh v n = d :: rest -> 0.015 <= d -> v' = v)
      /\ (inwardHits env avatarMesh v n = [] -> v' = v).
Proof.
  intros g avatarMesh ns i v n Hns Hv Hn.
  destruct (applyCollisionResponse_vertex g avatarMesh 0.015 i Hns Hv Hn)
    as (g' & Hg & Hi).
  exists g'. eexists. split; [exact Hg|]. split; [exact Hi|].
  unfold collisionVertex. split; [|split].
  - intros d rest Hhit Hd. split.
    + rewrite Hhit. apply ltb_lt in Hd. now rewrite Hd.
    + intros Hd1. rewrite Hd1. reflexivity.
  - intros d rest Hhit Hd. rewrite Hhit. apply ltb_ge in Hd. now rewrite Hd.
  - intros Hhit. now rewrite Hhit.
Qed.

End CollisionResponse.

(** Scenario D: a vertex a millimetre in front of the wall is pushed out by
    [(0.015 - 0.001) * 1.2]. *)
Lemma collision_response_push_witness :
  normal Scenes.nearWall = Some [Scenes.up]
  /\ nth_error (position Scenes.nearWall) 0 = Some Scenes.nearWallVertex
  /\ inwardHits Rational3.three Scenes.wallMesh Scenes.nearWallVertex Scenes.up
     = [0.001%Q]
  /\ exists g',
       applyCollisionResponse Rational3.three Scenes.nearWall Scenes.wallMesh 0.015
       = JS.Returned g'
       /\ nth_error (position g') 0
          = Some (Vector3.add Scenes.nearWallVertex
                    (Vector3.multiplyScalar Scenes.up ((0.015 - 0.001) * 1.2)%Q)).
Proof.
  assert (Hhit : inwardHits Rational3.three Scenes.wallMesh Scenes.nearWallVertex Scenes.up
                 = [0.001%Q]) by (vm_compute; reflexivity).
  repeat split; try reflexivity; try exact Hhit.
  destruct (@collision_response_push Rational3.three Scenes.nearWall Scenes.wallMesh
              [Scenes.up] 0%nat Scenes.nearWallVertex Scenes.up
              eq_refl eq_refl eq_refl) as (g' & v' & Hg & Hi & Hpush & _).
  exists g'. split; [exact Hg|]. rewrite Hi. f_equal.
  apply (Hpush _ _ Hhit). vm_compute. reflexivity.
Defined.

(* ================================================================== *)
(** ** createHybridTShirt: failure report, frame and order *)
(* ================================================================== *)

Section CreateHybridTShirt.

Variable env : Three.

Local Open Scope Q_scope.

Lemma smoothPass_no_adjacency (lambda : Q) (ps : list Vector3.t) :
  smoothPass [] lambda ps = ps.
Proof.
  unfold smoothPass, mapi. generalize 0%nat. generalize ps at 1 as temp.
  induction ps as [|p ps IH]; intros temp k; simpl; [reflexivity|].
  rewrite IH. unfold smoothVertex. now destruct k.
Qed.

Lemma iter_fixed {A : Type} (f : A -> A) (a : A) (n : nat) :
  f a = a -> Nat.iter n f a = a.
Proof. intros H. induction n as [|n IH]; simpl; [reflexivity|]. now rewrite IH. Qed.

Lemma applyLaplacianSmoothing_unindexed (g : BufferGeometry) (iterations : nat)
    (lambda : Q) :
  index g = None -> applyLaplacianSmoothing g iterations lambda = JS.Returned g.
Proof.
  intros H. unfold applyLaplacianSmoothing, buildAdjacencyMap. rewrite H.
  cbn [JS.bind]. rewrite iter_fixed by apply smoothPass_no_adjacency.
  destruct g; reflexivity.
Qed.

Lemma body_index_kept (avatarMesh : Mesh) :
  index (match normal (geometry avatarMesh) with
         | Some _ => geometry avatarMesh
         | None => withVertexNormals env (geometry avatarMesh)
         end) = index (geometry avatarMesh).
Proof. now destruct (normal (geometry avatarMesh)). Qed.

(** C3, as the code has it.  A mesh without a triangle index makes no stage
    throw.  [createHybridTShirt] logs an error and returns an empty group,
    with no garment built; [laplacianSmoothing] logs an error and returns,
    the geometry untouched, and [fitGarmentToBody], which runs it second,
    keeps what its collision pass did before; the adjacency builders return
    the empty map, so the smoother of the hybrid pipeline changes nothing. *)
Theorem unindexed_mesh_is_logged_not_thrown :
  forall (avatarMesh garmentMesh bodyMesh : Mesh) (options : HybridGarmentOptions)
         (fitting : FittingOptions) (iterations : nat) (lambda : Q),
    index (geometry avatarMesh) = None ->
    index (geometry garmentMesh) = None ->
    (completion (createHybridTShirt env avatarMesh options) = JS.Returned []
     /\ consoleError (createHybridTShirt env avatarMesh options)
        = ["[HybridGarment] Geometry must be indexed"%string])
    /\ laplacianSmoothing (geometry garmentMesh) iterations lambda
       = {| garmentAfter := geometry garmentMesh;
            fitConsoleError :=
              ["[GarmentFitting] Missing position or index attributes"%string];
            fitCompletion := JS.Returned tt |}
    /\ (let collided :=
          resolveCollisions env garmentMesh bodyMesh
            (JS.nullish (fabricOffset fitting) DEFAULT_fabricOffset) in
        fitGarmentToBody env garmentMesh bodyMesh fitting
        = {| garmentAfter := withVertexNormals env (fst collided);
             fitConsoleError :=
               snd collided
                 ++ ["[GarmentFitting] Missing position or index attributes"%string];
             fitCompletion := JS.Returned tt |})
    /\ buildNeighborMap (geometry garmentMesh) = JS.Returned []
    /\ buildAdjacencyMap (geometry garmentMesh) = JS.Returned []
    /\ applyLaplacianSmoothing (geometry garmentMesh) iterations lambda
       = JS.Returned (geometry garmentMesh).
Proof.
  intros avatarMesh garmentMesh bodyMesh options fitting iterations lambda Ha Hg.
  repeat split.
  - unfold createHybridTShirt. rewrite body_index_kept, Ha. reflexivity.
  - unfold createHybridTShirt. rewrite body_index_kept, Ha. reflexivity.
  - unfold laplacianSmoothing. now rewrite Hg.
  - unfold fitGarmentToBody.
    assert (Hi : index (fst (resolveCollisions env garmentMesh bodyMesh
                   (JS.nullish (fabricOffset fitting) DEFAULT_fabricOffset))) = None).
    { unfold resolveCollisions. destruct (normal (geometry garmentMesh)); exact Hg. }
    destruct (resolveCollisions env garmentMesh bodyMesh
                (JS.nullish (fabricOffset fitting) DEFAULT_fabricOffset)) as [g1 log1].
    cbn [fst snd] in *. unfold laplacianSmoothing. rewrite Hi. reflexivity.
  - unfold buildNeighborMap. now rewrite Hg.
  - unfold buildAdjacencyMap. now rewrite Hg.
  - now apply applyLaplacianSmoothing_unindexed.
Qed.

(** C8, as the code has it.  [createHybridTShirt] never writes the positions
    or the triangle index of the avatar; an avatar that has vertex normals is
    left exactly as it was, and one that has none gets them computed in
    place.  The passes that follow only read the avatar (ray casts). *)
Theorem createHybridTShirt_leaves_avatar :
  forall (avatarMesh : Mesh) (options : HybridGarmentOptions),
    let after := avatarAfter (createHybridTShirt env avatarMesh options) in
    position (geometry after) = position (geometry avatarMesh)
    /\ index (geometry after) = index (geometry avatarMesh)
    /\ (forall ns, normal (geometry avatarMesh) = Some ns -> after = avatarMesh)
    /\ (normal (geometry avatarMesh) = None ->
        normal (geometry after)
        = Some (computeVertexNormals env (position (geometry avatarMesh))
                  (index (geometry avatarMesh)))).
Proof.
  intros avatarMesh options after.
  assert (Hafter : after
                   = {| geometry :=
                          match normal (geometry avatarMesh) with
                          | Some _ => geometry avatarMesh
                          | None => withVertexNormals env (geometry avatarMesh)
                          end;
                        applyWorld := applyWorld avatarMesh;
                        applyNormalWorld := applyNormalWorld avatarMesh;
                        directionWorld := directionWorld avatarMesh;
                        applyWorldInverse := applyWorldInverse avatarMesh |}).
  { unfold after, createHybridTShirt.
    destruct (index _); reflexivity. }
  rewrite Hafter. cbn [geometry]. repeat split.
  - now destruct (normal (geometry avatarMesh)).
  - now destruct (normal (geometry avatarMesh)).
  - intros ns Hns. rewrite Hns. now destruct avatarMesh.
  - intros Hns. now rewrite Hns.
Qed.

End CreateHybridTShirt.

Section PassOrder.

Variable env : Three.

Local Open Scope Q_scope.

(** Splits on how the first pass still to run ended. *)
Ltac next_outcome :=
  match goal with
  | |- context [match ?m with JS.Returned _ => _ | JS.Thrown _ => _ end] =>
      lazymatch m with
      | JS.Returned _ => fail
      | JS.Thrown _ => fail
      | match _ with JS.Returned _ => _ | JS.Thrown _ => _ end => fail
      | _ => destruct m; cbv beta iota
      end
  end.

Lemma drapeShirt_in_code_order (options : HybridGarmentOptions) (avatarMesh : Mesh)
    (shirt : BufferGeometry) :
  drapeShirt env options avatarMesh shirt
  = runStages env avatarMesh (codeOrder options) shirt.
Proof.
  unfold drapeShirt, codeOrder.
  destruct (flag (smoothing options)), (flag (gravity options)),
    (flag (wrinkles options));
    cbv beta iota zeta
        delta [applyRealisticFabricPhysics hybridPhysics flag fabricType
               enableStretch enableCollision enableWeight enableSeams
               enableDynamicWrinkles app runStages runStage JS.bind];
    repeat (first [reflexivity | next_outcome]).
Qed.

Lemma createHybridTShirt_shirt (avatarMesh : Mesh) (options : HybridGarmentOptions)
    (oldIndex : list (nat * nat * nat)) :
  index (geometry avatarMesh) = Some oldIndex ->
  shirtOf (createHybridTShirt env avatarMesh options)
  = runStages env (avatarAfter (createHybridTShirt env avatarMesh options))
      (codeOrder options)
      (builtShirt env (avatarAfter (createHybridTShirt env avatarMesh options))
         options oldIndex).
Proof.
  intros Hidx. unfold shirtOf, createHybridTShirt.
  rewrite body_index_kept, Hidx. cbn [completion avatarAfter].
  rewrite drapeShirt_in_code_order. unfold builtShirt. cbn [geometry applyWorld].
  match goal with
  | |- JS.bind (JS.bind ?m _) _ = ?m' => change m' with m; destruct m
  end; reflexivity.
Qed.

(** C2, as the code has it.  On an indexed avatar [createHybridTShirt]
    selects the region and inflates it, then runs Laplacian smoothing,
    gravity drape and subtle wrinkles (each unless switched off), then
    stretch zones, fabric weight, seam tension, the collision resolver and
    the dynamic wrinkles, and recomputes the normals last. *)
Theorem createHybridTShirt_runs_code_order :
  forall (avatarMesh : Mesh) (options : HybridGarmentOptions)
         (oldIndex : list (nat * nat * nat)),
    index (geometry avatarMesh) = Some oldIndex ->
    let run := createHybridTShirt env avatarMesh options in
    shirtOf run
    = runStages env (avatarAfter run) (codeOrder options)
        (builtShirt env (avatarAfter run) options oldIndex)
    /\ (flag (smoothing options) = true ->
        flag (gravity options) = true ->
        flag (wrinkles options) = true ->
        codeOrder options
        = [LaplacianSmoothing; GravityDrape; SubtleWrinkles; StretchZones;
           FabricWeight; SeamTension; CollisionResponse; DynamicWrinkles;
           VertexNormals]).
Proof.
  intros avatarMesh options oldIndex Hidx run. split.
  - now apply createHybridTShirt_shirt.
  - intros Hs Hg Hw. unfold codeOrder. now rewrite Hs, Hg, Hw.
Qed.

End PassOrder.

(* ================================================================== *)
(** ** The offset of the built shirt, and the clearance after the resolver *)
(* ================================================================== *)

Section BuiltOffset.

Variable env : Three.

Local Open Scope Q_scope.

(** C4.  On an indexed avatar whose bounding box has positive height and
    width, the shirt [createHybridTShirt] builds and hands to its passes has
    one vertex for each avatar vertex of the region, in order: the vertex in
    world space moved along its world normal by an offset in [0.003, 0.05]
    (for a unit normal this is the length of the displacement).  A negative
    blended offset becomes 0.003, a non-negative one is clamped into
    [0.003, 0.05]; the boxiness multiplier [0.6 + 0.4 * radialPosition] is
    applied only above 0.01, and its result is raised to 0.003 at least. *)
Theorem fabric_offset_within_clearance :
  forall (avatarMesh : Mesh) (options : HybridGarmentOptions)
         (oldIndex : list (nat * nat * nat)),
    let run := createHybridTShirt env avatarMesh options in
    let avatar := avatarAfter run in
    let world := map (applyWorld avatar) (position (geometry avatar)) in
    let f := frameOf world (garmentMeasurements options) in
    let e := easeOf options in
    let normals := match normal (geometry avatar) with Some ns => ns | None => [] end in
    let shirt := builtShirt env avatar options oldIndex in
    index (geometry avatarMesh) = Some oldIndex ->
    (forall q, 0 <= Math_sqrt env q) ->
    0 < bodyWidth f ->
    0 < bodyHeight f ->
    shirtOf run = runStages env avatar (codeOrder options) shirt
    /\ normal shirt = Some (map snd (keptWithNormals env avatar f normals))
    /\ Forall2
         (fun wn v' =>
            let vertex := fst wn in
            let normal := snd wn in
            let blended :=
              blendedOffset e ((Vector3.y vertex - bottomY f) / (topY f - bottomY f)) in
            let clamped := clampOffset blended in
            let radialPosition := radialPositionOf env f vertex in
            exists offset,
              v' = Vector3.add vertex (Vector3.multiplyScalar normal offset)
              /\ 0.003 <= offset <= 0.05
              /\ (lengthSq normal == 1 ->
                  lengthSq (Vector3.sub v' vertex) == offset * offset)
              /\ (blended < 0 -> offset = 0.003)
              /\ (0 <= blended -> clamped == Qmax 0.003 (Qmin blended 0.05))
              /\ (clamped <= 0.01 -> offset = clamped)
              /\ (0.01 < clamped ->
                    offset = Qmax (clamped * (0.6 + radialPosition * 0.4)) 0.003))
         (keptWithNormals env avatar f normals) (position shirt).
Proof.
  intros avatarMesh options oldIndex run avatar world f e normals shirt Hidx Hsqrt Hw Hh.
  split; [now apply createHybridTShirt_shirt|].
  destruct (@shirtGeometry_kept env avatar f e normals oldIndex) as [Hp Hn].
  split; [exact Hn|].
  unfold shirt, builtShirt. fold world. fold f. fold e. fold normals. rewrite Hp.
  clear Hp Hn.
  induction (keptWithNormals env avatar f normals) as [|[vertex normal] l IH];
    [constructor|].
  cbn [map]. constructor; [|exact IH]. cbn [fst snd].
  destruct (@adjustedOffsetOf_range env f e vertex Hsqrt Hw) as (R & N & C & S & B).
  exists (adjustedOffsetOf env f e vertex).
  split; [reflexivity|]. split; [exact R|].
  split; [|repeat split; assumption].
  intros Hunit.
  transitivity (adjustedOffsetOf env f e vertex * adjustedOffsetOf env f e vertex
                * lengthSq normal);
    [apply (@displacement_length vertex normal) | rewrite Hunit; ring].
Qed.

End BuiltOffset.

Section Clearance.

Variable env : Three.

Local Open Scope Q_scope.

(** C1, as the code has it.  The collision resolver returns on a geometry
    with normals and keeps the number of vertices.  Right after it every
    vertex whose inward ray hit the body stands at [hit + normal * c] with
    [c >= 0.015], where [hit = v - normal * d] is the point the ray met: for
    [d < 0.015] the vertex was pushed and [c = 0.018 - 0.2 * d > 0.015], for
    [d >= 0.015] it was not moved; a vertex whose ray hit nothing was not
    moved either.  In the pipeline of [createHybridTShirt] the resolver runs
    once, and the dynamic wrinkles and the recomputation of the normals run
    after it: nothing checks the clearance again. *)
Theorem collision_response_restores_clearance :
  forall (g : BufferGeometry) (avatarMesh : Mesh) (ns : list Vector3.t),
    normal g = Some ns ->
    exists g',
      applyCollisionResponse env g avatarMesh 0.015 = JS.Returned g'
      /\ List.length (position g') = List.length (position g)
      /\ (forall i v n,
            nth_error (position g) i = Some v ->
            nth_error ns i = Some n ->
            exists v',
              nth_error (position g') i = Some v'
              /\ match inwardHits env avatarMesh v n with
                 | d :: _ =>
                     let hit := Vector3.sub v (Vector3.multiplyScalar n d) in
                     exists c,
                       0.015 <= c
                       /\ Vector3.equiv v'
                            (Vector3.add hit (Vector3.multiplyScalar n c))
                       /\ (d < 0.015 -> c == 0.018 - 0.2 * d /\ 0.015 < c)
                       /\ (0.015 <= d -> c = d /\ v' = v)
                 | [] => v' = v
                 end)
      /\ (forall (options : HybridGarmentOptions) (shirt : BufferGeometry),
            drapeShirt env options avatarMesh shirt
            = runStages env avatarMesh (codeOrder options) shirt
            /\ exists before,
                 codeOrder options
                 = before ++ [CollisionResponse; DynamicWrinkles; VertexNormals]
                 /\ ~ In CollisionResponse before).
Proof.
  intros g avatarMesh ns Hns.
  unfold applyCollisionResponse. rewrite (normalAttribute_some g Hns). cbn [JS.bind].
  eexists. split; [reflexivity|].
  split.
  { match goal with |- context [if ?c then _ else _] => destruct c end;
      cbn [position withVertexNormals setPosition]; apply mapi_length. }
  split.
  - intros i v n Hv Hn.
    exists (match collisionVertex env avatarMesh 0.015 v n with
            | Some moved => moved
            | None => v
            end).
    split.
    { match goal with |- context [if ?c then _ else _] => destruct c end;
        cbn [position withVertexNormals setPosition];
        rewrite mapi_nth_error, Hv; cbn [option_map];
        now rewrite (fromBufferAttribute_nth_error ns i Hn). }
    unfold collisionVertex.
    destruct (inwardHits env avatarMesh v n) as [|d rest]; [reflexivity|].
    cbv zeta. destruct (JS.ltb d 0.015) eqn:E.
    + apply ltb_lt in E. exists (0.018 - 0.2 * d).
      split; [lra|]. split.
      { unfold Vector3.equiv, Vector3.add, Vector3.sub, Vector3.multiplyScalar.
        cbn [Vector3.x Vector3.y Vector3.z]. repeat split; ring. }
      split; [intros _; split; [reflexivity | lra] | intros H; lra].
    + apply ltb_ge in E. exists d.
      split; [exact E|]. split.
      { unfold Vector3.equiv, Vector3.add, Vector3.sub, Vector3.multiplyScalar.
        cbn [Vector3.x Vector3.y Vector3.z]. repeat split; ring. }
      split; [intros H; lra | intros _; split; reflexivity].
  - intros options shirt. split; [apply drapeShirt_in_code_order|].
    unfold codeOrder.
    exists ((if flag (smoothing options) then [LaplacianSmoothing] else [])
            ++ (if flag (gravity options) then [GravityDrape] else [])
            ++ (if flag (wrinkles options) then [SubtleWrinkles] else [])
            ++ [StretchZones; FabricWeight; SeamTension]).
    split.
    + rewrite <- !app_assoc. reflexivity.
    + destruct (flag (smoothing options)), (flag (gravity options)),
        (flag (wrinkles options)); cbn; intuition discriminate.
Qed.

End Clearance.

(* ================================================================== *)
(** ** The pipeline on concrete meshes *)
(* ================================================================== *)

Section OnScenes.

Local Open Scope Q_scope.

(** Scenario D again: the vertex a millimetre in front of the wall stands
    17.8 mm from it after the pass. *)
Lemma collision_response_restores_clearance_witness :
  normal Scenes.nearWall = Some [Scenes.up]
  /\ exists g' v',
       applyCollisionResponse Rational3.three Scenes.nearWall Scenes.wallMesh 0.015
       = JS.Returned g'
       /\ nth_error (position g') 0 = Some v'
       /\ Vector3.z v' == 0.0178.
Proof.
  split; [reflexivity|].
  assert (Hhit : inwardHits Rational3.three Scenes.wallMesh Scenes.nearWallVertex Scenes.up
                 = [0.001%Q]) by (vm_compute; reflexivity).
  destruct (@collision_response_restores_clearance Rational3.three Scenes.nearWall
              Scenes.wallMesh [Scenes.up] eq_refl) as (g' & Hg & _ & Hv & _).
  destruct (Hv 0%nat Scenes.nearWallVertex Scenes.up eq_refl eq_refl) as (v' & Hi & Hm).
  exists g', v'. split; [exact Hg|]. split; [exact Hi|].
  rewrite Hhit in Hm. destruct Hm as (c & _ & (_ & _ & Hz) & Hlt & _).
  destruct Hlt as [Hc _]; [reflexivity|].
  rewrite Hz. cbn [Vector3.z Vector3.add Vector3.sub Vector3.multiplyScalar
                   Scenes.nearWallVertex Scenes.up].
  rewrite Hc. reflexivity.
Defined.

(** Scenario B: with three centimetres of negative ease every vertex of the
    shirt built on the wall with a thin triangle stands 3 mm in front of
    the wall. *)
Lemma fabric_offset_within_clearance_witness :
  index (geometry Scenes.sliverMesh) = Some Scenes.chestIndex
  /\ (let shirt := builtShirt Rational3.three Scenes.sliverMesh
                     (Scenes.manual (-3) false false false) Scenes.chestIndex in
      shirtOf (createHybridTShirt Rational3.three Scenes.sliverMesh
                 (Scenes.manual (-3) false false false))
      = runStages Rational3.three Scenes.sliverMesh
          (codeOrder (Scenes.manual (-3) false false false)) shirt
      /\ List.length (position shirt) = 3%nat
      /\ Forall (fun v' => Vector3.z v' == 0.003) (position shirt)).
Proof.
  split; [reflexivity|]. cbv zeta.
  assert (Hw : 0 < bodyWidth
                     (frameOf (map (applyWorld Scenes.sliverMesh)
                                   (position (geometry Scenes.sliverMesh))) None))
    by (vm_compute; reflexivity).
  assert (Hh : 0 < bodyHeight
                     (frameOf (map (applyWorld Scenes.sliverMesh)
                                   (position (geometry Scenes.sliverMesh))) None))
    by (vm_compute; reflexivity).
  destruct (@fabric_offset_within_clearance Rational3.three Scenes.sliverMesh
              (Scenes.manual (-3) false false false) Scenes.chestIndex
              eq_refl Rational3_sqrt_nonneg Hw Hh) as (Hrun & _ & _).
  split; [exact Hrun|].
  split; [vm_compute; reflexivity | vm_compute; repeat constructor].
Defined.

(** On the wall with a centimetre triangle the passes run in the order of
    the code. *)
Lemma createHybridTShirt_runs_code_order_witness :
  index (geometry Scenes.chestMesh) = Some Scenes.chestIndex
  /\ (let run :=
        createHybridTShirt Rational3.three Scenes.chestMesh
          (Scenes.manual 1 true false false) in
      shirtOf run
      = runStages Rational3.three (avatarAfter run)
          (codeOrder (Scenes.manual 1 true false false))
          (builtShirt Rational3.three (avatarAfter run)
             (Scenes.manual 1 true false false) Scenes.chestIndex)).
Proof.
  split; [reflexivity|].
  exact (proj1 (@createHybridTShirt_runs_code_order Rational3.three Scenes.chestMesh
                  (Scenes.manual 1 true false false) Scenes.chestIndex eq_refl)).
Defined.

(** C2, as stated, fails.  On the wall with a centimetre triangle and the
    default options, the passes [createHybridTShirt] runs on the inflated
    region start with the smoother (documented as the last pass) and have the
    collision resolver before the dynamic wrinkles (documented after them).
    The two orders part at once: the smoother moves the first vertex of the
    inflated region along [x], the stretch pass leaves its [x] alone. *)
Lemma documented_order_is_not_run :
  let options := Scenes.defaults in
  let built := builtShirt Rational3.three Scenes.chestMesh options Scenes.chestIndex in
  shirtOf (createHybridTShirt Rational3.three Scenes.chestMesh options)
  = runStages Rational3.three Scenes.chestMesh
      [LaplacianSmoothing; GravityDrape; SubtleWrinkles; StretchZones; FabricWeight;
       SeamTension; CollisionResponse; DynamicWrinkles; VertexNormals]
      built
  /\ documentedOrder
     = [StretchZones; FabricWeight; SeamTension; DynamicWrinkles; CollisionResponse;
        LaplacianSmoothing]
  /\ Vector3.x (nth 0 (position built) Vector3.zero)
     < Vector3.x (nth 0 (positionsOf
                           (runStage Rational3.three Scenes.chestMesh
                              LaplacianSmoothing built)) Vector3.zero)
  /\ Vector3.x (nth 0 (positionsOf
                         (runStage Rational3.three Scenes.chestMesh
                            StretchZones built)) Vector3.zero)
     == Vector3.x (nth 0 (position built) Vector3.zero).
Proof.
  cbv zeta. split; [|split; [reflexivity|]].
  - exact (@createHybridTShirt_shirt Rational3.three Scenes.chestMesh Scenes.defaults
             Scenes.chestIndex eq_refl).
  - vm_compute. split; reflexivity.
Qed.

(** C1, as stated, fails: on the wall with a thin triangle the third vertex
    of the finished shirt is less than 9 mm from the wall along its inward
    ray, 6 mm short of the clearance. *)
Lemma finished_shirt_below_clearance :
  exists (g : BufferGeometry) (ns : list Vector3.t) (v n : Vector3.t)
         (d : Q) (rest : list Q),
    shirtOf (createHybridTShirt Rational3.three Scenes.sliverMesh
               (Scenes.manual 1 false false false)) = JS.Returned g
    /\ nth_error (position g) 2 = Some v
    /\ normal g = Some ns
    /\ nth_error ns 2 = Some n
    /\ inwardHits Rational3.three Scenes.sliverMesh v n = d :: rest
    /\ d < 0.009.
Proof.
  do 6 eexists.
  split; [vm_compute; reflexivity|].
  split; [reflexivity|].
  split; [reflexivity|].
  split; [reflexivity|].
  split; [vm_compute; reflexivity|].
  vm_compute. reflexivity.
Qed.

(** A wall without index and a loose triangle in front of it: nothing is
    thrown, and the garment keeps the push of the collision pass. *)
Lemma unindexed_mesh_is_logged_not_thrown_witness :
  index (geometry Scenes.unindexedWall) = None
  /\ index Scenes.looseTriangle = None
  /\ completion (createHybridTShirt Rational3.three Scenes.unindexedWall
                   (Scenes.manual 1 true true true)) = JS.Returned []
  /\ laplacianSmoothing Scenes.looseTriangle 3 0.5
     = {| garmentAfter := Scenes.looseTriangle;
          fitConsoleError :=
            ["[GarmentFitting] Missing position or index attributes"%string];
          fitCompletion := JS.Returned tt |}.
Proof.
  destruct (@unindexed_mesh_is_logged_not_thrown Rational3.three Scenes.unindexedWall
              (Rational3.meshOf Scenes.looseTriangle) Scenes.wallMesh
              (Scenes.manual 1 true true true) Scenes.defaultFitting 3%nat 0.5
              eq_refl eq_refl) as ((Hc & _) & Hl & _).
  repeat split; assumption.
Defined.

(** C3, as stated, fails: on the wall without index [createHybridTShirt]
    returns (an empty group) and throws nothing; and [fitGarmentToBody] on a
    garment without index returns too, after its collision pass has moved
    the vertices from 2 mm to 5 mm in front of the wall. *)
Lemma unindexed_mesh_throws_nothing :
  completion (createHybridTShirt Rational3.three Scenes.unindexedWall
                (Scenes.manual 1 true true true)) = JS.Returned []
  /\ (let run :=
        fitGarmentToBody Rational3.three (Rational3.meshOf Scenes.looseTriangle)
          Scenes.wallMesh Scenes.defaultFitting in
      fitCompletion run = JS.Returned tt
      /\ fitConsoleError run
         = ["[GarmentFitting] Missing position or index attributes"%string]
      /\ map Vector3.z (position Scenes.looseTriangle) = [0.002; 0.002; 0.002]
      /\ List.length (position (garmentAfter run)) = 3%nat
      /\ Forall (fun p => Vector3.z p == 0.005) (position (garmentAfter run))).
Proof.
  vm_compute. repeat split. repeat constructor.
Qed.

(** C8, as stated, fails: an avatar without vertex normals has them after
    the call. *)
Lemma createHybridTShirt_writes_normals :
  normal (geometry Scenes.bareWall) = None
  /\ exists ns,
       normal (geometry (avatarAfter
                 (createHybridTShirt Rational3.three Scenes.bareWall
                    (Scenes.manual 1 false false false))))
       = Some ns.
Proof. split; [reflexivity|]. eexists. reflexivity. Qed.

End OnScenes.

(* ================================================================== *)
(** ** More on the fit analyzer and the size recommender *)
(* ================================================================== *)

Section FitAnalyzerFacts.

Local Open Scope Q_scope.

Lemma fold_worse_priority (rest : list FitStatus) (first : FitStatus) :
  statusPriority (fold_left worse rest first)
  = fold_left Nat.min (map statusPriority rest) (statusPriority first).
Proof.
  revert first. induction rest as [|c rest IH]; intros first; simpl; [reflexivity|].
  now rewrite IH, worse_priority.
Qed.

Lemma fold_worse_extreme_first (rest : list FitStatus) (first : FitStatus) :
  statusPriority first = 0%nat -> fold_left worse rest first = first.
Proof.
  intros H. induction rest as [|c rest IH]; simpl; [reflexivity|].
  assert (Hw : worse first c = first).
  { unfold worse. rewrite H. now destruct (statusPriority c). }
  now rewrite Hw.
Qed.

(** X1.  The overall status is perfect exactly when every status that counts
    (chest, waist, shoulder) is perfect; it is too_tight or too_loose exactly
    when one of them is; and an extreme chest status is the overall status,
    whatever waist and shoulder are. *)
Theorem analyzeFit_overall_perfect_or_extreme :
  forall (g : Garment.t) (b : Body.t),
    let a := analyzeFit g b in
    (overall a = perfect <-> forall s, In s (keyStatuses a) -> s = perfect)
    /\ (extreme (overall a) = true <-> exists s, In s (keyStatuses a) /\ extreme s = true)
    /\ (extreme (status (chestFit a)) = true -> overall a = status (chestFit a)).
Proof.
  intros g b a.
  assert (Hin : In (overall a) (keyStatuses a)).
  { unfold a. rewrite analyzeFit_overall. apply fold_worse_in. }
  assert (Hleast : forall s, In s (keyStatuses a) ->
            (statusPriority (overall a) <= statusPriority s)%nat).
  { intros s Hs. unfold a. rewrite analyzeFit_overall. now apply fold_worse_least. }
  assert (Hext : forall s, extreme s = true <-> statusPriority s = 0%nat)
    by (intros []; cbv; split; intros H; try reflexivity; discriminate).
  assert (Hperf : forall s, s = perfect <-> statusPriority s = 2%nat)
    by (intros []; cbv; split; intros H; try reflexivity; discriminate).
  assert (Hmax : forall s, (statusPriority s <= 2)%nat) by (intros []; simpl; lia).
  split; [|split].
  - split.
    + intros Ho s Hs. apply Hperf. specialize (Hleast s Hs).
      rewrite Ho in Hleast. simpl in Hleast. specialize (Hmax s). lia.
    + intros Hall. apply Hall. exact Hin.
  - split.
    + intros Ho. exists (overall a). split; assumption.
    + intros (s & Hs & He). apply Hext. apply Hext in He.
      specialize (Hleast s Hs). lia.
  - intros He. apply Hext in He.
    unfold a. rewrite analyzeFit_overall. fold a.
    change (hd perfect (keyStatuses a)) with (status (chestFit a)).
    now apply fold_worse_extreme_first.
Qed.


End FitAnalyzerFacts.

Section RecommendSizeFacts.

Variable b : Body.t.

Local Open Scope Z_scope.

Lemma scanStep_coherent (st : Scan) (s : SizeOption) :
  coherent b st -> coherent b (scanStep b st s).
Proof.
  intros [Ha Hs]. unfold scanStep, coherent.
  destruct (bestScore st <? calculateFitScore (analyzeFit (measurements s) b)).
  - cbn [bestSize bestAnalysis bestScore]. split; reflexivity.
  - destruct ((0 <? calculateFitScore (analyzeFit (measurements s) b))
              && notExtreme (overall (analyzeFit (measurements s) b)));
      cbn [bestSize bestAnalysis bestScore]; split; assumption.
Qed.

(** The scan ends on the first candidate of the highest score, counting the
    size it started with as standing before the list. *)
Lemma scan_first_best (l : list SizeOption) (st : Scan) :
  coherent b st ->
  let st' := fold_left (scanStep b) l st in
  coherent b st'
  /\ ((bestSize st' = bestSize st
       /\ forall s, In s l -> scoreOf b s <= scoreOf b (bestSize st))
      \/ (exists pre post,
            l = pre ++ bestSize st' :: post
            /\ scoreOf b (bestSize st) < scoreOf b (bestSize st')
            /\ (forall p, In p pre -> scoreOf b p < scoreOf b (bestSize st'))
            /\ (forall q, In q post -> scoreOf b q <= scoreOf b (bestSize st')))).
Proof.
  revert st. induction l as [|s l IH]; intros st Hst; cbn [fold_left].
  - split; [exact Hst|]. left. split; [reflexivity|]. intros s [].
  - pose proof (scanStep_coherent s Hst) as Hstep.
    destruct (IH (scanStep b st s) Hstep) as (Hco & Hcase). cbv zeta.
    split; [exact Hco|].
    destruct Hst as [Ha Hs].
    assert (Hbest : (bestScore st < scoreOf b s /\ bestSize (scanStep b st s) = s)
                    \/ (scoreOf b s <= bestScore st
                        /\ bestSize (scanStep b st s) = bestSize st)).
    { unfold scanStep. fold (scoreOf b s).
      destruct (Z.ltb_spec (bestScore st) (scoreOf b s)) as [Hlt|Hge].
      - left. split; [exact Hlt | reflexivity].
      - right. split; [exact Hge|].
        destruct ((0 <? scoreOf b s) && notExtreme (overall (analyzeFit (measurements s) b)));
          reflexivity. }
    destruct Hbest as [[Hlt Hb]|[Hge Hb]]; rewrite Hb in Hcase.
    + right. destruct Hcase as [[Hsame Hall]|(pre & post & Hl & Hgt & Hpre & Hpost)].
      * exists [], l. rewrite Hsame. cbn [app].
        repeat split; try lia; [intros p []|exact Hall].
      * exists (s :: pre), post. cbn [app].
        split; [f_equal; exact Hl|].
        repeat split; try lia; [|exact Hpost].
        intros p [<-|Hp]; [exact Hgt | now apply Hpre].
    + destruct Hcase as [[Hsame Hall]|(pre & post & Hl & Hgt & Hpre & Hpost)].
      * left. split; [exact Hsame|].
        intros s' [<-|Hin]; [lia | now apply Hall].
      * right. exists (s :: pre), post. cbn [app].
        split; [f_equal; exact Hl|].
        repeat split; try assumption.
        intros p [<-|Hp]; [lia | now apply Hpre].
Qed.

(** X3.  [recommendSize] recommends the first candidate of the highest score:
    no candidate scores higher, every candidate before it scores lower, and
    the analysis returned is the analysis of that candidate. *)
Theorem recommendSize_recommends_first_best :
  forall (first : SizeOption) (rest : list SizeOption),
    exists r s pre post,
      recommendSize (first :: rest) b = JS.Returned r
      /\ first :: rest = pre ++ s :: post
      /\ recommendedSize r = size s
      /\ analysis r = analyzeFit (measurements s) b
      /\ (forall p, In p pre -> scoreOf b p < scoreOf b s)
      /\ (forall q, In q post -> scoreOf b q <= scoreOf b s).
Proof.
  intros first rest. unfold recommendSize.
  set (st0 := {| bestSize := first;
                 bestAnalysis := analyzeFit (measurements first) b;
                 bestScore := calculateFitScore (analyzeFit (measurements first) b);
                 alternatives := [] |}).
  assert (H0 : coherent b st0) by (split; reflexivity).
  destruct (@scan_first_best (first :: rest) st0 H0)
    as ([Ha _] & [[Hsame Hall]|(pre & post & Hl & _ & Hpre & Hpost)]).
  - eexists. exists first, [], rest. split; [reflexivity|].
    cbn [recommendedSize analysis app]. rewrite Ha, Hsame.
    repeat split; [intros p [] |].
    intros q Hq. apply Hall. now right.
  - eexists. exists (bestSize (fold_left (scanStep b) (first :: rest) st0)), pre, post.
    split; [reflexivity|]. cbn [recommendedSize analysis].
    repeat split; assumption.
Qed.

Lemma scan_alternatives (l : list SizeOption) (st : Scan) (seen : list SizeOption) :
  coherent b st ->
  In (bestSize st) seen ->
  (forall a, In a (alternatives st) -> listed b seen a) ->
  forall a, In a (alternatives (fold_left (scanStep b) l st)) -> listed b (seen ++ l) a.
Proof.
  revert st seen. induction l as [|s l IH]; intros st seen Hst Hbest Halts a;
    cbn [fold_left].
  - rewrite app_nil_r. apply Halts.
  - intros Ha.
    replace (seen ++ s :: l) with ((seen ++ [s]) ++ l) by (now rewrite <- app_assoc).
    apply (@IH (scanStep b st s) (seen ++ [s])); [now apply scanStep_coherent | | | exact Ha].
    + unfold scanStep.
      destruct (bestScore st <? calculateFitScore (analyzeFit (measurements s) b)).
      * cbn [bestSize]. apply in_or_app. right. now left.
      * destruct ((0 <? calculateFitScore (analyzeFit (measurements s) b))
                  && notExtreme (overall (analyzeFit (measurements s) b)));
          cbn [bestSize]; apply in_or_app; now left.
    + assert (Hold : forall a', In a' (alternatives st) -> listed b (seen ++ [s]) a').
      { intros a' Ha'. destruct (Halts a' Ha') as (s' & Hin & Hsz & Hok).
        exists s'. split; [apply in_or_app; now left | split; assumption]. }
      destruct Hst as [Han _].
      unfold scanStep.
      destruct (bestScore st <? calculateFitScore (analyzeFit (measurements s) b)).
      * cbn [alternatives].
        destruct (notExtreme (overall (bestAnalysis st))) eqn:Hne; [|exact Hold].
        intros a' Ha'. apply in_app_or in Ha'. destruct Ha' as [Ha'|[<-|[]]].
        -- now apply Hold.
        -- exists (bestSize st). split; [apply in_or_app; now left|].
           split; [reflexivity|]. now rewrite <- Han.
      * destruct ((0 <? calculateFitScore (analyzeFit (measurements s) b))
                  && notExtreme (overall (analyzeFit (measurements s) b))) eqn:Hc;
          [|exact Hold].
        cbn [alternatives]. apply andb_true_iff in Hc. destruct Hc as [_ Hne].
        intros a' Ha'. apply in_app_or in Ha'. destruct Ha' as [Ha'|[<-|[]]].
        -- now apply Hold.
        -- exists s. split; [apply in_or_app; right; now left|].
           split; [reflexivity | exact Hne].
Qed.

(** X4.  [recommendSize] returns at most two alternatives, and each of them
    names a size of the list whose overall status is neither too_tight nor
    too_loose. *)
Theorem recommendSize_alternatives :
  forall (first : SizeOption) (rest : list SizeOption),
    exists r,
      recommendSize (first :: rest) b = JS.Returned r
      /\ (List.length (alternativeSizes r) <= 2)%nat
      /\ forall a, In a (alternativeSizes r) -> listed b (first :: rest) a.
Proof.
  intros first rest. unfold recommendSize. eexists. split; [reflexivity|].
  cbn [alternativeSizes]. split.
  - rewrite length_firstn. lia.
  - intros a Ha.
    set (st0 := {| bestSize := first;
                   bestAnalysis := analyzeFit (measurements first) b;
                   bestScore := calculateFitScore (analyzeFit (measurements first) b);
                   alternatives := [] |}) in *.
    assert (Hin : In a (alternatives (fold_left (scanStep b) (first :: rest) st0))).
    { rewrite <- (firstn_skipn 2). apply in_or_app. now left. }
    assert (H0 : coherent b st0) by (split; reflexivity).
    assert (H1 : In (bestSize st0) [first]) by now left.
    assert (H2 : forall a', In a' (alternatives st0) -> listed b [first] a')
      by (intros a' []).
    destruct (@scan_alternatives (first :: rest) st0 [first] H0 H1 H2 a Hin)
      as (s & Hs & Hsz & Hok).
    exists s. split; [|split; assumption].
    destruct Hs as [<-|Hs]; [now left | exact Hs].
Qed.

End RecommendSizeFacts.

Section Recommendation.

Local Open Scope Q_scope.

(** X5.  [generateRecommendation] gives the positive message exactly when
    there is nothing to report: the chest is perfect or loose, waist and
    shoulder (if analysed) are neither too_tight nor too_loose, and the
    length (if analysed) is at most 5 cm short and at most 15 cm long.  A
    snug (tight) chest alone already turns the message into a warning. *)
Theorem generateRecommendation_positive_iff :
  forall (chestFit : FitMetric) (waistFit shoulderFit lengthFit : option FitMetric),
    generateRecommendation chestFit waistFit shoulderFit lengthFit
    = "✓ Perfect fit - this size should fit well"%string
    <-> nothingToReport chestFit waistFit shoulderFit lengthFit = true.
Proof.
  intros c w s l. unfold generateRecommendation, nothingToReport, JS.gtb, JS.ltb, JS.leb.
  destruct (status c);
    (destruct w as [w|]; [destruct (status w)|]);
    (destruct s as [s|]; [destruct (status s)|]);
    (destruct l as [l|];
     [destruct (Qle_bool (-5) (difference l)), (Qle_bool (difference l) 15)|]);
    cbn; split; intros H; try reflexivity; discriminate H.
Qed.

End Recommendation.

(* ================================================================== *)
(** ** The shirt geometry is well formed and no pass throws *)
(* ================================================================== *)

Unset Implicit Arguments.

Section WellFormed.

Variable env : Three.

Local Open Scope nat_scope.

Lemma updateNth_length {A : Type} (l : list A) (i : nat) (a : A) :
  List.length (updateNth l i a) = List.length l.
Proof.
  revert i. induction l as [|h l IH]; intros i; simpl; [reflexivity|].
  destruct i; simpl; [reflexivity | now rewrite IH].
Qed.

Lemma addNeighbor_returns (adjacency : list (list nat)) (a b : nat) :
  a < List.length adjacency ->
  exists m, addNeighbor adjacency a b = JS.Returned m
            /\ List.length m = List.length adjacency.
Proof.
  intros Ha. unfold addNeighbor.
  destruct (nth_error adjacency a) as [s|] eqn:E.
  - eexists. split; [reflexivity | apply updateNth_length].
  - apply nth_error_None in E. lia.
Qed.

Lemma addNeighbor_throws (adjacency : list (list nat)) (a b : nat) :
  List.length adjacency <= a -> addNeighbor adjacency a b = JS.Thrown JS.TypeError.
Proof.
  intros Ha. unfold addNeighbor.
  apply nth_error_None in Ha. now rewrite Ha.
Qed.

Lemma addTriangle_returns (adjacency : list (list nat)) (t : nat * nat * nat) :
  inRange (List.length adjacency) t ->
  exists m, addTriangle adjacency t = JS.Returned m
            /\ List.length m = List.length adjacency.
Proof.
  destruct t as [[a b] c]. intros (Ha & Hb & Hc). unfold addTriangle.
  destruct (addNeighbor_returns adjacency a b Ha) as (m1 & E1 & L1). rewrite E1.
  cbn [JS.bind]. rewrite <- L1 in Ha, Hb, Hc.
  destruct (addNeighbor_returns m1 a c Ha) as (m2 & E2 & L2). rewrite E2.
  cbn [JS.bind]. rewrite <- L2 in Hb, Hc.
  destruct (addNeighbor_returns m2 b a Hb) as (m3 & E3 & L3). rewrite E3.
  cbn [JS.bind]. rewrite <- L3 in Hb, Hc.
  destruct (addNeighbor_returns m3 b c Hb) as (m4 & E4 & L4). rewrite E4.
  cbn [JS.bind]. rewrite <- L4 in Hc.
  destruct (addNeighbor_returns m4 c a Hc) as (m5 & E5 & L5). rewrite E5.
  cbn [JS.bind]. rewrite <- L5 in Hc.
  destruct (addNeighbor_returns m5 c b Hc) as (m6 & E6 & L6). rewrite E6.
  exists m6. split; [reflexivity|]. congruence.
Qed.

Lemma addTriangles_returns (ts : list (nat * nat * nat)) (adjacency : list (list nat)) :
  Forall (inRange (List.length adjacency)) ts ->
  exists m, addTriangles adjacency ts = JS.Returned m
            /\ List.length m = List.length adjacency.
Proof.
  revert adjacency. induction ts as [|t ts IH]; intros adjacency Hall; simpl.
  - now exists adjacency.
  - inversion Hall as [|? ? Ht Hts]; subst.
    destruct (addTriangle_returns adjacency t Ht) as (m & E & L). rewrite E.
    cbn [JS.bind]. rewrite <- L in Hts.
    destruct (IH m Hts) as (m' & E' & L'). exists m'. split; [exact E' | congruence].
Qed.

Lemma smoothPass_length (adjacency : list (list nat)) (lambda : Q)
    (ps : list Vector3.t) :
  List.length (smoothPass adjacency lambda ps) = List.length ps.
Proof. apply mapi_length. Qed.

Lemma iter_smoothPass_length (adjacency : list (list nat)) (lambda : Q) (n : nat)
    (ps : list Vector3.t) :
  List.length (Nat.iter n (smoothPass adjacency lambda) ps) = List.length ps.
Proof.
  induction n as [|n IH]; simpl; [reflexivity|].
  now rewrite smoothPass_length.
Qed.

Lemma wellFormed_normals (g : BufferGeometry) :
  wellFormed g -> exists ns, normalAttribute g = JS.Returned ns.
Proof.
  intros [Hn _]. unfold normalAttribute.
  destruct (normal g) as [ns|]; [now exists ns | contradiction].
Qed.

Lemma kept_withVertexNormals (g : BufferGeometry) (ps : list Vector3.t) :
  wellFormed g ->
  List.length ps = List.length (position g) ->
  kept g (withVertexNormals env (setPosition g ps)).
Proof.
  intros (_ & ts & Hi & Hall) Hlen. unfold kept, wellFormed. cbn.
  repeat split; try assumption; [discriminate|].
  exists ts. split; [exact Hi | now rewrite Hlen].
Qed.

Lemma kept_setPosition (g : BufferGeometry) (ps : list Vector3.t) :
  wellFormed g ->
  List.length ps = List.length (position g) ->
  kept g (setPosition g ps).
Proof.
  intros (Hn & ts & Hi & Hall) Hlen. unfold kept, wellFormed. cbn.
  repeat split; try assumption.
  exists ts. split; [exact Hi | now rewrite Hlen].
Qed.

Lemma runStage_kept (avatarMesh : Mesh) (s : Stage) (g : BufferGeometry) :
  wellFormed g ->
  exists g', runStage env avatarMesh s g = JS.Returned g' /\ kept g g'.
Proof.
  intros Hwf.
  destruct (wellFormed_normals g Hwf) as (ns & Hns).
  destruct s; cbn [runStage].
  - unfold applyLaplacianSmoothing, buildAdjacencyMap.
    destruct Hwf as (Hn & ts & Hi & Hall). rewrite Hi.
    destruct (addTriangles_returns ts (map (fun _ => []) (position g))) as (m & E & _).
    { now rewrite length_map. }
    rewrite E. cbn [JS.bind]. eexists. split; [reflexivity|].
    apply kept_setPosition.
    + split; [exact Hn|]. now exists ts.
    + apply iter_smoothPass_length.
  - eexists. split; [reflexivity|]. unfold applyGravityDrape.
    apply kept_setPosition; [exact Hwf | apply length_map].
  - unfold addSubtleWrinkles. rewrite Hns. cbn [JS.bind].
    eexists. split; [reflexivity|].
    apply kept_setPosition; [exact Hwf | apply mapi_length].
  - unfold applyStretchZones. rewrite Hns. cbn [JS.bind].
    eexists. split; [reflexivity|].
    apply kept_withVertexNormals; [exact Hwf | apply mapi_length].
  - eexists. split; [reflexivity|]. unfold applyFabricWeight.
    apply kept_withVertexNormals; [exact Hwf | apply length_map].
  - eexists. split; [reflexivity|]. unfold applySeamTension.
    apply kept_withVertexNormals; [exact Hwf | apply length_map].
  - unfold applyCollisionResponse. rewrite Hns. cbn [JS.bind].
    eexists. split; [reflexivity|].
    match goal with |- context [if ?c then _ else _] => destruct c end.
    + apply kept_withVertexNormals; [exact Hwf | apply mapi_length].
    + apply kept_setPosition; [exact Hwf | apply mapi_length].
  - unfold applyDynamicWrinkles. rewrite Hns. cbn [JS.bind].
    eexists. split; [reflexivity|].
    apply kept_withVertexNormals; [exact Hwf | apply mapi_length].
  - eexists. split; [reflexivity|].
    replace g with (setPosition g (position g)) at 2 by (now destruct g).
    now apply kept_withVertexNormals.
Qed.

Lemma runStages_kept (avatarMesh : Mesh) (stages : list Stage) (g : BufferGeometry) :
  wellFormed g ->
  exists g', runStages env avatarMesh stages g = JS.Returned g' /\ kept g g'.
Proof.
  revert g. induction stages as [|s stages IH]; intros g Hwf; cbn [runStages].
  - exists g. split; [reflexivity|]. unfold kept. auto.
  - destruct (runStage_kept avatarMesh s g Hwf) as (g1 & E1 & Hwf1 & L1 & I1).
    rewrite E1. cbn [JS.bind].
    destruct (IH g1 Hwf1) as (g2 & E2 & Hwf2 & L2 & I2).
    exists g2. split; [exact E2|]. unfold kept. split; [exact Hwf2|]. split; congruence.
Qed.

End WellFormed.

Section BuiltShirt.

Variable env : Three.

Local Open Scope nat_scope.

Lemma buildVertices_length (avatarMesh : Mesh) (f : Frame) (e : Ease)
    (normals : list Vector3.t) (keep : Vector3.t -> bool)
    (ps : list Vector3.t) (i : nat) :
  List.length (buildVertices env avatarMesh f e normals i ps (map keep ps))
  = List.length (filter keep ps).
Proof.
  revert i. induction ps as [|p ps IH]; intros i; simpl; [reflexivity|].
  destruct (keep p); simpl; now rewrite IH.
Qed.

Lemma oldToNewFrom_bound (flags : list bool) (n a k : nat) :
  nth_error (oldToNewFrom flags n) a = Some (Some k) ->
  n <= k < n + List.length (filter (fun x => x) flags).
Proof.
  revert n a. induction flags as [|x flags IH]; intros n a H; simpl in *.
  - destruct a; discriminate.
  - destruct x; destruct a; simpl in *.
    + injection H as <-. lia.
    + apply IH in H. lia.
    + discriminate.
    + apply IH in H. lia.
Qed.

Lemma mapGet_bound (flags : list bool) (a k : nat) :
  mapGet (oldToNewVertexMap flags) a = Some k ->
  k < List.length (filter (fun x => x) flags).
Proof.
  unfold mapGet, oldToNewVertexMap. intros H.
  destruct (nth_error (oldToNewFrom flags 0) a) as [[k'|]|] eqn:E; try discriminate.
  injection H as <-. apply oldToNewFrom_bound in E. lia.
Qed.

Lemma newIndices_inRange (flags : list bool) (ts : list (nat * nat * nat)) :
  Forall (inRange (List.length (filter (fun x => x) flags)))
         (newIndices (oldToNewVertexMap flags) ts).
Proof.
  unfold newIndices. induction ts as [|[[a b] c] ts IH]; simpl; [constructor|].
  destruct (mapGet (oldToNewVertexMap flags) a) as [a'|] eqn:Ea; [|exact IH].
  destruct (mapGet (oldToNewVertexMap flags) b) as [b'|] eqn:Eb; [|exact IH].
  destruct (mapGet (oldToNewVertexMap flags) c) as [c'|] eqn:Ec; [|exact IH].
  simpl. constructor; [|exact IH].
  apply mapGet_bound in Ea, Eb, Ec. now repeat split.
Qed.

Lemma filter_map_swap {A B : Type} (g : A -> B) (keep : B -> bool) (l : list A) :
  List.length (filter (fun x => x) (map (fun a => keep (g a)) l))
  = List.length (filter keep (map g l)).
Proof.
  induction l as [|a l IH]; simpl; [reflexivity|].
  destruct (keep (g a)); simpl; now rewrite IH.
Qed.

Lemma filter_map_length {A B : Type} (g : A -> B) (keep : B -> bool) (l : list A) :
  List.length (filter (fun a => keep (g a)) l) = List.length (filter keep (map g l)).
Proof.
  induction l as [|a l IH]; simpl; [reflexivity|].
  destruct (keep (g a)); simpl; now rewrite IH.
Qed.

Lemma shirtGeometry_wellFormed (avatarMesh : Mesh) (f : Frame) (e : Ease)
    (normals : list Vector3.t) (oldIndex : list (nat * nat * nat)) :
  wellFormed (shirtGeometry env avatarMesh f e normals oldIndex)
  /\ List.length (position (shirtGeometry env avatarMesh f e normals oldIndex))
     = List.length (filter (inRegion env f)
                      (map (applyWorld avatarMesh) (position (geometry avatarMesh)))).
Proof.
  assert (Hlen : List.length (position (shirtGeometry env avatarMesh f e normals oldIndex))
                 = List.length (filter (inRegion env f)
                      (map (applyWorld avatarMesh) (position (geometry avatarMesh))))).
  { unfold shirtGeometry. cbn [position]. rewrite length_map.
    rewrite (buildVertices_length avatarMesh f e normals
               (fun p => inRegion env f (applyWorld avatarMesh p))).
    apply filter_map_length. }
  split; [|exact Hlen].
  split; [discriminate|].
  eexists. split; [reflexivity|]. rewrite Hlen.
  rewrite <- (filter_map_swap (applyWorld avatarMesh) (inRegion env f)).
  apply newIndices_inRange.
Qed.

(** X6.  [createHybridTShirt] never throws.  On an indexed avatar it returns
    a group with one mesh: its geometry has normals, one vertex for each
    avatar vertex of the region, and an index that names these vertices
    only (so the adjacency builder finds every key it asks for). *)
Theorem createHybridTShirt_always_returns :
  forall (avatarMesh : Mesh) (options : HybridGarmentOptions),
    exists group,
      completion (createHybridTShirt env avatarMesh options) = JS.Returned group
      /\ (index (geometry avatarMesh) = None -> group = [])
      /\ (index (geometry avatarMesh) <> None ->
          exists g,
            group = [g]
            /\ wellFormed g
            /\ List.length (position g)
               = List.length (keptVertices env avatarMesh options)).
Proof.
  intros avatarMesh options. unfold createHybridTShirt.
  rewrite (body_index_kept env avatarMesh).
  destruct (index (geometry avatarMesh)) as [oldIndex|] eqn:Hidx.
  - cbn [completion]. rewrite (drapeShirt_in_code_order env).
    match goal with
    | |- context [runStages env ?m ?l ?g] =>
        destruct (runStages_kept env m l g) as (g' & E & Hwf & Hlen & _);
        [apply shirtGeometry_wellFormed | rewrite E]
    end.
    cbn [JS.bind]. eexists. split; [reflexivity|].
    split; [discriminate|]. intros _. exists g'. split; [reflexivity|].
    split; [exact Hwf|]. rewrite Hlen.
    match goal with
    | |- context [shirtGeometry env ?m ?f ?e ?ns ?ix] =>
        rewrite (proj2 (shirtGeometry_wellFormed m f e ns ix))
    end.
    unfold keptVertices. cbn [applyWorld geometry].
    now destruct (normal (geometry avatarMesh)).
  - cbn [completion]. eexists. split; [reflexivity|].
    split; [reflexivity|]. intros H. now contradiction H.
Qed.

End BuiltShirt.

(* ================================================================== *)
(** ** The region of the shirt *)
(* ================================================================== *)

Section Region.

Variable env : Three.

Local Open Scope Q_scope.

Lemma geb_false (x y : Q) : JS.geb x y = false <-> x < y.
Proof. apply leb_gt. Qed.

Lemma geb_true (x y : Q) : JS.geb x y = true <-> y <= x.
Proof. apply leb_le. Qed.

(** X7.  On a body of positive height, a vertex that [createHybridTShirt]
    keeps lies in the band from 50% to 85% of the height; the neck test
    (above 92%) never excludes a vertex, whatever the neck radius; and when
    the sleeve is at least 12% of the body height long, the sleeve cut-off
    removes nothing either, so that the region is the band. *)
Theorem inRegion_is_the_band :
  forall (world : list Vector3.t) (garment : option Garment.t) (v : Vector3.t),
    let f := frameOf world garment in
    0 < bodyHeight f ->
    (inRegion env f v = true -> bottomY f <= Vector3.y v <= topY f)
    /\ (forall r, inRegion env (withNeckRadius f r) v = inRegion env f v)
    /\ (minY f + bodyHeight f * 0.70 >= sleeveEndY f ->
        inRegion env f v = inBandY f v).
Proof.
  intros world garment v f Hh.
  assert (Htop : topY f < neckTopY f).
  { unfold f, frameOf in *. cbn [topY neckTopY bodyHeight] in *. nra. }
  assert (Hneck : forall r, inBandY f v = true ->
            JS.geb (Vector3.y v) (neckTopY f)
            && JS.ltb (Math_sqrt env (Vector3.x v * Vector3.x v + Vector3.z v * Vector3.z v)) r
            = false).
  { intros r Hb. unfold inBandY in Hb. apply andb_true_iff in Hb. destruct Hb as [_ Hb].
    apply leb_le in Hb.
    assert (E : JS.geb (Vector3.y v) (neckTopY f) = false) by (apply geb_false; lra).
    now rewrite E. }
  split; [|split].
  - unfold inRegion. intros H.
    apply andb_true_iff in H. destruct H as [H _].
    apply andb_true_iff in H. destruct H as [H _].
    apply andb_true_iff in H. destruct H as [H1 H2].
    apply geb_true in H1. apply leb_le in H2. split; assumption.
  - intros r. unfold inRegion. cbn [withNeckRadius bottomY topY neckTopY neckRadius minY
                                    bodyHeight bodyWidth sleeveEndY].
    fold (inBandY f v).
    pose proof (Hneck r) as N1. pose proof (Hneck (neckRadius f)) as N2.
    destruct (inBandY f v); [|reflexivity].
    now rewrite (N1 eq_refl), (N2 eq_refl).
  - intros Hs. unfold inRegion. fold (inBandY f v).
    pose proof (Hneck (neckRadius f)) as N2.
    destruct (inBandY f v); [|reflexivity].
    rewrite (N2 eq_refl). cbn [negb andb].
    match goal with |- negb ?c = true => assert (E : c = false); [|now rewrite E] end.
    destruct (JS.geb ((Vector3.y v - minY f) / bodyHeight f) 0.70) eqn:E1;
      [|reflexivity].
    apply geb_true in E1.
    assert (E2 : JS.ltb (Vector3.y v) (sleeveEndY f) = false).
    { apply ltb_ge.
      assert (bodyHeight f * 0.70 <= Vector3.y v - minY f).
      { apply (Qmult_le_r _ _ (/ bodyHeight f)); [now apply Qinv_lt_0_compat|].
        rewrite <- Qmult_assoc, (Qmult_comm (0.70)), Qmult_assoc, Qmult_inv_r by lra.
        rewrite Qmult_1_l. exact E1. }
      lra. }
    rewrite E2. now rewrite !andb_false_r.
Qed.

End Region.

(** The wall is 1.7 m tall: its region is the band and nothing else counts. *)
Lemma inRegion_is_the_band_witness :
  (0 < bodyHeight Scenes.wallFrame)%Q
  /\ forall r, inRegion Rational3.three (withNeckRadius Scenes.wallFrame r)
                 (Vector3.mk 0.1 1.0 0)
               = inRegion Rational3.three Scenes.wallFrame (Vector3.mk 0.1 1.0 0).
Proof.
  assert (H : (0 < bodyHeight Scenes.wallFrame)%Q) by (vm_compute; reflexivity).
  split; [exact H|].
  exact (proj1 (proj2 (inRegion_is_the_band Rational3.three
                         (position (Scenes.wall Vector3.zero Vector3.zero Vector3.zero))
                         None (Vector3.mk 0.1 1.0 0) H))).
Defined.

(* ================================================================== *)
(** ** The adjacency map *)
(* ================================================================== *)

Section Adjacency.

Local Open Scope nat_scope.

Lemma setAdd_In (s : list nat) (b y : nat) : In y (setAdd s b) <-> In y s \/ y = b.
Proof.
  unfold setAdd. destruct (existsb (Nat.eqb b) s) eqn:E.
  - split; [now left|]. intros [H|H]; [exact H|]. subst y.
    apply existsb_exists in E. destruct E as (x & Hx & Hb).
    apply Nat.eqb_eq in Hb. now subst x.
  - rewrite in_app_iff. simpl. intuition.
Qed.

Lemma setAdd_NoDup (s : list nat) (b : nat) : NoDup s -> NoDup (setAdd s b).
Proof.
  intros Hs. unfold setAdd. destruct (existsb (Nat.eqb b) s) eqn:E; [exact Hs|].
  apply NoDup_app; [exact Hs | repeat constructor; now intros [] |].
  intros x Hx [Hb|[]]. subst x.
  assert (existsb (Nat.eqb b) s = true); [|congruence].
  apply existsb_exists. exists b. split; [exact Hx | apply Nat.eqb_refl].
Qed.

Lemma nth_updateNth {A : Type} (l : list A) (i x : nat) (a d : A) :
  i < List.length l ->
  nth x (updateNth l i a) d = if x =? i then a else nth x l d.
Proof.
  revert i x. induction l as [|h l IH]; intros i x Hi; simpl in *; [lia|].
  destruct i, x; simpl; try reflexivity.
  apply IH. lia.
Qed.

Lemma addNeighbor_spec (m m' : list (list nat)) (a b : nat) :
  addNeighbor m a b = JS.Returned m' ->
  a < List.length m /\ List.length m' = List.length m
  /\ (forall x y, In y (neighboursOf m' x) <-> In y (neighboursOf m x) \/ (x = a /\ y = b))
  /\ (Forall (@NoDup nat) m -> Forall (@NoDup nat) m').
Proof.
  unfold addNeighbor. destruct (nth_error m a) as [s|] eqn:E; [|discriminate].
  intros H. injection H as <-.
  assert (Ha : a < List.length m) by (apply nth_error_Some; congruence).
  split; [exact Ha|]. split; [apply updateNth_length|]. split.
  - intros x y. unfold neighboursOf. rewrite nth_updateNth by exact Ha.
    destruct (Nat.eqb_spec x a) as [->|Hx].
    + rewrite setAdd_In. rewrite (nth_error_nth _ _ _ E). intuition.
    + intuition.
  - intros Hall. apply Forall_forall. intros l Hl.
    apply In_nth with (d := []) in Hl. destruct Hl as (x & Hx & <-).
    rewrite nth_updateNth by exact Ha.
    rewrite Forall_forall in Hall.
    destruct (Nat.eqb_spec x a) as [->|Hne].
    + apply setAdd_NoDup. apply Hall. eapply nth_error_In; eassumption.
    + apply Hall. apply nth_In. now rewrite updateNth_length in Hx.
Qed.

Ltac step_neighbor H m E :=
  match type of H with
  | JS.bind (addNeighbor ?m0 ?a ?b) _ = _ =>
      destruct (addNeighbor m0 a b) as [m|] eqn:E; [cbn [JS.bind] in H | discriminate H]
  end.

Lemma addTriangle_spec (m m' : list (list nat)) (t : nat * nat * nat) :
  addTriangle m t = JS.Returned m' ->
  inRange (List.length m) t /\ List.length m' = List.length m
  /\ (forall x y, In y (neighboursOf m' x) <-> In y (neighboursOf m x) \/ corners t x y)
  /\ (Forall (@NoDup nat) m -> Forall (@NoDup nat) m').
Proof.
  destruct t as [[a b] c]. unfold addTriangle. intros H.
  step_neighbor H m1 E1. step_neighbor H m2 E2. step_neighbor H m3 E3.
  step_neighbor H m4 E4. step_neighbor H m5 E5.
  apply addNeighbor_spec in E1, E2, E3, E4, E5, H.
  destruct E1 as (A1 & L1 & S1 & D1), E2 as (A2 & L2 & S2 & D2), E3 as (A3 & L3 & S3 & D3),
           E4 as (A4 & L4 & S4 & D4), E5 as (A5 & L5 & S5 & D5), H as (A6 & L6 & S6 & D6).
  split; [|split; [|split]].
  - unfold inRange. lia.
  - lia.
  - intros x y. rewrite S6, S5, S4, S3, S2, S1. unfold corners. tauto.
  - intros D. apply D6, D5, D4, D3, D2, D1, D.
Qed.

Lemma addTriangles_spec (ts : list (nat * nat * nat)) (m m' : list (list nat)) :
  addTriangles m ts = JS.Returned m' ->
  Forall (inRange (List.length m)) ts /\ List.length m' = List.length m
  /\ (forall x y, In y (neighboursOf m' x) <-> In y (neighboursOf m x) \/ shareTriangle ts x y)
  /\ (Forall (@NoDup nat) m -> Forall (@NoDup nat) m').
Proof.
  revert m. induction ts as [|t ts IH]; intros m H; simpl in H.
  - injection H as <-. split; [constructor|]. split; [reflexivity|]. split; [|auto].
    intros x y. split; [now left|]. intros [H|(t & [] & _)]. exact H.
  - destruct (addTriangle m t) as [m1|] eqn:E; [cbn [JS.bind] in H | discriminate H].
    apply addTriangle_spec in E. destruct E as (R1 & L1 & S1 & D1).
    apply IH in H. destruct H as (R & L & S & D).
    rewrite L1 in R, L.
    split; [now constructor|]. split; [exact L|]. split; [|auto].
    intros x y. rewrite S, S1. unfold shareTriangle. split.
    + intros [[H|H]|(t' & Ht & Hc)]; [now left | right; exists t; simpl; auto
                                      | right; exists t'; simpl; auto].
    + intros [H|(t' & [<-|Ht] & Hc)]; [now left; left | now left; right |].
      right. now exists t'.
Qed.

Lemma corners_sym (t : nat * nat * nat) (x y : nat) : corners t x y -> corners t y x.
Proof. destruct t as [[a b] c]. unfold corners. intuition. Qed.

Lemma nth_map_nil {A : Type} (l : list A) (x : nat) :
  nth x (map (fun _ => @nil nat) l) [] = [].
Proof. revert x. induction l; intros [|x]; simpl; auto. Qed.

(** X8.  On an indexed geometry for which [buildAdjacencyMap] returns, the
    map has one set for each vertex, every triangle of the index names
    vertices of the geometry, no set lists a vertex twice, the neighbours of
    a vertex are exactly the vertices that share a triangle with it, and the
    relation is symmetric. *)
Theorem buildAdjacencyMap_neighbours :
  forall (g : BufferGeometry) (ts : list (nat * nat * nat)) (adjacency : list (list nat)),
    index g = Some ts ->
    buildAdjacencyMap g = JS.Returned adjacency ->
    List.length adjacency = List.length (position g)
    /\ Forall (inRange (List.length (position g))) ts
    /\ Forall (@NoDup nat) adjacency
    /\ (forall x y, In y (neighboursOf adjacency x) <-> shareTriangle ts x y)
    /\ (forall x y, In y (neighboursOf adjacency x) -> In x (neighboursOf adjacency y)).
Proof.
  intros g ts adjacency Hi H. unfold buildAdjacencyMap in H. rewrite Hi in H.
  apply addTriangles_spec in H. destruct H as (R & L & S & D).
  rewrite length_map in R, L.
  assert (S' : forall x y, In y (neighboursOf adjacency x) <-> shareTriangle ts x y).
  { intros x y. rewrite S.
    assert (E : neighboursOf (map (fun _ => []) (position g)) x = [])
      by apply nth_map_nil.
    rewrite E. simpl. tauto. }
  split; [exact L|]. split; [exact R|]. split.
  - apply D. apply Forall_forall. intros l Hl. apply in_map_iff in Hl.
    destruct Hl as (_ & <- & _). constructor.
  - split; [exact S'|]. intros x y Hxy. apply S'. apply S' in Hxy.
    destruct Hxy as (t & Ht & Hc). exists t. split; [exact Ht | now apply corners_sym].
Qed.

Lemma inRange_dec (n : nat) (t : nat * nat * nat) : {inRange n t} + {~ inRange n t}.
Proof.
  destruct t as [[a b] c]. unfold inRange.
  destruct (lt_dec a n), (lt_dec b n), (lt_dec c n); (left; tauto) || (right; tauto).
Qed.

Lemma addTriangles_outcome (ts : list (nat * nat * nat)) (m : list (list nat)) :
  match addTriangles m ts with
  | JS.Returned m' =>
      Forall (inRange (List.length m)) ts /\ List.length m' = List.length m
  | JS.Thrown e =>
      e = JS.TypeError /\ Exists (fun t => ~ inRange (List.length m) t) ts
  end.
Proof.
  destruct (addTriangles m ts) as [m'|e] eqn:E.
  - apply addTriangles_spec in E. destruct E as (R & L & _). now split.
  - split; [now destruct e|].
    destruct (Forall_Exists_dec _ (inRange_dec (List.length m)) ts) as [F|X]; [|exact X].
    exfalso. destruct (addTriangles_returns ts m F) as (m' & Hm & _). congruence.
Qed.

(** X9.  On an indexed geometry [buildAdjacencyMap] returns exactly when
    every triangle of the index names vertices of the geometry; when some
    triangle names a vertex that is not there, it throws a [TypeError]. *)
Theorem buildAdjacencyMap_throws_on_bad_index :
  forall (g : BufferGeometry) (ts : list (nat * nat * nat)),
    index g = Some ts ->
    match buildAdjacencyMap g with
    | JS.Returned adjacency =>
        Forall (inRange (List.length (position g))) ts
        /\ List.length adjacency = List.length (position g)
    | JS.Thrown e =>
        e = JS.TypeError
        /\ Exists (fun t => ~ inRange (List.length (position g)) t) ts
    end.
Proof.
  intros g ts Hi. unfold buildAdjacencyMap. rewrite Hi.
  pose proof (addTriangles_outcome ts (map (fun _ => []) (position g))) as T.
  now rewrite length_map in T.
Qed.

Lemma adjacency_in_range (g : BufferGeometry) (adjacency : list (list nat)) :
  buildAdjacencyMap g = JS.Returned adjacency ->
  Forall (Forall (fun j => (j < List.length (position g))%nat)) adjacency.
Proof.
  intros H. unfold buildAdjacencyMap in H. destruct (index g) as [ts|].
  - apply addTriangles_spec in H. destruct H as (R & L & S & _).
    rewrite length_map in R.
    apply Forall_forall. intros nb Hnb. apply Forall_forall. intros j Hj.
    apply In_nth with (d := []) in Hnb. destruct Hnb as (x & Hx & <-).
    apply S in Hj.
    assert (E : neighboursOf (map (fun _ => []) (position g)) x = [])
      by apply nth_map_nil.
    rewrite E in Hj. destruct Hj as [[]|(t & Ht & Hc)].
    rewrite Forall_forall in R. specialize (R t Ht).
    destruct t as [[p q] r]. unfold inRange in R. unfold corners in Hc. lia.
  - injection H as <-. constructor.
Qed.

End Adjacency.

(** The wall: seven vertices, three triangles. *)
Lemma buildAdjacencyMap_neighbours_witness :
  buildAdjacencyMap (Scenes.wall Vector3.zero Vector3.zero Vector3.zero)
  = JS.Returned [[1; 2; 3]; [0; 2]; [0; 1; 3]; [0; 2]; [5; 6]; [4; 6]; [4; 5]]%nat
  /\ (forall x y,
        In y (neighboursOf [[1; 2; 3]; [0; 2]; [0; 1; 3]; [0; 2]; [5; 6]; [4; 6]; [4; 5]]%nat x)
        <-> shareTriangle Scenes.chestIndex x y).
Proof.
  assert (H : buildAdjacencyMap (Scenes.wall Vector3.zero Vector3.zero Vector3.zero)
              = JS.Returned [[1; 2; 3]; [0; 2]; [0; 1; 3]; [0; 2]; [5; 6]; [4; 6]; [4; 5]]%nat)
    by reflexivity.
  split; [exact H|].
  exact (proj1 (proj2 (proj2 (proj2
           (buildAdjacencyMap_neighbours
              (Scenes.wall Vector3.zero Vector3.zero Vector3.zero)
              Scenes.chestIndex _ eq_refl H))))).
Defined.

(** A triangle that names vertex 3 of a geometry of three vertices. *)
Lemma buildAdjacencyMap_throws_on_bad_index_witness :
  index Scenes.brokenTriangle = Some [(0, 1, 3)]%nat
  /\ buildAdjacencyMap Scenes.brokenTriangle = JS.Thrown JS.TypeError
  /\ Exists (fun t => ~ inRange 3 t) [(0, 1, 3)]%nat.
Proof.
  split; [reflexivity|]. split; [reflexivity|].
  exact (proj2 (buildAdjacencyMap_throws_on_bad_index Scenes.brokenTriangle
                  [(0, 1, 3)]%nat eq_refl)).
Defined.

(* ================================================================== *)
(** ** Laplacian smoothing *)
(* ================================================================== *)

Section Smoothing.

Local Open Scope Q_scope.

Lemma sumOver_bounds (a : Axis) (lo hi : Q) (temp : list Vector3.t) (nb : list nat) :
  within a lo hi temp ->
  Forall (fun j => (j < List.length temp)%nat) nb ->
  inject_Z (Z.of_nat (List.length nb)) * lo <= sumOver (coordinate a) temp nb
  /\ sumOver (coordinate a) temp nb <= inject_Z (Z.of_nat (List.length nb)) * hi.
Proof.
  intros Hw Hnb. unfold sumOver.
  assert (G : forall acc,
             acc + inject_Z (Z.of_nat (List.length nb)) * lo
             <= fold_left (fun acc j => acc + coordinate a (fromBufferAttribute temp j)) nb acc
             /\ fold_left (fun acc j => acc + coordinate a (fromBufferAttribute temp j)) nb acc
                <= acc + inject_Z (Z.of_nat (List.length nb)) * hi).
  { induction Hnb as [|j nb Hj Hnb IH]; intros acc.
    - simpl. change (inject_Z 0) with 0. split; lra.
    - cbn [fold_left List.length]. rewrite Nat2Z.inj_succ. unfold Z.succ.
      rewrite inject_Z_plus. change (inject_Z 1) with 1.
      specialize (IH (acc + coordinate a (fromBufferAttribute temp j))).
      assert (B : lo <= coordinate a (fromBufferAttribute temp j) <= hi).
      { unfold within in Hw. rewrite Forall_forall in Hw. apply Hw.
        unfold fromBufferAttribute. now apply nth_In. }
      split; lra. }
  specialize (G 0). split; lra.
Qed.

Lemma coordinate_smoothVertex (a : Axis) (adjacency : list (list nat)) (lambda : Q)
    (temp : list Vector3.t) (i : nat) (cur : Vector3.t) :
  coordinate a (smoothVertex adjacency lambda temp i cur)
  = match nth_error adjacency i with
    | None | Some [] => coordinate a cur
    | Some nb =>
        coordinate a cur
        + (sumOver (coordinate a) temp nb / inject_Z (Z.of_nat (List.length nb))
           - coordinate a cur) * lambda
    end.
Proof.
  unfold smoothVertex. destruct (nth_error adjacency i) as [[|j nb]|]; destruct a; reflexivity.
Qed.

Lemma smoothVertex_within (a : Axis) (lo hi : Q) (adjacency : list (list nat)) (lambda : Q)
    (temp : list Vector3.t) (i : nat) (cur : Vector3.t) :
  0 <= lambda <= 1 ->
  Forall (Forall (fun j => (j < List.length temp)%nat)) adjacency ->
  within a lo hi temp ->
  lo <= coordinate a cur <= hi ->
  lo <= coordinate a (smoothVertex adjacency lambda temp i cur) <= hi.
Proof.
  intros Hl Hadj Hw Hc. rewrite coordinate_smoothVertex.
  destruct (nth_error adjacency i) as [nb|] eqn:E; [|exact Hc].
  destruct nb as [|j nb']; [exact Hc|].
  set (nb := j :: nb') in *.
  assert (Hnb : Forall (fun j => (j < List.length temp)%nat) nb).
  { rewrite Forall_forall in Hadj. apply Hadj. eapply nth_error_In; eassumption. }
  destruct (sumOver_bounds a lo hi temp nb Hw Hnb) as [B1 B2].
  set (n := inject_Z (Z.of_nat (List.length nb))) in *.
  assert (Hn : 0 < n).
  { unfold n, nb. cbn [List.length]. rewrite Nat2Z.inj_succ. unfold Z.succ.
    rewrite inject_Z_plus. change (inject_Z 1) with 1.
    assert (0 <= inject_Z (Z.of_nat (List.length nb'))).
    { change 0 with (inject_Z 0). rewrite <- Zle_Qle. lia. }
    lra. }
  set (s := sumOver (coordinate a) temp nb) in *.
  assert (A1 : lo <= s / n).
  { apply Qle_shift_div_l; [exact Hn | lra]. }
  assert (A2 : s / n <= hi).
  { apply Qle_shift_div_r; [exact Hn | lra]. }
  set (avg := s / n) in *. set (c := coordinate a cur) in *.
  split; nra.
Qed.

Lemma smoothPass_within (a : Axis) (lo hi : Q) (adjacency : list (list nat)) (lambda : Q)
    (ps : list Vector3.t) :
  0 <= lambda <= 1 ->
  Forall (Forall (fun j => (j < List.length ps)%nat)) adjacency ->
  within a lo hi ps ->
  within a lo hi (smoothPass adjacency lambda ps).
Proof.
  intros Hl Hadj Hw. unfold within. apply Forall_forall. intros p Hp.
  apply In_nth_error in Hp. destruct Hp as (i & Hi).
  unfold smoothPass in Hi. rewrite mapi_nth_error in Hi.
  destruct (nth_error ps i) as [cur|] eqn:E; [|discriminate].
  injection Hi as <-.
  apply smoothVertex_within; try assumption.
  unfold within in Hw. rewrite Forall_forall in Hw. apply Hw.
  eapply nth_error_In; eassumption.
Qed.

Lemma iter_smoothPass_within (a : Axis) (lo hi : Q) (adjacency : list (list nat)) (lambda : Q)
    (n : nat) (ps : list Vector3.t) :
  0 <= lambda <= 1 ->
  Forall (Forall (fun j => (j < List.length ps)%nat)) adjacency ->
  within a lo hi ps ->
  within a lo hi (Nat.iter n (smoothPass adjacency lambda) ps).
Proof.
  intros Hl Hadj Hw. induction n as [|n IH]; [exact Hw|].
  change (Nat.iter (S n) (smoothPass adjacency lambda) ps)
    with (smoothPass adjacency lambda (Nat.iter n (smoothPass adjacency lambda) ps)).
  apply smoothPass_within; try assumption.
  eapply Forall_impl; [|exact Hadj]. intros nb Hnb.
  eapply Forall_impl; [|exact Hnb]. intros j Hj. cbv beta in *.
  now rewrite iter_smoothPass_length.
Qed.

(** X10.  With [0 <= lambda <= 1], Laplacian smoothing never takes a vertex
    out of a box that holds the geometry: a bound on a coordinate of all
    vertices before the call holds after it, for any number of iterations.
    The call keeps the number of vertices, the normals and the index. *)
Theorem applyLaplacianSmoothing_stays_in_box :
  forall (g g' : BufferGeometry) (iterations : nat) (lambda : Q)
         (a : Axis) (lo hi : Q),
    0 <= lambda <= 1 ->
    applyLaplacianSmoothing g iterations lambda = JS.Returned g' ->
    within a lo hi (position g) ->
    within a lo hi (position g')
    /\ List.length (position g') = List.length (position g)
    /\ normal g' = normal g /\ index g' = index g.
Proof.
  intros g g' iterations lambda a lo hi Hl H Hw.
  unfold applyLaplacianSmoothing in H.
  destruct (buildAdjacencyMap g) as [adjacency|] eqn:E; [|discriminate].
  cbn [JS.bind] in H. injection H as <-. cbn.
  split; [|split; [apply iter_smoothPass_length | split; reflexivity]].
  apply iter_smoothPass_within; try assumption.
  now apply adjacency_in_range.
Qed.

End Smoothing.

(** One pass over the wall, which is half a metre wide. *)
Lemma applyLaplacianSmoothing_stays_in_box_witness :
  (0 <= 0.4 <= 1)%Q
  /\ within axisX (-0.25) 0.25
       (position (Scenes.wall Vector3.zero Vector3.zero Vector3.zero))
  /\ within axisX (-0.25) 0.25
       (positionsOf (applyLaplacianSmoothing
                       (Scenes.wall Vector3.zero Vector3.zero Vector3.zero) 1 0.4)).
Proof.
  assert (Hl : (0 <= 0.4 <= 1)%Q) by (split; discriminate).
  assert (Hw : within axisX (-0.25) 0.25
                 (position (Scenes.wall Vector3.zero Vector3.zero Vector3.zero))).
  { unfold within. repeat constructor; discriminate. }
  split; [exact Hl|]. split; [exact Hw|].
  destruct (applyLaplacianSmoothing
              (Scenes.wall Vector3.zero Vector3.zero Vector3.zero) 1 0.4) as [g'|e] eqn:E.
  - exact (proj1 (applyLaplacianSmoothing_stays_in_box _ g' 1%nat 0.4%Q axisX
                    (-0.25)%Q 0.25%Q Hl E Hw)).
  - constructor.
Defined.

Section TwoSmoothers.

Local Open Scope Q_scope.

Lemma equiv_refl (p : Vector3.t) : Vector3.equiv p p.
Proof. unfold Vector3.equiv. repeat split; reflexivity. Qed.

Lemma sameVertices_refl (ps : list Vector3.t) : sameVertices ps ps.
Proof. induction ps; constructor; [apply equiv_refl | assumption]. Qed.

Lemma sameVertices_read (ps qs : list Vector3.t) (i : nat) :
  sameVertices ps qs ->
  Vector3.equiv (fromBufferAttribute ps i) (fromBufferAttribute qs i).
Proof.
  intros H. revert i. unfold fromBufferAttribute.
  induction H as [|p q ps qs Hpq H IH]; intros [|i]; simpl;
    try apply equiv_refl; [exact Hpq | apply IH].
Qed.

Lemma sumOver_same (a : Axis) (ps qs : list Vector3.t) (nb : list nat) :
  sameVertices ps qs ->
  sumOver (coordinate a) ps nb == sumOver (coordinate a) qs nb.
Proof.
  intros H. unfold sumOver.
  assert (G : forall acc acc', acc == acc' ->
            fold_left (fun acc j => acc + coordinate a (fromBufferAttribute ps j)) nb acc
            == fold_left (fun acc j => acc + coordinate a (fromBufferAttribute qs j)) nb acc').
  { induction nb as [|j nb IH]; intros acc acc' Hacc; simpl; [exact Hacc|].
    apply IH. destruct (sameVertices_read ps qs j H) as (Hx & Hy & Hz).
    destruct a; simpl; rewrite Hacc; [rewrite Hx | rewrite Hy | rewrite Hz]; reflexivity. }
  apply G. reflexivity.
Qed.

Lemma lerpVertex_smoothVertex (adjacency : list (list nat)) (lambda : Q)
    (ps qs : list Vector3.t) (i : nat) (p q : Vector3.t) :
  sameVertices ps qs -> Vector3.equiv p q ->
  Vector3.equiv (lerpVertex adjacency lambda ps i p) (smoothVertex adjacency lambda qs i q).
Proof.
  intros H (Hx & Hy & Hz). unfold lerpVertex, smoothVertex.
  destruct (nth_error adjacency i) as [[|j nb]|]; try (now repeat split).
  pose proof (sumOver_same axisX ps qs (j :: nb) H) as Sx.
  pose proof (sumOver_same axisY ps qs (j :: nb) H) as Sy.
  pose proof (sumOver_same axisZ ps qs (j :: nb) H) as Sz.
  cbn [coordinate] in Sx, Sy, Sz.
  unfold Vector3.equiv, Vector3.add, Vector3.sub, Vector3.multiplyScalar.
  cbn [Vector3.x Vector3.y Vector3.z].
  rewrite Sx, Sy, Sz, Hx, Hy, Hz. unfold Qdiv.
  repeat split; ring.
Qed.

Lemma mapi_from_same (f g : nat -> Vector3.t -> Vector3.t) (ps qs : list Vector3.t) (k : nat) :
  (forall i p q, Vector3.equiv p q -> Vector3.equiv (f i p) (g i q)) ->
  sameVertices ps qs ->
  sameVertices (mapi_from f k ps) (mapi_from g k qs).
Proof.
  intros Hfg H. revert k. induction H as [|p q ps qs Hpq H IH]; intros k; simpl;
    constructor; [now apply Hfg | apply IH].
Qed.

Lemma iter_same (adjacency : list (list nat)) (lambda : Q) (n : nat) (ps : list Vector3.t) :
  sameVertices
    (Nat.iter n (fun ps => mapi (lerpVertex adjacency lambda ps) ps) ps)
    (Nat.iter n (smoothPass adjacency lambda) ps).
Proof.
  induction n as [|n IH]; [apply sameVertices_refl|].
  change (sameVertices
            (mapi (lerpVertex adjacency lambda
                     (Nat.iter n (fun ps => mapi (lerpVertex adjacency lambda ps) ps) ps))
                  (Nat.iter n (fun ps => mapi (lerpVertex adjacency lambda ps) ps) ps))
            (smoothPass adjacency lambda (Nat.iter n (smoothPass adjacency lambda) ps))).
  unfold smoothPass, mapi. apply mapi_from_same; [|exact IH].
  intros i p q Hpq. now apply lerpVertex_smoothVertex.
Qed.

(** X11.  The smoother of garmentFitting.ts and the smoother of
    hybridGarmentFitting.ts compute the same thing: on every geometry, for
    every number of iterations and every [lambda], they end the same way
    (both return, or both throw the same error leaving the geometry as it
    was), and when they return the vertices agree coordinate by coordinate.
    They differ in the log only: [laplacianSmoothing] reports a missing
    index, [applyLaplacianSmoothing] does not. *)
Theorem laplacianSmoothing_agrees_with_applyLaplacianSmoothing :
  forall (g : BufferGeometry) (iterations : nat) (lambda : Q),
    let run := laplacianSmoothing g iterations lambda in
    match applyLaplacianSmoothing g iterations lambda with
    | JS.Returned g' =>
        fitCompletion run = JS.Returned tt
        /\ sameVertices (position (garmentAfter run)) (position g')
        /\ normal (garmentAfter run) = normal g'
        /\ index (garmentAfter run) = index g'
        /\ (fitConsoleError run = [] <-> index g <> None)
    | JS.Thrown e =>
        fitCompletion run = JS.Thrown e /\ garmentAfter run = g
    end.
Proof.
  intros g iterations lambda run. subst run.
  unfold laplacianSmoothing, applyLaplacianSmoothing, buildNeighborMap, buildAdjacencyMap.
  destruct (index g) as [ts|] eqn:Hi.
  - destruct (addTriangles (map (fun _ => []) (position g)) ts) as [adjacency|e];
      cbn [JS.bind garmentAfter fitCompletion fitConsoleError setPosition position normal index].
    + split; [reflexivity|]. split; [apply iter_same|].
      repeat split; try reflexivity; intros; discriminate.
    + now split.
  - cbn [JS.bind garmentAfter fitCompletion fitConsoleError setPosition position normal index].
    split; [reflexivity|]. split.
    + assert (E : forall n ps, Nat.iter n (smoothPass [] lambda) ps = ps).
      { intros n ps. apply iter_fixed. apply smoothPass_no_adjacency. }
      rewrite E. apply sameVertices_refl.
    + repeat split; try reflexivity; [intros; discriminate | intros H; now elim H].
Qed.

End TwoSmoothers.

(* ================================================================== *)
(** ** The passes that move vertices *)
(* ================================================================== *)

Section BoundingBox.

Local Open Scope Q_scope.

Lemma fold_min_le (f : Vector3.t -> Q) (ps : list Vector3.t) (m : Q) :
  fold_left (fun m q => Qmin m (f q)) ps m <= m
  /\ Forall (fun p => fold_left (fun m q => Qmin m (f q)) ps m <= f p) ps.
Proof.
  revert m. induction ps as [|p ps IH]; intros m; simpl; [split; [lra | constructor]|].
  destruct (IH (Qmin m (f p))) as [A B].
  pose proof (Q.le_min_l m (f p)). pose proof (Q.le_min_r m (f p)).
  split; [lra|]. constructor; [lra | exact B].
Qed.

Lemma fold_max_ge (f : Vector3.t -> Q) (ps : list Vector3.t) (m : Q) :
  m <= fold_left (fun m q => Qmax m (f q)) ps m
  /\ Forall (fun p => f p <= fold_left (fun m q => Qmax m (f q)) ps m) ps.
Proof.
  revert m. induction ps as [|p ps IH]; intros m; simpl; [split; [lra | constructor]|].
  destruct (IH (Qmax m (f p))) as [A B].
  pose proof (Q.le_max_l m (f p)). pose proof (Q.le_max_r m (f p)).
  split; [lra|]. constructor; [lra | exact B].
Qed.

Lemma minOf_le (f : Vector3.t -> Q) (ps : list Vector3.t) (p : Vector3.t) :
  In p ps -> minOf f ps <= f p.
Proof.
  destruct ps as [|p0 ps]; [intros []|]. unfold minOf.
  destruct (fold_min_le f ps (f p0)) as [A B]. rewrite Forall_forall in B.
  intros [<-|H]; [exact A | now apply B].
Qed.

Lemma maxOf_ge (f : Vector3.t -> Q) (ps : list Vector3.t) (p : Vector3.t) :
  In p ps -> f p <= maxOf f ps.
Proof.
  destruct ps as [|p0 ps]; [intros []|]. unfold maxOf.
  destruct (fold_max_ge f ps (f p0)) as [A B]. rewrite Forall_forall in B.
  intros [<-|H]; [exact A | now apply B].
Qed.

End BoundingBox.

Section Drape.

Variable env : Three.

Local Open Scope Q_scope.

Lemma normalized_range (lo hi y : Q) :
  lo < hi -> lo <= y <= hi -> 0 <= (y - lo) / (hi - lo) <= 1.
Proof.
  intros Hh Hy. split.
  - apply Qle_shift_div_l; lra.
  - apply Qle_shift_div_r; lra.
Qed.

(** X12.  The gravity drape moves vertices straight down only: on a geometry
    of positive height and with [strength >= 0], every vertex keeps its [x]
    and [z] and drops by at most [0.05 * strength]; a vertex at the top of
    the bounding box stays, a vertex at the bottom drops by the full
    [0.05 * strength].  Normals and index are left as they were. *)
Theorem applyGravityDrape_lowers_the_hem :
  forall (g : BufferGeometry) (strength : Q) (i : nat) (p : Vector3.t),
    let lo := minOf Vector3.y (position g) in
    let hi := maxOf Vector3.y (position g) in
    lo < hi ->
    0 <= strength ->
    nth_error (position g) i = Some p ->
    exists p',
      nth_error (position (applyGravityDrape g strength)) i = Some p'
      /\ Vector3.x p' = Vector3.x p /\ Vector3.z p' = Vector3.z p
      /\ Vector3.y p - strength * 0.05 <= Vector3.y p' <= Vector3.y p
      /\ (Vector3.y p == hi -> Vector3.y p' == Vector3.y p)
      /\ (Vector3.y p == lo -> Vector3.y p' == Vector3.y p - strength * 0.05)
      /\ normal (applyGravityDrape g strength) = normal g
      /\ index (applyGravityDrape g strength) = index g.
Proof.
  intros g strength i p lo hi Hh Hs Hp.
  unfold applyGravityDrape. cbn [position setPosition normal index].
  rewrite nth_error_map, Hp. cbn [option_map].
  eexists. split; [reflexivity|]. cbn [Vector3.x Vector3.y Vector3.z].
  fold lo. fold hi.
  assert (Hy : lo <= Vector3.y p <= hi).
  { apply nth_error_In in Hp. split; [now apply minOf_le | now apply maxOf_ge]. }
  pose proof (normalized_range lo hi (Vector3.y p) Hh Hy) as Hn.
  set (ny := (Vector3.y p - lo) / (hi - lo)) in *.
  split; [reflexivity|]. split; [reflexivity|]. split; [split; nra|].
  split; [|split; [|split; reflexivity]].
  - intros E. assert (N : ny == 1).
    { unfold ny. rewrite E. field. lra. }
    rewrite N. ring.
  - intros E. assert (N : ny == 0).
    { unfold ny. rewrite E. field. lra. }
    rewrite N. ring.
Qed.

(** X13.  The fabric weight moves vertices straight down only: on a geometry
    of positive height (and a square root that is never negative) every
    vertex keeps its [x] and [z] and never rises; a vertex at the top of the
    bounding box stays, and a vertex at the bottom drops by at least the
    weight factor of the fabric. *)
Theorem applyFabricWeight_only_lowers :
  forall (g : BufferGeometry) (fabric : FabricType) (i : nat) (p : Vector3.t),
    let lo := minOf Vector3.y (position g) in
    let hi := maxOf Vector3.y (position g) in
    (forall q, 0 <= Math_sqrt env q) ->
    lo < hi ->
    nth_error (position g) i = Some p ->
    exists p',
      nth_error (position (applyFabricWeight env g fabric)) i = Some p'
      /\ Vector3.x p' = Vector3.x p /\ Vector3.z p' = Vector3.z p
      /\ Vector3.y p' <= Vector3.y p
      /\ (Vector3.y p == hi -> Vector3.y p' == Vector3.y p)
      /\ (Vector3.y p == lo ->
          Vector3.y p' <= Vector3.y p - weightFactors fabric).
Proof.
  intros g fabric i p lo hi Hsqrt Hh Hp.
  unfold applyFabricWeight. cbn [position setPosition withVertexNormals].
  rewrite nth_error_map, Hp. cbn [option_map].
  eexists. split; [reflexivity|]. unfold weightVertex. cbn [Vector3.x Vector3.y Vector3.z].
  fold lo. fold hi.
  assert (Hy : lo <= Vector3.y p <= hi).
  { apply nth_error_In in Hp. split; [now apply minOf_le | now apply maxOf_ge]. }
  pose proof (normalized_range lo hi (Vector3.y p) Hh Hy) as Hn.
  set (ny := (Vector3.y p - lo) / (hi - lo)) in *.
  pose proof (Hsqrt (Vector3.x p * Vector3.x p + Vector3.z p * Vector3.z p)) as Hd.
  set (d := Math_sqrt env _) in *.
  assert (Hw : 0 < weightFactors fabric) by (destruct fabric; reflexivity).
  set (w := weightFactors fabric) in *.
  split; [reflexivity|]. split; [reflexivity|]. split; [|split].
  - assert (0 <= (1 - ny) * w * (1 + d * 0.3)); [|lra].
    apply Qmult_le_0_compat; [apply Qmult_le_0_compat|]; lra.
  - intros E. assert (N : ny == 1).
    { unfold ny. rewrite E. field. lra. }
    rewrite N. ring.
  - intros E. assert (N : ny == 0).
    { unfold ny. rewrite E. field. lra. }
    rewrite N. nra.
Qed.

(** X14.  The dynamic wrinkles keep the height of every vertex and move it
    at right angles to its normal (the displacement has no component along
    the normal); a vertex whose inward ray hits nothing, or hits first at
    6 cm or farther, is not moved at all.  The call returns whenever the
    geometry has normals. *)
Theorem applyDynamicWrinkles_slides_on_the_surface :
  forall (g : BufferGeometry) (avatarMesh : Mesh) (intensity : Q)
         (ns : list Vector3.t) (i : nat) (v : Vector3.t),
    normal g = Some ns ->
    nth_error (position g) i = Some v ->
    exists g' v',
      applyDynamicWrinkles env g avatarMesh intensity = JS.Returned g'
      /\ nth_error (position g') i = Some v'
      /\ Vector3.y v' = Vector3.y v
      /\ (let n := fromBufferAttribute ns i in
          (Vector3.x v' - Vector3.x v) * Vector3.x n
          + (Vector3.y v' - Vector3.y v) * Vector3.y n
          + (Vector3.z v' - Vector3.z v) * Vector3.z n == 0)
      /\ (forall d rest,
            inwardHits env avatarMesh v (fromBufferAttribute ns i) = d :: rest ->
            0.06 <= d -> v' = v)
      /\ (inwardHits env avatarMesh v (fromBufferAttribute ns i) = [] -> v' = v).
Proof.
  intros g avatarMesh intensity ns i v Hns Hv.
  unfold applyDynamicWrinkles. rewrite (normalAttribute_some g Hns). cbn [JS.bind].
  eexists. eexists. split; [reflexivity|].
  cbn [position setPosition withVertexNormals].
  rewrite mapi_nth_error, Hv. cbn [option_map]. split; [reflexivity|].
  set (n := fromBufferAttribute ns i).
  unfold wrinkleVertex.
  destruct (inwardHits env avatarMesh v n) as [|d rest] eqn:Hhits.
  - repeat split; intros; first [discriminate | reflexivity | ring].
  - destruct (JS.ltb d 0.03) eqn:E1; [|destruct (JS.ltb d 0.06) eqn:E2];
      cbn [Vector3.x Vector3.y Vector3.z];
      match goal with
      | |- context [JS.gtb ?a ?b] =>
          let c := eval vm_compute in (JS.gtb a b) in
          change (JS.gtb a b) with c; cbv iota
      end; cbn [Vector3.x Vector3.y Vector3.z].
    + split; [reflexivity|]. split; [ring|]. split; [|intros; discriminate].
      intros d' rest' E Hd. injection E as <- <-. apply ltb_lt in E1. lra.
    + split; [reflexivity|]. split; [ring|]. split; [|intros; discriminate].
      intros d' rest' E Hd. injection E as <- <-. apply ltb_lt in E2. lra.
    + split; [reflexivity|]. split; [ring|]. split; [reflexivity | intros; discriminate].
Qed.

(** X15.  The stretch zones pull a vertex that is nearer than 2 cm to the
    body towards the body, against its normal, by at most half of its
    distance [d] (by [d * k] with [0 <= k <= 0.5]); a vertex at 2 cm or
    farther, or whose inward ray hits nothing, is not moved. *)
Theorem applyStretchZones_pulls_part_of_the_way :
  forall (g : BufferGeometry) (avatarMesh : Mesh)
         (ns : list Vector3.t) (i : nat) (v : Vector3.t),
    normal g = Some ns ->
    nth_error (position g) i = Some v ->
    exists g' v',
      applyStretchZones env g avatarMesh = JS.Returned g'
      /\ nth_error (position g') i = Some v'
      /\ (let n := fromBufferAttribute ns i in
          forall d rest,
            inwardHits env avatarMesh v n = d :: rest -> d < 0.02 ->
            exists k, 0 <= k <= 0.5
              /\ v' = Vector3.sub v (Vector3.multiplyScalar n (d * k)))
      /\ (forall d rest,
            inwardHits env avatarMesh v (fromBufferAttribute ns i) = d :: rest ->
            0.02 <= d -> v' = v)
      /\ (inwardHits env avatarMesh v (fromBufferAttribute ns i) = [] -> v' = v).
Proof.
  intros g avatarMesh ns i v Hns Hv.
  unfold applyStretchZones. rewrite (normalAttribute_some g Hns). cbn [JS.bind].
  eexists. eexists. split; [reflexivity|].
  cbn [position setPosition withVertexNormals].
  rewrite mapi_nth_error, Hv. cbn [option_map]. split; [reflexivity|].
  cbv zeta. set (n := fromBufferAttribute ns i).
  unfold stretchVertex.
  destruct (inwardHits env avatarMesh v n) as [|d rest] eqn:Hhits.
  - repeat split; intros; first [discriminate | reflexivity].
  - split; [|split; [|intros; discriminate]].
    + intros d' rest' E Hd. injection E as <- <-.
      apply ltb_lt in Hd. rewrite Hd.
      match goal with
      | |- context [if ?c then 0.7 else _] => destruct c
      end.
      * exists (1 - 0.7). split; [split; lra | reflexivity].
      * match goal with
        | |- context [if ?c then 0.5 else _] => destruct c
        end.
        -- exists (1 - 0.5). split; [split; lra | reflexivity].
        -- exists (1 - 1.0). split; [split; lra | reflexivity].
    + intros d' rest' E Hd. injection E as <- <-. apply ltb_ge in Hd. now rewrite Hd.
Qed.

End Drape.

(** The wall drapes: its top corner stays where it is. *)
Lemma applyGravityDrape_lowers_the_hem_witness :
  (minOf Vector3.y (position (Scenes.wall Vector3.zero Vector3.zero Vector3.zero))
   < maxOf Vector3.y (position (Scenes.wall Vector3.zero Vector3.zero Vector3.zero)))%Q
  /\ (0 <= 0.01)%Q
  /\ exists p',
       nth_error (position (applyGravityDrape
                              (Scenes.wall Vector3.zero Vector3.zero Vector3.zero) 0.01)) 2
       = Some p'
       /\ Vector3.x p' = 0.25%Q.
Proof.
  assert (Hh : (minOf Vector3.y (position (Scenes.wall Vector3.zero Vector3.zero Vector3.zero))
                < maxOf Vector3.y
                    (position (Scenes.wall Vector3.zero Vector3.zero Vector3.zero)))%Q)
    by reflexivity.
  assert (Hs : (0 <= 0.01)%Q) by discriminate.
  split; [exact Hh|]. split; [exact Hs|].
  destruct (applyGravityDrape_lowers_the_hem
              (Scenes.wall Vector3.zero Vector3.zero Vector3.zero) 0.01%Q 2%nat
              (Vector3.mk 0.25 1.7 0) Hh Hs eq_refl) as (p' & H1 & H2 & _).
  exists p'. split; [exact H1 | exact H2].
Defined.

Lemma applyFabricWeight_only_lowers_witness :
  (minOf Vector3.y (position (Scenes.wall Vector3.zero Vector3.zero Vector3.zero))
   < maxOf Vector3.y (position (Scenes.wall Vector3.zero Vector3.zero Vector3.zero)))%Q
  /\ exists p',
       nth_error (position (applyFabricWeight Rational3.three
                              (Scenes.wall Vector3.zero Vector3.zero Vector3.zero) medium)) 0
       = Some p'
       /\ (Vector3.y p' <= 0)%Q.
Proof.
  assert (Hh : (minOf Vector3.y (position (Scenes.wall Vector3.zero Vector3.zero Vector3.zero))
                < maxOf Vector3.y
                    (position (Scenes.wall Vector3.zero Vector3.zero Vector3.zero)))%Q)
    by reflexivity.
  split; [exact Hh|].
  destruct (applyFabricWeight_only_lowers Rational3.three
              (Scenes.wall Vector3.zero Vector3.zero Vector3.zero) medium 0%nat
              (Vector3.mk (-0.25) 0 0) Rational3_sqrt_nonneg Hh eq_refl)
    as (p' & H1 & _ & _ & H2 & _).
  exists p'. split; [exact H1 | exact H2].
Defined.

(** The vertex a millimetre in front of the wall keeps its height. *)
Lemma applyDynamicWrinkles_slides_on_the_surface_witness :
  exists g' v',
    applyDynamicWrinkles Rational3.three Scenes.nearWall Scenes.wallMesh 0.004
    = JS.Returned g'
    /\ nth_error (position g') 0 = Some v'
    /\ Vector3.y v' = 1.0%Q.
Proof.
  destruct (applyDynamicWrinkles_slides_on_the_surface Rational3.three
              Scenes.nearWall Scenes.wallMesh 0.004%Q [Scenes.up] 0%nat
              Scenes.nearWallVertex eq_refl eq_refl)
    as (g' & v' & H1 & H2 & H3 & _).
  exists g', v'. split; [exact H1|]. split; [exact H2 | exact H3].
Defined.

Lemma applyStretchZones_pulls_part_of_the_way_witness :
  exists g' v',
    applyStretchZones Rational3.three Scenes.nearWall Scenes.wallMesh = JS.Returned g'
    /\ nth_error (position g') 0 = Some v'.
Proof.
  destruct (applyStretchZones_pulls_part_of_the_way Rational3.three
              Scenes.nearWall Scenes.wallMesh [Scenes.up] 0%nat
              Scenes.nearWallVertex eq_refl eq_refl)
    as (g' & v' & H1 & H2 & _).
  exists g', v'. split; [exact H1 | exact H2].
Defined.

Section Clear.

Variable env : Three.

Local Open Scope Q_scope.

Lemma collisionVertex_clear (avatarMesh : Mesh) (minDistance : Q) (v n : Vector3.t) :
  clearOf env avatarMesh minDistance v n <->
  collisionVertex env avatarMesh minDistance v n = None.
Proof.
  unfold clearOf, collisionVertex.
  destruct (inwardHits env avatarMesh v n) as [|d rest]; [tauto|].
  destruct (JS.ltb d minDistance) eqn:E.
  - apply ltb_lt in E. split; [lra | discriminate].
  - apply ltb_ge in E. tauto.
Qed.

Lemma mapi_from_fixed {A : Type} (f : nat -> A -> A) (l : list A) (k : nat) :
  (forall i v, nth_error l i = Some v -> f (k + i)%nat v = v) ->
  mapi_from f k l = l.
Proof.
  revert k. induction l as [|a l IH]; intros k H; simpl; [reflexivity|].
  f_equal.
  - specialize (H 0%nat a eq_refl). now rewrite Nat.add_0_r in H.
  - apply IH. intros i v Hi. specialize (H (S i) v Hi).
    now rewrite Nat.add_succ_r in H.
Qed.

Lemma mapi_from_none {A B : Type} (f : nat -> A -> option B) (l : list A) (k : nat) :
  (forall i v, nth_error l i = Some v -> f (k + i)%nat v = None) ->
  filter (fun p => match p with Some _ => true | None => false end) (mapi_from f k l) = [].
Proof.
  revert k. induction l as [|a l IH]; intros k H; simpl; [reflexivity|].
  pose proof (H 0%nat a eq_refl) as H0. rewrite Nat.add_0_r in H0. rewrite H0.
  apply IH. intros i v Hi. specialize (H (S i) v Hi).
  now rewrite Nat.add_succ_r in H.
Qed.

Lemma setPosition_same (g : BufferGeometry) : setPosition g (position g) = g.
Proof. now destruct g. Qed.

(** X16.  When every vertex of a geometry with normals is clear of the body
    (its inward ray hits nothing, or hits first at [minDistance] or
    farther), the collision resolver returns the geometry exactly as it
    was: no vertex is moved and the normals are not recomputed. *)
Theorem applyCollisionResponse_leaves_a_clear_shirt :
  forall (g : BufferGeometry) (avatarMesh : Mesh) (minDistance : Q) (ns : list Vector3.t),
    normal g = Some ns ->
    (forall i v, nth_error (position g) i = Some v ->
                 clearOf env avatarMesh minDistance v (fromBufferAttribute ns i)) ->
    applyCollisionResponse env g avatarMesh minDistance = JS.Returned g.
Proof.
  intros g avatarMesh minDistance ns Hns Hclear.
  unfold applyCollisionResponse. rewrite (normalAttribute_some g Hns). cbn [JS.bind].
  unfold mapi. rewrite mapi_from_none.
  2:{ intros i v Hi. apply collisionVertex_clear. now apply Hclear. }
  cbn [List.length Nat.ltb Nat.leb]. rewrite mapi_from_fixed.
  2:{ intros i v Hi. cbn [Nat.add].
      apply Hclear, collisionVertex_clear in Hi. now rewrite Hi. }
  now rewrite setPosition_same.
Qed.

End Clear.

Section Resolve.

Variable env : Three.

Local Open Scope Q_scope.

Lemma hitsWithin_head (far d : Q) (rest : list Q) :
  nearestFirst (d :: rest) ->
  hitsWithin far (d :: rest)
  = if JS.leb d far then d :: hitsWithin far rest else [].
Proof.
  intros Hs. unfold hitsWithin. cbn [filter].
  destruct (JS.leb d far) eqn:E; [reflexivity|].
  apply leb_gt in E. cbn [nearestFirst] in Hs.
  induction Hs as [|d' rest Hd Hs IH]; [reflexivity|].
  cbn [filter]. assert (E' : JS.leb d' far = false) by (apply leb_gt; lra).
  now rewrite E'.
Qed.

(** X17.  In [resolveCollisions], with [offset >= 0] and the hits of the
    inward ray nearest first, the nearest hit alone decides what happens to
    a vertex, and the limit [far = 2 * offset] of the ray changes nothing:
    a vertex whose nearest hit is at [d < offset] is moved along its world
    normal by [offset - d] and taken back to local space, any other vertex
    stays; nothing is logged when the geometry has normals. *)
Theorem resolveCollisions_far_limit_never_matters :
  forall (garmentMesh bodyMesh : Mesh) (offset : Q) (ns : list Vector3.t)
         (i : nat) (v : Vector3.t),
    let n := directionWorld garmentMesh (fromBufferAttribute ns i) in
    let w := applyWorld garmentMesh v in
    let hits := intersectObject env bodyMesh w (Vector3.negate n) in
    normal (geometry garmentMesh) = Some ns ->
    nth_error (position (geometry garmentMesh)) i = Some v ->
    0 <= offset ->
    nearestFirst hits ->
    exists v',
      nth_error (position (fst (resolveCollisions env garmentMesh bodyMesh offset))) i
      = Some v'
      /\ (forall d rest, hits = d :: rest -> d < offset ->
            v' = applyWorldInverse garmentMesh
                   (Vector3.add w (Vector3.multiplyScalar n (offset - d))))
      /\ (forall d rest, hits = d :: rest -> offset <= d -> v' = v)
      /\ (hits = [] -> v' = v)
      /\ snd (resolveCollisions env garmentMesh bodyMesh offset) = [].
Proof.
  intros garmentMesh bodyMesh offset ns i v n w hits Hns Hv Hoff Hsorted.
  unfold resolveCollisions. rewrite Hns. cbn [fst snd position setPosition].
  rewrite mapi_nth_error, Hv. cbn [option_map].
  eexists. split; [reflexivity|].
  unfold resolveVertex. fold n. fold w. fold hits.
  destruct hits as [|d rest] eqn:Hhits.
  - cbn. repeat split; intros; first [discriminate | reflexivity].
  - rewrite (hitsWithin_head (offset * 2) d rest Hsorted).
    split; [|split; [|split; [intros; discriminate | reflexivity]]].
    + intros d' rest' E Hd. injection E as <- <-.
      assert (E1 : JS.leb d (offset * 2) = true) by (apply leb_le; lra).
      rewrite E1. apply ltb_lt in Hd. now rewrite Hd.
    + intros d' rest' E Hd. injection E as <- <-.
      destruct (JS.leb d (offset * 2)); [|reflexivity].
      apply ltb_ge in Hd. now rewrite Hd.
Qed.

End Resolve.

(** The vertex a millimetre in front of the wall is clear by half a
    millimetre. *)
Lemma applyCollisionResponse_leaves_a_clear_shirt_witness :
  applyCollisionResponse Rational3.three Scenes.nearWall Scenes.wallMesh 0.0005
  = JS.Returned Scenes.nearWall.
Proof.
  apply (applyCollisionResponse_leaves_a_clear_shirt Rational3.three
           Scenes.nearWall Scenes.wallMesh 0.0005%Q [Scenes.up] eq_refl).
  intros [|i] v H.
  - injection H as <-. vm_compute. discriminate.
  - destruct i; discriminate H.
Defined.

(** The same vertex is pushed from 1 mm to the offset of 5 mm. *)
Lemma resolveCollisions_far_limit_never_matters_witness :
  (0 <= 0.005)%Q
  /\ exists v',
       nth_error (position (fst (resolveCollisions Rational3.three
                                   (Rational3.meshOf Scenes.nearWall)
                                   Scenes.wallMesh 0.005))) 0
       = Some v'.
Proof.
  assert (Ho : (0 <= 0.005)%Q) by discriminate.
  split; [exact Ho|].
  assert (Hs : nearestFirst
                 (intersectObject Rational3.three Scenes.wallMesh
                    (applyWorld (Rational3.meshOf Scenes.nearWall) Scenes.nearWallVertex)
                    (Vector3.negate
                       (directionWorld (Rational3.meshOf Scenes.nearWall)
                          (fromBufferAttribute [Scenes.up] 0))))).
  { vm_compute. constructor. }
  destruct (resolveCollisions_far_limit_never_matters Rational3.three
              (Rational3.meshOf Scenes.nearWall) Scenes.wallMesh 0.005%Q [Scenes.up]
              0%nat Scenes.nearWallVertex eq_refl eq_refl Ho Hs) as (v' & H & _).
  exists v'. exact H.
Defined.

(* ================================================================== *)
(** ** The two entry points *)
(* ================================================================== *)

Section Fit.

Variable env : Three.

Local Open Scope Q_scope.

(** X18.  When both the garment and the body measurements are given,
    [createHybridTShirt] ignores the manual eases altogether: whatever
    [chestEase], [waistEase] and [shoulderEase] the options carry, the run
    is the same, with the eases of [calculateActualEase]; and the callback
    [onFitAnalysis], if there is one, is called once with the analysis of
    the two measurements (also when the mesh turns out not to be indexed). *)
Theorem createHybridTShirt_measurements_replace_manual_ease :
  forall (avatarMesh : Mesh) (o : HybridGarmentOptions) (g : Garment.t) (b : Body.t)
         (chest waist shoulder : option Q),
    garmentMeasurements o = Some g ->
    bodyMeasurements o = Some b ->
    createHybridTShirt env avatarMesh (withManualEase o chest waist shoulder)
    = createHybridTShirt env avatarMesh o
    /\ easeOf o = calculateActualEase g b
    /\ fitAnalysisCalls (createHybridTShirt env avatarMesh o)
       = (if onFitAnalysis o then [analyzeFit g b] else []).
Proof.
  intros avatarMesh o g b chest waist shoulder Hg Hb.
  assert (E : easeOf (withManualEase o chest waist shoulder) = easeOf o).
  { unfold easeOf. cbn [withManualEase garmentMeasurements bodyMeasurements].
    now rewrite Hg, Hb. }
  split; [|split].
  - unfold createHybridTShirt. rewrite E.
    cbn [withManualEase garmentMeasurements bodyMeasurements onFitAnalysis].
    destruct (index _); reflexivity.
  - unfold easeOf. now rewrite Hg, Hb.
  - unfold createHybridTShirt. rewrite Hg, Hb. now destruct (index _).
Qed.

Lemma iter_lerp_length (neighbors : list (list nat)) (lambda : Q) (n : nat)
    (ps : list Vector3.t) :
  List.length (Nat.iter n (fun ps => mapi (lerpVertex neighbors lambda ps) ps) ps)
  = List.length ps.
Proof.
  induction n as [|n IH]; [reflexivity|].
  change (Nat.iter (S n) (fun ps => mapi (lerpVertex neighbors lambda ps) ps) ps)
    with (mapi (lerpVertex neighbors lambda
                  (Nat.iter n (fun ps => mapi (lerpVertex neighbors lambda ps) ps) ps))
               (Nat.iter n (fun ps => mapi (lerpVertex neighbors lambda ps) ps) ps)).
  now rewrite mapi_length.
Qed.

Lemma resolveCollisions_keeps (garmentMesh bodyMesh : Mesh) (offset : Q) :
  let g := geometry garmentMesh in
  let r := resolveCollisions env garmentMesh bodyMesh offset in
  List.length (position (fst r)) = List.length (position g)
  /\ index (fst r) = index g /\ normal (fst r) = normal g
  /\ snd r = match normal g with
             | Some _ => []
             | None => ["[GarmentFitting] Missing position or normal attributes"%string]
             end.
Proof.
  intros g r. subst r. unfold resolveCollisions. fold g.
  destruct (normal g) as [ns|] eqn:Hn; cbn [fst snd position setPosition index normal].
  - rewrite mapi_length. auto.
  - auto.
Qed.

(** X19.  What [fitGarmentToBody] does to a garment, whatever the garment:
    it keeps the number of vertices and the index; it logs a missing normal
    attribute and a missing index, in this order, and nothing else; it
    throws (a [TypeError], before the normals are recomputed) exactly when
    the index names a vertex that is not there, and otherwise returns with
    the normals recomputed from the final vertices. *)
Theorem fitGarmentToBody_outcome :
  forall (garmentMesh bodyMesh : Mesh) (options : FittingOptions),
    let g := geometry garmentMesh in
    let run := fitGarmentToBody env garmentMesh bodyMesh options in
    List.length (position (garmentAfter run)) = List.length (position g)
    /\ index (garmentAfter run) = index g
    /\ fitConsoleError run
       = (match normal g with
          | Some _ => []
          | None => ["[GarmentFitting] Missing position or normal attributes"%string]
          end)
         ++ (match index g with
             | Some _ => []
             | None => ["[GarmentFitting] Missing position or index attributes"%string]
             end)
    /\ match fitCompletion run with
       | JS.Returned _ =>
           normal (garmentAfter run)
           = Some (computeVertexNormals env (position (garmentAfter run)) (index g))
           /\ (forall ts, index g = Some ts ->
                 Forall (inRange (List.length (position g))) ts)
       | JS.Thrown e =>
           e = JS.TypeError
           /\ normal (garmentAfter run) = normal g
           /\ exists ts, index g = Some ts
                /\ Exists (fun t => ~ inRange (List.length (position g)) t) ts
       end.
Proof.
  intros garmentMesh bodyMesh options g run. subst run.
  unfold fitGarmentToBody.
  set (offset := JS.nullish (fabricOffset options) DEFAULT_fabricOffset).
  set (iterations := match smoothingIterations options with
                     | Some n => n | None => DEFAULT_smoothingIterations end).
  destruct (resolveCollisions_keeps garmentMesh bodyMesh offset) as (L1 & I1 & N1 & G1).
  fold g in L1, I1, N1, G1.
  destruct (resolveCollisions env garmentMesh bodyMesh offset) as [g1 log1].
  cbn [fst snd] in L1, I1, N1, G1. subst log1.
  unfold laplacianSmoothing, buildNeighborMap.
  destruct (index g1) as [ts|] eqn:Hi1.
  - pose proof (addTriangles_outcome ts (map (fun _ => []) (position g1))) as T.
    rewrite length_map, L1 in T.
    rewrite <- I1.
    destruct (addTriangles (map (fun _ => []) (position g1)) ts) as [adjacency|e];
      cbn [fitCompletion garmentAfter fitConsoleError withVertexNormals setPosition
           position normal index].
    + rewrite iter_lerp_length, Hi1, app_nil_r.
      repeat split; try assumption; try reflexivity.
      intros ts' E. injection E as <-. apply T.
    + rewrite app_nil_r. destruct T as [-> T].
      repeat split; try assumption. now exists ts.
  - rewrite <- I1.
    cbn [fitCompletion garmentAfter fitConsoleError withVertexNormals setPosition
         position normal index].
    rewrite Hi1. repeat split; try assumption; try reflexivity.
    intros ts E. discriminate.
Qed.

End Fit.

(** Size M for the body of the demonstration: the callback gets the
    analysis although the wall has no index. *)
Lemma createHybridTShirt_measurements_replace_manual_ease_witness :
  fitAnalysisCalls (createHybridTShirt Rational3.three Scenes.unindexedWall Scenes.measured)
  = [analyzeFit (Scenes.chart 102 94 70 46) Scenes.userBody].
Proof.
  exact (proj2 (proj2 (createHybridTShirt_measurements_replace_manual_ease
                         Rational3.three Scenes.unindexedWall Scenes.measured
                         (Scenes.chart 102 94 70 46) Scenes.userBody
                         None None None eq_refl eq_refl))).
Defined.

(* ================================================================== *)
(** ** The score of an analysis *)
(* ================================================================== *)

Section Score.

Local Open Scope Z_scope.

Lemma score_of_statuses (c : FitStatus) (w s : option FitStatus) :
  let overall :=
    fold_left worse
      ((match w with Some x => [x] | None => [] end)
       ++ (match s with Some x => [x] | None => [] end)) c in
  let score :=
    statusScores overall * 2 + statusScores c
    + (match w with Some x => statusScores x | None => 0 end)
    + (match s with Some x => statusScores x | None => 0 end) in
  -50 <= score <= 50
  /\ (notExtreme overall = true -> 9 <= score)
  /\ (overall = too_tight -> score <= -5).
Proof.
  destruct c, w as [[]|], s as [[]|]; cbv; repeat split; intros; congruence.
Qed.

(** X20.  The score [calculateFitScore] gives an analysis of [analyzeFit]
    lies between -50 and 50; it is at least 9 when the overall status is
    neither too_tight nor too_loose (so the test [score > 0] of
    [recommendSize] never fails for such an analysis), and at most -5 when
    the overall status is too_tight. *)
Theorem calculateFitScore_of_analysis :
  forall (g : Garment.t) (b : Body.t),
    let a := analyzeFit g b in
    -50 <= calculateFitScore a <= 50
    /\ (notExtreme (overall a) = true -> 9 <= calculateFitScore a)
    /\ (overall a = too_tight -> calculateFitScore a <= -5).
Proof.
  intros g b a.
  pose proof (score_of_statuses (status (chestFit a))
                (option_map status (waistFit a)) (option_map status (shoulderFit a))) as H.
  cbv zeta in H.
  assert (E1 : overall a
               = fold_left worse
                   ((match option_map status (waistFit a) with Some x => [x] | None => [] end)
                    ++ (match option_map status (shoulderFit a) with
                        | Some x => [x] | None => [] end))
                   (status (chestFit a))).
  { unfold a, analyzeFit, allStatuses.
    cbn [overall chestFit waistFit shoulderFit fst snd].
    destruct (JS.truthy (Garment.waist g)), (Garment.waist g),
             (JS.truthy (Garment.shoulderWidth g)), (Garment.shoulderWidth g); reflexivity. }
  assert (E2 : calculateFitScore a
               = statusScores (overall a) * 2 + statusScores (status (chestFit a))
                 + (match option_map status (waistFit a) with
                    | Some x => statusScores x | None => 0 end)
                 + (match option_map status (shoulderFit a) with
                    | Some x => statusScores x | None => 0 end)).
  { unfold calculateFitScore.
    destruct (waistFit a), (shoulderFit a); cbn [option_map]; lia. }
  rewrite <- E1 in H. rewrite <- E2 in H. exact H.
Qed.

End Score.

(* ================================================================== *)
(** ** The seams and the physics pipeline *)
(* ================================================================== *)

Section Seams.

Variable env : Three.

Local Open Scope Q_scope.

Lemma sign_cases (x : Q) :
  (0 < x /\ JS.sign x = 1) \/ (x < 0 /\ JS.sign x = -1) \/ (x == 0 /\ JS.sign x = 0).
Proof.
  unfold JS.sign.
  destruct (JS.ltb 0 x) eqn:E1.
  - left. apply ltb_lt in E1. now split.
  - apply ltb_ge in E1. destruct (JS.ltb x 0) eqn:E2.
    + right; left. apply ltb_lt in E2. now split.
    + right; right. apply ltb_ge in E2. split; [lra | reflexivity].
Qed.

Lemma abs_bound (a m : Q) : - m <= a <= m -> Qabs a <= m.
Proof. intros H. now apply Qabs_Qle_condition. Qed.

Lemma abs_range (a : Q) : - Qabs a <= a <= Qabs a.
Proof. apply Qabs_Qle_condition. lra. Qed.

(** X21.  The seam tension keeps the height of every vertex and never
    widens the shirt: [|z|] does not grow, and [|x|] stays below the larger
    of its old value and the 3 mm of the side-seam pull.  The number of
    vertices and the index are kept. *)
Theorem applySeamTension_never_widens :
  forall (g : BufferGeometry) (i : nat) (p : Vector3.t),
    nth_error (position g) i = Some p ->
    exists p',
      nth_error (position (applySeamTension env g)) i = Some p'
      /\ Vector3.y p' = Vector3.y p
      /\ Qabs (Vector3.z p') <= Qabs (Vector3.z p)
      /\ Qabs (Vector3.x p') <= Qmax (Qabs (Vector3.x p)) 0.003
      /\ List.length (position (applySeamTension env g)) = List.length (position g)
      /\ index (applySeamTension env g) = index g.
Proof.
  intros g i p Hp. unfold applySeamTension.
  cbn [position setPosition withVertexNormals index].
  rewrite nth_error_map, Hp, length_map. cbn [option_map].
  eexists. split; [reflexivity|].
  set (shoulderY := minOf Vector3.y (position g)
                    + (maxOf Vector3.y (position g) - minOf Vector3.y (position g)) * 0.82).
  unfold seamVertex.
  pose proof (abs_range (Vector3.x p)) as Rx.
  pose proof (abs_range (Vector3.z p)) as Rz.
  pose proof (Q.le_max_l (Qabs (Vector3.x p)) 0.003) as M1.
  pose proof (Q.le_max_r (Qabs (Vector3.x p)) 0.003) as M2.
  assert (A0 : 0 <= Qabs (Vector3.x p)) by apply Qabs_nonneg.
  assert (B0 : 0 <= Qabs (Vector3.z p)) by apply Qabs_nonneg.
  destruct (JS.ltb (Qabs (Vector3.y p - shoulderY)) 0.05);
    destruct (JS.ltb (Qabs (Qabs (Math_atan2 env (Vector3.z p) (Vector3.x p))
                            - Math_PI env / 2)) 0.3);
    cbn [Vector3.x Vector3.y Vector3.z];
    (split; [reflexivity|]); (split; [apply abs_bound; lra|]);
    (split; [|split; reflexivity]);
    apply abs_bound;
    destruct (sign_cases (Vector3.x p)) as [[S1 S2]|[[S1 S2]|[S1 S2]]];
    try rewrite S2; lra.
Qed.

End Seams.

Lemma applySeamTension_never_widens_witness :
  exists p',
    nth_error (position (applySeamTension Rational3.three
                           (Scenes.wall Vector3.zero Vector3.zero Vector3.zero))) 2
    = Some p'
    /\ Vector3.y p' = 1.7%Q.
Proof.
  destruct (applySeamTension_never_widens Rational3.three
              (Scenes.wall Vector3.zero Vector3.zero Vector3.zero) 2%nat
              (Vector3.mk 0.25 1.7 0) eq_refl) as (p' & H1 & H2 & _).
  exists p'. split; [exact H1 | exact H2].
Defined.

Section Physics.

Variable env : Three.

Local Open Scope Q_scope.

Lemma normalAttribute_readable (g : BufferGeometry) :
  match normalAttribute g with
  | JS.Returned _ => readable g = true
  | JS.Thrown e => e = JS.TypeError /\ readable g = false
  end.
Proof.
  unfold normalAttribute, readable.
  destruct (normal g), (position g); auto.
Qed.

Lemma readable_normals (g : BufferGeometry) : normal g <> None -> readable g = true.
Proof. unfold readable. destruct (normal g); [reflexivity | intros H; now elim H]. Qed.

Lemma sameShape_refl (g : BufferGeometry) : sameShape g g.
Proof. now split. Qed.

Lemma sameShape_trans (g1 g2 g3 : BufferGeometry) :
  sameShape g1 g2 -> sameShape g2 g3 -> sameShape g1 g3.
Proof. intros [A B] [C D]. split; congruence. Qed.

Lemma applyStretchZones_outcome (g : BufferGeometry) (avatarMesh : Mesh) :
  match applyStretchZones env g avatarMesh with
  | JS.Returned g' => readable g = true /\ sameShape g g' /\ normal g' <> None
  | JS.Thrown e => e = JS.TypeError /\ readable g = false
  end.
Proof.
  unfold applyStretchZones. pose proof (normalAttribute_readable g) as H.
  destruct (normalAttribute g) as [ns|e]; cbn [JS.bind]; [|exact H].
  split; [exact H|]. split; [|discriminate].
  split; cbn; [apply mapi_length | reflexivity].
Qed.

Lemma applyDynamicWrinkles_outcome (g : BufferGeometry) (avatarMesh : Mesh) (k : Q) :
  match applyDynamicWrinkles env g avatarMesh k with
  | JS.Returned g' => readable g = true /\ sameShape g g' /\ normal g' <> None
  | JS.Thrown e => e = JS.TypeError /\ readable g = false
  end.
Proof.
  unfold applyDynamicWrinkles. pose proof (normalAttribute_readable g) as H.
  destruct (normalAttribute g) as [ns|e]; cbn [JS.bind]; [|exact H].
  split; [exact H|]. split; [|discriminate].
  split; cbn; [apply mapi_length | reflexivity].
Qed.

Lemma applyCollisionResponse_outcome (g : BufferGeometry) (avatarMesh : Mesh) (k : Q) :
  match applyCollisionResponse env g avatarMesh k with
  | JS.Returned g' =>
      readable g = true /\ sameShape g g' /\ readable g' = true
      /\ (normal g <> None -> normal g' <> None)
  | JS.Thrown e => e = JS.TypeError /\ readable g = false
  end.
Proof.
  unfold applyCollisionResponse. pose proof (normalAttribute_readable g) as H.
  destruct (normalAttribute g) as [ns|e]; cbn [JS.bind]; [|exact H].
  split; [exact H|].
  match goal with |- context [if ?c then _ else _] => destruct c end.
  - split; [split; cbn; [apply mapi_length | reflexivity]|].
    split; [reflexivity | intros _; discriminate].
  - split; [split; cbn; [apply mapi_length | reflexivity]|].
    split; [|intros Hn; exact Hn].
    unfold readable in *. cbn [normal position setPosition].
    destruct (normal g); [reflexivity|].
    destruct (position g); [reflexivity | discriminate].
Qed.

Lemma applyFabricWeight_outcome (g : BufferGeometry) (f : FabricType) :
  sameShape g (applyFabricWeight env g f) /\ normal (applyFabricWeight env g f) <> None.
Proof.
  unfold applyFabricWeight. split; [split; cbn; [apply length_map | reflexivity] | discriminate].
Qed.

Lemma applySeamTension_outcome (g : BufferGeometry) :
  sameShape g (applySeamTension env g) /\ normal (applySeamTension env g) <> None.
Proof.
  unfold applySeamTension. split; [split; cbn; [apply length_map | reflexivity] | discriminate].
Qed.

(** X22.  [applyRealisticFabricPhysics] throws (a [TypeError]) exactly when
    the geometry has vertices but no normals and a pass reads the normals
    it came with: the stretch pass, or the collision or wrinkle pass with
    both the weight and the seam pass switched off (these two recompute the
    normals).  Otherwise it returns, with the number of vertices and the
    index as they were. *)
Theorem applyRealisticFabricPhysics_throws_iff :
  forall (g : BufferGeometry) (avatarMesh : Mesh) (options : PhysicsOptions),
    match applyRealisticFabricPhysics env g avatarMesh options with
    | JS.Returned g' =>
        List.length (position g') = List.length (position g)
        /\ index g' = index g
        /\ (readable g = true \/ readsGivenNormals options = false)
    | JS.Thrown e =>
        e = JS.TypeError
        /\ readable g = false /\ readsGivenNormals options = true
    end.
Proof.
  intros g avatarMesh options. unfold applyRealisticFabricPhysics, readsGivenNormals.
  set (fabric := match fabricType options with Some f => f | None => medium end).
  destruct (flag (enableStretch options)) eqn:Fs.
  - (* the stretch pass reads the normals *)
    pose proof (applyStretchZones_outcome g avatarMesh) as H1.
    destruct (applyStretchZones env g avatarMesh) as [g1|e]; cbn [JS.bind orb];
      [|destruct H1; auto].
    destruct H1 as (R & S1 & N1).
    set (g2 := if flag (enableWeight options) then applyFabricWeight env g1 fabric else g1).
    assert (H2 : sameShape g1 g2 /\ normal g2 <> None).
    { unfold g2. destruct (flag (enableWeight options));
        [apply applyFabricWeight_outcome | split; [apply sameShape_refl | exact N1]]. }
    destruct H2 as (S2 & N2).
    set (g3 := if flag (enableSeams options) then applySeamTension env g2 else g2).
    assert (H3 : sameShape g2 g3 /\ normal g3 <> None).
    { unfold g3. destruct (flag (enableSeams options));
        [apply applySeamTension_outcome | split; [apply sameShape_refl | exact N2]]. }
    destruct H3 as (S3 & N3).
    assert (H4 : exists g4,
               (if flag (enableCollision options)
                then applyCollisionResponse env g3 avatarMesh 0.015 else JS.Returned g3)
               = JS.Returned g4 /\ sameShape g3 g4 /\ normal g4 <> None).
    { destruct (flag (enableCollision options)).
      - pose proof (applyCollisionResponse_outcome g3 avatarMesh 0.015) as H.
        destruct (applyCollisionResponse env g3 avatarMesh 0.015) as [g4|e].
        + exists g4. destruct H as (_ & S & _ & N). auto.
        + destruct H as [_ H]. rewrite (readable_normals g3 N3) in H. discriminate.
      - exists g3. split; [reflexivity|]. split; [apply sameShape_refl | exact N3]. }
    destruct H4 as (g4 & -> & S4 & N4). cbn [JS.bind].
    assert (S : sameShape g g4)
      by (eapply sameShape_trans; [exact S1|]; eapply sameShape_trans; [exact S2|];
          eapply sameShape_trans; eassumption).
    destruct (flag (enableDynamicWrinkles options)).
    + pose proof (applyDynamicWrinkles_outcome g4 avatarMesh 0.004) as H.
      destruct (applyDynamicWrinkles env g4 avatarMesh 0.004) as [g5|e].
      * destruct H as (_ & S5 & _).
        destruct (sameShape_trans g g4 g5 S S5) as [A B]. auto.
      * destruct H as [_ H]. rewrite (readable_normals g4 N4) in H. discriminate.
    + destruct S as [A B]. auto.
  - cbn [JS.bind orb].
    set (g2 := if flag (enableWeight options) then applyFabricWeight env g fabric else g).
    set (g3 := if flag (enableSeams options) then applySeamTension env g2 else g2).
    assert (H3 : sameShape g g3
                 /\ (if flag (enableWeight options) || flag (enableSeams options)
                     then normal g3 <> None else g3 = g)).
    { unfold g3, g2.
      destruct (flag (enableWeight options)), (flag (enableSeams options)); cbn [orb].
      - destruct (applyFabricWeight_outcome g fabric) as [A _].
        destruct (applySeamTension_outcome (applyFabricWeight env g fabric)) as [B C].
        split; [eapply sameShape_trans; eassumption | exact C].
      - apply applyFabricWeight_outcome.
      - apply applySeamTension_outcome.
      - split; [apply sameShape_refl | reflexivity]. }
    destruct H3 as (S3 & N3).
    assert (R3 : readable g3 = true
                 \/ (readable g = false /\ g3 = g
                     /\ negb (flag (enableWeight options))
                        && negb (flag (enableSeams options)) = true)).
    { destruct (flag (enableWeight options)), (flag (enableSeams options)); cbn [orb] in N3;
        try (left; now apply readable_normals).
      subst g3. rewrite N3. destruct (readable g); [now left | right; auto]. }
    destruct (flag (enableCollision options)) eqn:Fc.
    + pose proof (applyCollisionResponse_outcome g3 avatarMesh 0.015) as H.
      destruct (applyCollisionResponse env g3 avatarMesh 0.015) as [g4|e]; cbn [JS.bind].
      * destruct H as (R & S4 & R4 & _).
        assert (S : sameShape g g4) by (eapply sameShape_trans; eassumption).
        assert (Rg : readable g = true \/
                     negb (flag (enableWeight options)) && negb (flag (enableSeams options))
                     = false).
        { destruct R3 as [_|(Rf & E & _)].
          - destruct (flag (enableWeight options)), (flag (enableSeams options)); cbn;
              auto.
          - rewrite E in R. now left. }
        destruct (flag (enableDynamicWrinkles options)).
        -- pose proof (applyDynamicWrinkles_outcome g4 avatarMesh 0.004) as H.
           destruct (applyDynamicWrinkles env g4 avatarMesh 0.004) as [g5|e].
           ++ destruct H as (_ & S5 & _).
              destruct (sameShape_trans g g4 g5 S S5) as [A B].
              split; [exact A|]. split; [exact B|].
              destruct Rg as [Rg|Rg]; [now left | right; now rewrite Rg].
           ++ destruct H as [_ H]. congruence.
        -- destruct S as [A B]. split; [exact A|]. split; [exact B|].
           destruct Rg as [Rg|Rg]; [now left | right; now rewrite Rg].
      * destruct H as [-> H]. split; [reflexivity|].
        destruct R3 as [R3|(Rf & E & W)]; [congruence|].
        split; [exact Rf|]. rewrite W. reflexivity.
    + cbn [JS.bind orb].
      destruct (flag (enableDynamicWrinkles options)) eqn:Fw.
      * pose proof (applyDynamicWrinkles_outcome g3 avatarMesh 0.004) as H.
        destruct (applyDynamicWrinkles env g3 avatarMesh 0.004) as [g5|e].
        -- destruct H as (R & S5 & _).
           destruct (sameShape_trans g g3 g5 S3 S5) as [A B].
           split; [exact A|]. split; [exact B|].
           destruct R3 as [_|(Rf & E & _)].
           ++ destruct (flag (enableWeight options)), (flag (enableSeams options)); cbn;
                auto.
           ++ rewrite E in R. now left.
        -- destruct H as [-> H]. split; [reflexivity|].
           destruct R3 as [R3|(Rf & E & W)]; [congruence|].
           split; [exact Rf|]. rewrite W. reflexivity.
      * destruct S3 as [A B]. split; [exact A|]. split; [exact B|].
        right. now rewrite andb_false_r.
Qed.

End Physics.

(* ================================================================== *)
(** ** The collision check *)
(* ================================================================== *)

Section HasCollisions.

Variable env : Three.

Local Open Scope Q_scope.

Lemma sampleFrom_short {A : Type} (l : list A) (skip : nat) :
  (List.length l <= skip)%nat -> sampleFrom skip l = [].
Proof.
  revert skip. induction l as [|a l IH]; intros skip H; simpl in *; [reflexivity|].
  destruct skip; [lia|]. apply IH. lia.
Qed.

Lemma sampleFrom_same {A : Type} (l l' : list A) (skip : nat) :
  (forall k, nth_error l (skip + 10 * k) = nth_error l' (skip + 10 * k)) ->
  sampleFrom skip l = sampleFrom skip l'.
Proof.
  revert l' skip. induction l as [|a l IH]; intros l' skip H.
  - simpl. symmetry. apply sampleFrom_short.
    specialize (H 0%nat). rewrite Nat.mul_0_r, Nat.add_0_r in H.
    apply nth_error_None. rewrite <- H. now destruct skip.
  - destruct l' as [|a' l'].
    + change (sampleFrom skip []) with (@nil A). apply sampleFrom_short.
      specialize (H 0%nat). rewrite Nat.mul_0_r, Nat.add_0_r in H.
      apply nth_error_None. rewrite H. now destruct skip.
    + destruct skip as [|s]; simpl.
      * pose proof (H 0%nat) as H0. simpl in H0. injection H0 as <-. f_equal.
        apply IH. intros k. specialize (H (S k)).
        replace (0 + 10 * S k)%nat with (S (9 + 10 * k)) in H by lia. exact H.
      * apply IH. intros k. specialize (H k). exact H.
Qed.

Lemma sampleFrom_In {A : Type} (l : list A) (skip : nat) (a : A) :
  In a (sampleFrom skip l) <-> exists k, nth_error l (skip + 10 * k) = Some a.
Proof.
  revert skip. induction l as [|b l IH]; intros skip.
  - split; [intros H; destruct skip; destruct H | intros (k & H)].
    destruct (skip + 10 * k)%nat; discriminate.
  - destruct skip as [|s]; cbn [sampleFrom In].
    + rewrite IH. split.
      * intros [->|(k & H)]; [now exists 0%nat|].
        exists (S k). replace (0 + 10 * S k)%nat with (S (9 + 10 * k)) by lia. exact H.
      * intros (k & H). destruct k as [|k].
        -- left. change (Some b = Some a) in H. congruence.
        -- right. exists k.
           replace (0 + 10 * S k)%nat with (S (9 + 10 * k)) in H by lia. exact H.
    + rewrite IH. split; intros (k & H); exists k; exact H.
Qed.

(** X23.  [hasCollisions] looks at the vertices 0, 10, 20, ... only: it
    returns [true] exactly when one of them has its nearest hit (within
    0.1) below the tolerance; whatever the other vertices are, the answer
    is the same; and a larger tolerance never turns [true] into [false]. *)
Theorem hasCollisions_looks_at_every_tenth_vertex :
  forall (garmentMesh bodyMesh : Mesh) (tolerance : option Q),
    (hasCollisions env garmentMesh bodyMesh tolerance = true
     <-> exists k v,
           nth_error (position (geometry garmentMesh)) (10 * k) = Some v
           /\ collidesAt env garmentMesh bodyMesh (JS.nullish tolerance 0.001) v = true)
    /\ (forall g',
          (forall k, nth_error (position g') (10 * k)
                     = nth_error (position (geometry garmentMesh)) (10 * k)) ->
          hasCollisions env (withGeometry garmentMesh g') bodyMesh tolerance
          = hasCollisions env garmentMesh bodyMesh tolerance)
    /\ (forall t t', t <= t' ->
          hasCollisions env garmentMesh bodyMesh (Some t) = true ->
          hasCollisions env garmentMesh bodyMesh (Some t') = true).
Proof.
  intros garmentMesh bodyMesh tolerance. split; [|split].
  - unfold hasCollisions. rewrite existsb_exists. split.
    + intros (v & Hv & Hc). apply sampleFrom_In in Hv. destruct Hv as (k & Hk).
      exists k, v. now split.
    + intros (k & v & Hk & Hc). exists v. split; [|exact Hc].
      apply sampleFrom_In. now exists k.
  - intros g' H. unfold hasCollisions. cbn [withGeometry geometry].
    rewrite (sampleFrom_same (position g') (position (geometry garmentMesh)) 0 H).
    reflexivity.
  - intros t t' Ht. unfold hasCollisions. rewrite !existsb_exists.
    intros (v & Hv & Hc). exists v. split; [exact Hv|].
    unfold collidesAt in *. cbn [JS.nullish] in *.
    destruct (hitsWithin 0.1 _) as [|d rest]; [discriminate|].
    apply ltb_lt in Hc. apply ltb_lt. lra.
Qed.

End HasCollisions.
